(** * The market simulator of teenvest: a shallow embedding and its properties

    The development follows [market_simulator.py].  The class [Market] owns a
    Python [dict] from symbol to price; its four methods read it, or mutate it
    in place with the help of the [random] module.

    - Python floats are IEEE 754 binary64 numbers: they are modelled by
      [spec_float] at precision 53 and maximal exponent 1024, with the
      correctly rounded operations of [SpecFloat].
    - The dict is an insertion-ordered association list (Python dicts keep
      insertion order, and [update_prices] iterates over it).
    - [self] is threaded through a state-and-exception monad.
    - The outcomes of the [random] module are explicit oracle arguments.

    The handlers of [app.py] that use the market come after it: they run in
    a monad over the shared market, the database and the session of the
    client, and return a template with its context or a redirect. *)

From Stdlib Require Import ZArith QArith Qabs Qpower Bool List String Lia Lqa.
From Stdlib Require Import Decimal DecimalString.
From Stdlib Require Import Floats.SpecFloat.
Import ListNotations.

Local Open Scope string_scope.
Local Open Scope list_scope.

(* ================================================================== *)
(** * Binary64 floating-point numbers *)
(* ================================================================== *)

Module Float64.

Definition prec : Z := 53.
Definition emax : Z := 1024.

Definition float : Type := spec_float.

Definition add : float -> float -> float := SFadd prec emax.
Definition sub : float -> float -> float := SFsub prec emax.
Definition mul : float -> float -> float := SFmul prec emax.
Definition neg : float -> float := SFopp.

(** The binary64 number nearest to the fraction [n / d] (ties to even),
    with sign [s].  This is how Python reads a decimal literal and how
    [strtod] reads a decimal string. *)
Definition of_ratio (s : bool) (n d : positive) : float :=
  let '(q, e, l) := SFdiv_core_binary prec emax (Zpos n) 0 (Zpos d) 0 in
  binary_round_aux prec emax s q e l.

(** An integer as a float. *)
Definition of_Z (z : Z) : float :=
  binary_normalize prec emax z 0 false.

(** Integer division rounding to nearest, ties to even. *)
Definition div_half_even (a b : Z) : Z :=
  let q := (a / b)%Z in
  let r := (a mod b)%Z in
  match (2 * r ?= b)%Z with
  | Lt => q
  | Gt => (q + 1)%Z
  | Eq => if Z.even q then q else (q + 1)%Z
  end.

(** The magnitude [m * 2^e], scaled by [10^ndigits] and rounded to the
    nearest integer, ties to even. *)
Definition scaled_half_even (m : positive) (e : Z) (ndigits : nat) : Z :=
  let n := (Zpos m * 10 ^ Z.of_nat ndigits)%Z in
  match e with
  | Z0 => n
  | Zpos _ => (n * 2 ^ e)%Z
  | Zneg _ => div_half_even n (2 ^ (- e))
  end.

(** Python's builtin [round(x, ndigits)] on a float, for [ndigits >= 0]
    (and below the bound where CPython returns [x] unchanged):
    infinities, NaN and zeros round to themselves; a finite [x] is
    rounded exactly to [ndigits] decimal places, ties to even, and the
    decimal result is read back as the nearest float. *)
Definition round (x : float) (ndigits : nat) : float :=
  match x with
  | S754_finite s m e =>
      match scaled_half_even m e ndigits with
      | Zpos n => of_ratio s n (Pos.pow 10 (Pos.of_nat ndigits))
      | _ => S754_zero s
      end
  | _ => x
  end.

(** [2^e] as a rational, for any integer [e]. *)
Definition pow2 (e : Z) : Q := (2 ^ e)%Q.

(** The exact rational value of a finite float (0 for the others). *)
Definition to_Q (x : float) : Q :=
  match x with
  | S754_finite s m e =>
      (inject_Z (if s then Zneg m else Zpos m) * pow2 e)%Q
  | _ => 0%Q
  end.

(** Zeros and finite numbers, as opposed to infinities and NaN. *)
Definition is_finite (x : float) : bool :=
  match x with
  | S754_finite _ _ _ | S754_zero _ => true
  | _ => false
  end.

(** ** Notions for the analysis of rounding *)

(** The position of a non-negative value [v] against the integers: [v] is
    in [[m, m+1)], and [l] tells where. *)
Definition inbetween (m : Z) (l : location) (v : Q) : Prop :=
  match l with
  | loc_Exact => v == inject_Z m
  | loc_Inexact Lt => inject_Z m < v /\ v < inject_Z m + (1 # 2)
  | loc_Inexact Eq => v == inject_Z m + (1 # 2)
  | loc_Inexact Gt => inject_Z m + (1 # 2) < v /\ v < inject_Z m + 1
  end%Q.

(** The same for the record that the shifts work on. *)
Definition located (mrs : shr_record) (v : Q) : Prop :=
  inbetween (shr_m mrs) (loc_of_shr_record mrs) v.

(** The float that a rounded mantissa and exponent make. *)
Definition rounded (sx : bool) (m e : Z) : float :=
  match m with
  | Z0 => S754_zero sx
  | Zpos p => if (e <=? 971)%Z then S754_finite sx p e else S754_infinity sx
  | Zneg _ => S754_nan
  end.

(** The sign of a float as a factor. *)
Definition sgn (s : bool) : Q := (if s then (-1) else 1)%Q.

End Float64.

(** A decimal literal with the digits [digits] and [frac] digits after the
    point, read as Python reads it: [decimal 1800 1] is [180.0] and
    [decimal 15 2] is [0.15]. *)
Definition decimal (digits : positive) (frac : nat) : Float64.float :=
  Float64.of_ratio false digits (Pos.pow 10 (Pos.of_nat frac)).

(* ================================================================== *)
(** * Python dictionaries with string keys *)
(* ================================================================== *)

Module Dict.
Section WithValues.

Context {V : Type}.

(** Entries in insertion order; a key occurs at most once ([wf]). *)
Definition dict : Type := list (string * V).

Definition keys (d : dict) : list string := map fst d.

Definition wf (d : dict) : Prop := NoDup (keys d).

(** [d.get(k)] *)
Fixpoint get (k : string) (d : dict) : option V :=
  match d with
  | [] => None
  | (k', v) :: d' => if String.eqb k k' then Some v else get k d'
  end.

(** [d.get(k, default)] *)
Definition get_default (k : string) (default : V) (d : dict) : V :=
  match get k d with
  | Some v => v
  | None => default
  end.

(** [k in d] *)
Definition contains (k : string) (d : dict) : bool :=
  match get k d with
  | Some _ => true
  | None => false
  end.

(** [d[k] = v]: an existing key keeps its position, a new key goes last. *)
Fixpoint set (k : string) (v : V) (d : dict) : dict :=
  match d with
  | [] => [(k, v)]
  | (k', v') :: d' =>
      if String.eqb k k' then (k, v) :: d' else (k', v') :: set k v d'
  end.

End WithValues.
Arguments dict V : clear implicits.
End Dict.

(* ================================================================== *)
(** * Exceptions, and the monad that threads [self] *)
(* ================================================================== *)

Inductive exn : Type :=
| KeyError (key : string)
| IndexError
| RuntimeError.

Inductive result (A : Type) : Type :=
| Ok (a : A)
| Raise (e : exn).
Arguments Ok {A} a.
Arguments Raise {A} e.

(** [random.choice(seq)] is [seq[_randbelow(len(seq))]]; the oracle [r]
    stands for the generator's output, reduced below [len(seq)].  An empty
    sequence raises [IndexError]. *)
Definition random_choice {A : Type} (r : nat) (seq : list A) : result A :=
  match nth_error seq (r mod List.length seq) with
  | Some x => Ok x
  | None => Raise IndexError
  end.

(** [random.uniform(a, b)] is [a + (b - a) * random()]; the oracle [u]
    stands for the value of [random()]. *)
Definition random_uniform (u a b : Float64.float) : Float64.float :=
  Float64.add a (Float64.mul (Float64.sub b a) u).

(** The object: its two attributes. *)
Record Market : Type := mkMarket {
  use_yfinance : bool;
  prices : Dict.dict Float64.float
}.

(** A method body: from the object before to a value and the object after,
    or an exception. *)
Definition M (A : Type) : Type := Market -> result (A * Market).

Definition ret {A : Type} (a : A) : M A := fun self => Ok (a, self).

Definition bind {A B : Type} (c : M A) (k : A -> M B) : M B :=
  fun self =>
    match c self with
    | Ok (a, self') => k a self'
    | Raise e => Raise e
    end.

Definition lift {A : Type} (r : result A) : M A :=
  fun self =>
    match r with
    | Ok a => Ok (a, self)
    | Raise e => Raise e
    end.

Declare Scope market_scope.
Delimit Scope market_scope with market.
Notation "x <- c ;; k" := (bind c (fun x => k))
  (at level 61, c at next level, right associativity) : market_scope.
Notation "c ;; k" := (bind c (fun _ => k))
  (at level 61, right associativity) : market_scope.
Local Open Scope market_scope.

(** [self.prices.get(symbol, default)] *)
Definition prices_get (symbol : string) (default : Float64.float)
  : M Float64.float :=
  fun self => Ok (Dict.get_default symbol default (prices self), self).

(** [self.prices[symbol]] as an expression: [KeyError] on a missing key. *)
Definition prices_getitem (symbol : string) : M Float64.float :=
  fun self =>
    match Dict.get symbol (prices self) with
    | Some v => Ok (v, self)
    | None => Raise (KeyError symbol)
    end.

(** [self.prices[symbol] = v] *)
Definition prices_setitem (symbol : string) (v : Float64.float) : M unit :=
  fun self =>
    Ok (tt, mkMarket (use_yfinance self) (Dict.set symbol v (prices self))).

(** One step of a dict iterator created when the dict had [size] entries:
    [RuntimeError] when the dict has changed size since. *)
Definition prices_iter_check (size : nat) : M unit :=
  fun self =>
    if Nat.eqb (List.length (prices self)) size then Ok (tt, self)
    else Raise RuntimeError.

(** [d[k]] on a local dict. *)
Definition getitem {V : Type} (k : string) (d : Dict.dict V) : result V :=
  match Dict.get k d with
  | Some v => Ok v
  | None => Raise (KeyError k)
  end.

(* ================================================================== *)
(** * class Market *)
(* ================================================================== *)

(** [__init__]: the demo prices. *)
Definition seed_prices : Dict.dict Float64.float :=
  [ ("AAPL", decimal 1800 1);
    ("TSLA", decimal 2500 1);
    ("INFY", decimal 16000 1);
    ("TCS",  decimal 37000 1);
    ("RELI", decimal 29000 1);
    ("BTC",  decimal 650000 1);
    ("ETH",  decimal 35000 1);
    ("DOGE", decimal 15 2) ].

Definition init (use_yfinance : bool) : Market :=
  mkMarket use_yfinance seed_prices.

(** The fallback price [100.0]. *)
Definition fallback : Float64.float := decimal 1000 1.

(** The inner dict [{'price': p}] of a snapshot. *)
Definition quote (p : Float64.float) : Dict.dict Float64.float :=
  Dict.set "price" p [].

(** [get_snapshot]: the loop over [symbols], [snapshot] being the local
    dict built so far. *)
Fixpoint get_snapshot_loop (symbols : list string)
    (snapshot : Dict.dict (Dict.dict Float64.float))
  : M (Dict.dict (Dict.dict Float64.float)) :=
  match symbols with
  | [] => ret snapshot
  | symbol :: rest =>
      price <- prices_get symbol fallback ;;
      get_snapshot_loop rest
        (Dict.set symbol (quote (Float64.round price 2)) snapshot)
  end.

Definition get_snapshot (symbols : list string)
  : M (Dict.dict (Dict.dict Float64.float)) :=
  get_snapshot_loop symbols [].

(** The two steps [[-0.01, 0.01]]. *)
Definition steps : list Float64.float :=
  [ Float64.neg (decimal 1 2); decimal 1 2 ].

(** [simulate_movement]; [r] is the oracle of [random.choice]. *)
Definition simulate_movement (r : nat) (symbol : string)
  : M (Float64.float * Float64.float) :=
  price <- prices_get symbol fallback ;;
  movement <- lift (random_choice r steps) ;;
  let new_price :=
    Float64.mul price (Float64.add (Float64.of_Z 1) movement) in
  prices_setitem symbol new_price ;;
  ret (Float64.round new_price 2, movement).

(** The movement [random.uniform(-0.02, 0.02)] that [update_prices] draws
    for one symbol, given the value [u] of [random()]. *)
Definition shock (u : Float64.float) : Float64.float :=
  random_uniform u (Float64.neg (decimal 2 2)) (decimal 2 2).

(** [update_prices]: the loop over the keys of [self.prices], the iterator
    having been created at [size] entries; [u i] is the value of the
    [i]-th call of [random()]. *)
Fixpoint update_prices_loop (u : nat -> Float64.float) (i size : nat)
    (symbols : list string) : M unit :=
  match symbols with
  | [] => prices_iter_check size
  | symbol :: rest =>
      prices_iter_check size ;;
      let movement := shock (u i) in
      p <- prices_getitem symbol ;;
      prices_setitem symbol
        (Float64.mul p (Float64.add (Float64.of_Z 1) movement)) ;;
      p' <- prices_getitem symbol ;;
      prices_setitem symbol (Float64.round p' 2) ;;
      update_prices_loop u (S i) size rest
  end.

Definition update_prices (u : nat -> Float64.float) : M unit :=
  fun self =>
    update_prices_loop u 0 (List.length (prices self))
      (Dict.keys (prices self)) self.

(** [get_price] *)
Definition get_price (symbol : string) : M Float64.float :=
  prices_get symbol fallback.

(** A call of one of the four methods, with the oracle it consumes; [exec]
    runs it and drops its value, [exec_all] runs a sequence of calls. *)
Inductive call : Type :=
| GetPrice (symbol : string)
| GetSnapshot (symbols : list string)
| SimulateMovement (r : nat) (symbol : string)
| UpdatePrices (u : nat -> Float64.float).

Definition exec (c : call) : M unit :=
  match c with
  | GetPrice symbol => get_price symbol ;; ret tt
  | GetSnapshot symbols => get_snapshot symbols ;; ret tt
  | SimulateMovement r symbol => simulate_movement r symbol ;; ret tt
  | UpdatePrices u => update_prices u
  end.

Fixpoint exec_all (cs : list call) : M unit :=
  match cs with
  | [] => ret tt
  | c :: cs' => exec c ;; exec_all cs'
  end.

(** The table that one pass of [update_prices] computes: entry [i] gets the
    [i]-th shock, then the rounding to 2 decimals. *)
Fixpoint repriced (u : nat -> Float64.float) (i : nat)
    (d : Dict.dict Float64.float) : Dict.dict Float64.float :=
  match d with
  | [] => []
  | (k, p) :: d' =>
      (k, Float64.round
            (Float64.mul p (Float64.add (Float64.of_Z 1) (shock (u i)))) 2)
        :: repriced u (S i) d'
  end.

(** [new] is within 2% of [p]: [|new - p| <= 0.02 * |p|], on exact values. *)
Definition within_2_percent (p new : Float64.float) : Prop :=
  (Qabs (Float64.to_Q new - Float64.to_Q p)
     <= (2 # 100) * Qabs (Float64.to_Q p))%Q.

(** A value of [random()]: a finite float in [[0, 1]]. *)
Definition unit_draw (u : Float64.float) : Prop :=
  Float64.is_finite u = true /\ (0 <= Float64.to_Q u <= 1)%Q.

(** [new] is within 2% and half a cent of [p], up to a relative rounding
    error of [10^-15]. *)
Definition within_2_percent_and_half_a_cent (p new : Float64.float) : Prop :=
  (Qabs (Float64.to_Q new - Float64.to_Q p)
   <= (2 # 100) * Qabs (Float64.to_Q p) + (5 # 1000)
      + (1 # 1000000000000000) * (Qabs (Float64.to_Q p) + 1))%Q.

(* ================================================================== *)
(** * The web application (app.py): numbers and builtins *)
(* ================================================================== *)

Module Py.

(** A Python number as the handlers meet them: an [int] or a [float]. *)
Inductive num : Type :=
| Int (z : Z)
| Flt (f : Float64.float).

(** [float(z)] of an int, also the coercion of an int that meets a float:
    the nearest float, ties to even; [None] stands for [OverflowError]
    (int too large to convert to float). *)
Definition float_of_int (z : Z) : option Float64.float :=
  let f := Float64.of_Z z in
  if Float64.is_finite f then Some f else None.

Definition to_float (n : num) : option Float64.float :=
  match n with
  | Int z => float_of_int z
  | Flt f => Some f
  end.

(** Comparison of an int with a float: Python compares the exact values;
    [None] when the float is NaN. *)
Definition compare_int_float (a : Z) (y : Float64.float)
  : option comparison :=
  match y with
  | S754_nan => None
  | S754_infinity s => Some (if s then Gt else Lt)
  | S754_zero _ => Some (a ?= 0)%Z
  | S754_finite _ _ _ => Some (inject_Z a ?= Float64.to_Q y)%Q
  end.

Definition compare (x y : num) : option comparison :=
  match x, y with
  | Int a, Int b => Some (a ?= b)%Z
  | Flt f, Flt g => SFcompare f g
  | Int a, Flt g => compare_int_float a g
  | Flt f, Int b =>
      match compare_int_float b f with
      | Some c => Some (CompOpp c)
      | None => None
      end
  end.

(** [x < y], [x <= y], [x == y]: false when a NaN is involved. *)
Definition lt (x y : num) : bool :=
  match compare x y with Some Lt => true | _ => false end.

Definition le (x y : num) : bool :=
  match compare x y with Some (Lt | Eq) => true | _ => false end.

Definition eq (x y : num) : bool :=
  match compare x y with Some Eq => true | _ => false end.

(** [x + y], [x - y], [x * y]: exact on two ints, float arithmetic as soon
    as one operand is a float; [None] stands for [OverflowError]. *)
Definition arith (opz : Z -> Z -> Z)
    (opf : Float64.float -> Float64.float -> Float64.float) (x y : num)
  : option num :=
  match x, y with
  | Int a, Int b => Some (Int (opz a b))
  | _, _ =>
      match to_float x, to_float y with
      | Some f, Some g => Some (Flt (opf f g))
      | _, _ => None
      end
  end.

Definition add : num -> num -> option num := arith Z.add Float64.add.
Definition sub : num -> num -> option num := arith Z.sub Float64.sub.
Definition mul : num -> num -> option num := arith Z.mul Float64.mul.

(** [x / y] on floats; [None] stands for [ZeroDivisionError]. *)
Definition truediv (x y : Float64.float) : option Float64.float :=
  match y with
  | S754_zero _ => None
  | _ => Some (SFdiv Float64.prec Float64.emax x y)
  end.

(** [str(n)] of a natural number and of an int. *)
Definition str_of_nat (n : nat) : string :=
  NilZero.string_of_uint (Nat.to_uint n).

Definition str_of_int (z : Z) : string :=
  NilZero.string_of_int (Z.to_int z).

(** [format(x, '.2f')]: the exact value rounded to two decimals, ties to
    even, written with all its digits. *)
Definition format_2f (x : Float64.float) : string :=
  match x with
  | S754_nan => "nan"
  | S754_infinity s => if s then "-inf" else "inf"
  | S754_zero s => if s then "-0.00" else "0.00"
  | S754_finite s m e =>
      let n := Float64.scaled_half_even m e 2 in
      (if s then "-" else "")
      ++ str_of_int (n / 100) ++ "."
      ++ str_of_int (n mod 100 / 10) ++ str_of_int (n mod 10)
  end.

(** [o == s] for the result [o] of a [.get] that may be [None]. *)
Definition opt_eqb (o : option string) (s : string) : bool :=
  match o with
  | Some t => String.eqb t s
  | None => false
  end.

(** [x in l] for strings. *)
Definition mem (x : string) (l : list string) : bool :=
  existsb (String.eqb x) l.

End Py.

(* ================================================================== *)
(** * The web application (app.py): models, session, requests *)
(* ================================================================== *)

(** The rows of the three tables. *)
Module User.
Record t : Type := mk {
  id : Z;
  name : string;
  email : string;
  password_hash : string;
  balance : Float64.float
}.
End User.

Module Holding.
Record t : Type := mk {
  id : Z;
  symbol : string;
  shares : Float64.float;
  avg_price : Float64.float;
  user_id : Z
}.
End Holding.

Module DailyRecord.
Record t : Type := mk {
  id : Z;
  user_id : Z;
  date : Z;
  result_value : Float64.float;
  reward : Float64.float
}.
End DailyRecord.

(** The database: each table in the order of its primary key. *)
Module DB.
Record t : Type := mk {
  users : list User.t;
  holdings : list Holding.t;
  daily_records : list DailyRecord.t
}.

(** The primary key that the database gives to a new row. *)
Definition next_id (ids : list Z) : Z :=
  fold_right Z.max 0%Z ids + 1.

(** [User.query.get(id)] *)
Definition get_user (id : Z) (d : t) : option User.t :=
  find (fun u => Z.eqb (User.id u) id) (users d).

(** [User.query.filter_by(email=email).first()] *)
Definition user_by_email (email : string) (d : t) : option User.t :=
  find (fun u => String.eqb (User.email u) email) (users d).

(** [Holding.query.filter_by(user_id=user_id, symbol=symbol).first()] *)
Definition holding_of (user_id : Z) (symbol : string) (d : t)
  : option Holding.t :=
  find (fun h => Z.eqb (Holding.user_id h) user_id
                 && String.eqb (Holding.symbol h) symbol) (holdings d).

(** [u.holdings] *)
Definition holdings_of (user_id : Z) (d : t) : list Holding.t :=
  filter (fun h => Z.eqb (Holding.user_id h) user_id) (holdings d).

(** [DailyRecord.query.filter_by(user_id=user_id, date=date).first()] *)
Definition record_of (user_id date : Z) (d : t) : option DailyRecord.t :=
  find (fun r => Z.eqb (DailyRecord.user_id r) user_id
                 && Z.eqb (DailyRecord.date r) date) (daily_records d).

(** Writing back a changed row, adding a row, deleting a row. *)
Definition update_user (u : User.t) (d : t) : t :=
  mk (map (fun v => if Z.eqb (User.id v) (User.id u) then u else v) (users d))
     (holdings d) (daily_records d).

Definition update_holding (h : Holding.t) (d : t) : t :=
  mk (users d)
     (map (fun g => if Z.eqb (Holding.id g) (Holding.id h) then h else g)
        (holdings d))
     (daily_records d).

Definition add_user (name email password_hash : string)
    (balance : Float64.float) (d : t) : User.t * t :=
  let u := User.mk (next_id (map User.id (users d)))
             name email password_hash balance in
  (u, mk (users d ++ [u]) (holdings d) (daily_records d)).

Definition add_holding (symbol : string) (shares avg_price : Float64.float)
    (user_id : Z) (d : t) : t :=
  mk (users d)
     (holdings d
      ++ [Holding.mk (next_id (map Holding.id (holdings d)))
            symbol shares avg_price user_id])
     (daily_records d).

Definition delete_holding (h : Holding.t) (d : t) : t :=
  mk (users d)
     (filter (fun g => negb (Z.eqb (Holding.id g) (Holding.id h)))
        (holdings d))
     (daily_records d).
End DB.

(** The keys that the handlers keep in the Flask session, and the messages
    that [flash] queues in it, as (message, category). *)
Module Session.
Record t : Type := mk {
  user_id : option Z;
  live : option bool;
  fake_balance : option Py.num;
  fake_holdings : option (Dict.dict Z);
  flashes : list (string * string)
}.

Definition empty : t := mk None None None None [].
End Session.

(** A request: its method and its form fields. *)
Record request : Type := mkRequest {
  method : string;
  form : Dict.dict string
}.

(** What a handler returns: a template with its context, or a redirect to
    an endpoint. *)
Inductive response (V : Type) : Type :=
| render_template (template : string) (context : V)
| redirect (endpoint : string).
Arguments render_template {V} template context.
Arguments redirect {V} endpoint.

(** The exceptions that can leave a handler. *)
Inductive app_exn : Type :=
| Builtin (e : exn)
| KeyErrorNone
| ValueError
| OverflowError
| ZeroDivisionError
| AttributeError
| Unmodelled.

Inductive outcome (A : Type) : Type :=
| Returns (a : A)
| Raises (e : app_exn).
Arguments Returns {A} a.
Arguments Raises {A} e.

(** The state that the handlers share: the module-level [market], the
    database and the session of the client. *)
Record World : Type := mkWorld {
  market : Market;
  db : DB.t;
  session : Session.t
}.

(** A handler body.  An exception leaves before anything is committed. *)
Definition App (A : Type) : Type := World -> outcome (A * World).

Definition areturn {A : Type} (a : A) : App A := fun w => Returns (a, w).

Definition abind {A B : Type} (c : App A) (k : A -> App B) : App B :=
  fun w =>
    match c w with
    | Returns (a, w') => k a w'
    | Raises e => Raises e
    end.

Definition araise {A : Type} (e : app_exn) : App A := fun _ => Raises e.

(** A value that may be an exception. *)
Definition orelse {A : Type} (o : option A) (e : app_exn) : App A :=
  match o with
  | Some a => areturn a
  | None => araise e
  end.

(** A call of a method of [market]. *)
Definition on_market {A : Type} (c : M A) : App A :=
  fun w =>
    match c (market w) with
    | Ok (a, m) => Returns (a, mkWorld m (db w) (session w))
    | Raise e => Raises (Builtin e)
    end.

Definition get_db : App DB.t := fun w => Returns (db w, w).

Definition put_db (d : DB.t) : App unit :=
  fun w => Returns (tt, mkWorld (market w) d (session w)).

Definition get_session : App Session.t := fun w => Returns (session w, w).

Definition put_session (s : Session.t) : App unit :=
  fun w => Returns (tt, mkWorld (market w) (db w) s).

(** [flash(message, category)] *)
Definition flash (message category : string) : App unit :=
  fun w =>
    let s := session w in
    Returns (tt, mkWorld (market w) (db w)
                   (Session.mk (Session.user_id s) (Session.live s)
                      (Session.fake_balance s) (Session.fake_holdings s)
                      (Session.flashes s ++ [(message, category)]))).

Declare Scope app_scope.
Delimit Scope app_scope with app.
Notation "x <- c ;; k" := (abind c (fun x => k))
  (at level 61, c at next level, right associativity) : app_scope.
Notation "c ;; k" := (abind c (fun _ => k))
  (at level 61, right associativity) : app_scope.
Local Open Scope app_scope.

(** Indexing a list: [IndexError] out of range. *)
Definition index_list {A : Type} (l : list A) (i : nat) : App A :=
  orelse (nth_error l i) (Builtin IndexError).

(** A list comprehension whose element expression can raise. *)
Fixpoint comprehension {A B : Type} (f : A -> App B) (l : list A)
  : App (list B) :=
  match l with
  | [] => areturn []
  | a :: l' => b <- f a ;; bs <- comprehension f l' ;; areturn (b :: bs)
  end.

(** [sum] of a list of booleans. *)
Definition sum_bools (l : list bool) : Z :=
  fold_left (fun acc (b : bool) => (acc + if b then 1 else 0)%Z) l 0%Z.

(** [session.get('live', False)] *)
Definition session_live (s : Session.t) : bool :=
  match Session.live s with
  | Some b => b
  | None => false
  end.

(** The symbols that the index and trade pages list. *)
Definition listed_symbols : list string :=
  ["INFY"; "TCS"; "RELI"; "AAPL"; "TSLA"; "BTC"; "ETH"; "DOGE"].

(** ** [index] *)

Module IndexView.
Record t : Type := mk {
  snapshot : Dict.dict (Dict.dict Float64.float);
  live : bool;
  use_yfinance : bool
}.
End IndexView.

(** [USE_YFINANCE] is whether the import of [yfinance] succeeded. *)
Definition index (USE_YFINANCE : bool) : App (response IndexView.t) :=
  snapshot <- on_market (get_snapshot listed_symbols) ;;
  s <- get_session ;;
  areturn (render_template "index.html"
             (IndexView.mk snapshot (session_live s) USE_YFINANCE)).

(** ** [quiz] *)

Module Question.
Record t : Type := mk {
  question : string;
  options : list string;
  answer : string
}.
End Question.

Definition questions : list Question.t :=
  [ Question.mk "What does IPO stand for?"
      ["Initial Public Offering"; "International Price Order";
       "Investment Portfolio Option"]
      "Initial Public Offering";
    Question.mk "Which is a cryptocurrency?"
      ["AAPL"; "BTC"; "TSLA"] "BTC";
    Question.mk "What is a stock symbol?"
      ["A unique code for a company"; "A type of bond"; "A trading strategy"]
      "A unique code for a company";
    Question.mk "Which market is known for technology stocks?"
      ["NASDAQ"; "NYSE"; "BSE"] "NASDAQ";
    Question.mk "What does 'bull market' mean?"
      ["Rising prices"; "Falling prices"; "Stable prices"] "Rising prices";
    Question.mk "Which company is NOT a tech company?"
      ["Apple"; "Tesla"; "Coca-Cola"] "Coca-Cola";
    Question.mk "What is diversification?"
      ["Investing in one stock"; "Spreading investments";
       "Selling all assets"]
      "Spreading investments";
    Question.mk "Which is a type of order in trading?"
      ["Limit order"; "Stop order"; "Both of the above"]
      "Both of the above" ].

Module QuizView.
Record t : Type := mk {
  questions : list Question.t;
  score : option Z
}.
End QuizView.

(** The scoring of a POST, for any list of questions. *)
Definition quiz_score (questions : list Question.t) (form : Dict.dict string)
  : App Z :=
  let user_answers :=
    map (fun i => Dict.get ("q" ++ Py.str_of_nat i) form)
      (seq 0 (List.length questions)) in
  marks <- comprehension
             (fun i =>
                a <- index_list user_answers i ;;
                q <- index_list questions i ;;
                areturn (match a with
                         | Some t => String.eqb t (Question.answer q)
                         | None => false
                         end))
             (seq 0 (List.length questions)) ;;
  areturn (sum_bools marks).

Definition quiz (req : request) : App (response QuizView.t) :=
  if String.eqb (method req) "POST" then
    score <- quiz_score questions (form req) ;;
    areturn (render_template "quiz.html" (QuizView.mk questions (Some score)))
  else
    areturn (render_template "quiz.html" (QuizView.mk questions None)).

(** ** [register], [login], [logout] *)

Definition set_user_id (id : Z) : App unit :=
  s <- get_session ;;
  put_session (Session.mk (Some id) (Session.live s)
                 (Session.fake_balance s) (Session.fake_holdings s)
                 (Session.flashes s)).

(** [lower] is [str.lower]; [generate_password_hash] is the function of
    werkzeug with the salt it draws for this request. *)
Definition register (lower : string -> string)
    (generate_password_hash : string -> string) (req : request)
  : App (response unit) :=
  if String.eqb (method req) "POST" then
    let name := Dict.get_default "name" "" (form req) in
    let email := lower (Dict.get_default "email" "" (form req)) in
    let pw := Dict.get_default "password" "" (form req) in
    d <- get_db ;;
    match DB.user_by_email email d with
    | Some _ =>
        flash "Email already registered" "warning" ;;
        areturn (redirect "register")
    | None =>
        let '(u, d') :=
          DB.add_user name email (generate_password_hash pw)
            (decimal 1000000 1) d in
        put_db d' ;;
        set_user_id (User.id u) ;;
        flash "Account created — ₹100,000 credited" "success" ;;
        areturn (redirect "portfolio")
    end
  else
    areturn (render_template "register.html" tt).

(** [check_password_hash] is the function of werkzeug. *)
Definition login (lower : string -> string)
    (check_password_hash : string -> string -> bool) (req : request)
  : App (response unit) :=
  if String.eqb (method req) "POST" then
    let email := lower (Dict.get_default "email" "" (form req)) in
    let pw := Dict.get_default "password" "" (form req) in
    d <- get_db ;;
    match DB.user_by_email email d with
    | Some u =>
        if check_password_hash (User.password_hash u) pw then
          set_user_id (User.id u) ;;
          flash ("Welcome back, " ++ User.name u)%string "success" ;;
          areturn (redirect "portfolio")
        else
          flash "Invalid credentials" "danger" ;;
          areturn (redirect "login")
    | None =>
        flash "Invalid credentials" "danger" ;;
        areturn (redirect "login")
    end
  else
    areturn (render_template "login.html" tt).

Definition logout : App (response unit) :=
  put_session Session.empty ;;
  flash "Logged out" "info" ;;
  areturn (redirect "index").

(** ** [portfolio] *)

Module Row.
Record t : Type := mk {
  symbol : string;
  shares : Float64.float;
  avg : Float64.float;
  price : Float64.float;
  value : Float64.float
}.
End Row.

Module PortfolioView.
Record t : Type := mk {
  user : User.t;
  holdings : list Row.t;
  net : Float64.float;
  live : bool
}.
End PortfolioView.

(** The loop over [u.holdings]: the rows and [total_hold] so far. *)
Fixpoint portfolio_loop (hs : list Holding.t) (holdings : list Row.t)
    (total_hold : Py.num) : App (list Row.t * Py.num) :=
  match hs with
  | [] => areturn (holdings, total_hold)
  | h :: rest =>
      price <- on_market (get_price (Holding.symbol h)) ;;
      let val := Float64.mul price (Holding.shares h) in
      total_hold' <- orelse (Py.add total_hold (Py.Flt val)) OverflowError ;;
      portfolio_loop rest
        (holdings
         ++ [Row.mk (Holding.symbol h) (Holding.shares h)
               (Holding.avg_price h)
               (Float64.round price
                  (if Py.mem (Holding.symbol h) ["DOGE"] then 6 else 2))
               (Float64.round val 2)])
        total_hold'
  end.

Definition portfolio : App (response PortfolioView.t) :=
  s <- get_session ;;
  match Session.user_id s with
  | None =>
      flash "Login to view portfolio" "info" ;;
      areturn (redirect "login")
  | Some uid =>
      d <- get_db ;;
      u <- orelse (DB.get_user uid d) AttributeError ;;
      rt <- portfolio_loop (DB.holdings_of (User.id u) d) [] (Py.Int 0) ;;
      sum <- orelse (Py.add (Py.Flt (User.balance u)) (snd rt))
               OverflowError ;;
      net <- orelse (Py.to_float sum) OverflowError ;;
      s' <- get_session ;;
      areturn (render_template "portfolio.html"
                 (PortfolioView.mk u (fst rt) (Float64.round net 2)
                    (session_live s')))
  end.

(** ** [game] and [crypto_game] *)

Module GameView.
Record t : Type := mk {
  result : option string;
  symbol : string;
  guess : option string
}.
End GameView.

(** The message of a round, [verdict] being ["Correct"] or ["Incorrect"]. *)
Definition round_message (verdict symbol : string)
    (new_price : Float64.float) : string :=
  verdict ++ "! " ++ symbol ++ " moved to ₹" ++ Py.format_2f new_price ++ ".".

(** [r] is the oracle of the [random.choice] in [simulate_movement]. *)
Definition game (r : nat) (req : request) : App (response GameView.t) :=
  if String.eqb (method req) "POST" then
    let symbol := Dict.get_default "symbol" "AAPL" (form req) in
    let guess := Dict.get_default "guess" "up" (form req) in
    snapshot <- on_market (get_snapshot [symbol]) ;;
    entry <- on_market (lift (getitem symbol snapshot)) ;;
    price <- on_market (lift (getitem "price" entry)) ;;
    pm <- on_market (simulate_movement r symbol) ;;
    let new_price := fst pm in
    let movement := snd pm in
    let result :=
      if (Py.lt (Py.Int 0) (Py.Flt movement) && String.eqb guess "up")
         || (Py.lt (Py.Flt movement) (Py.Int 0) && String.eqb guess "down")
      then round_message "Correct" symbol new_price
      else round_message "Incorrect" symbol new_price in
    areturn (render_template "game.html"
               (GameView.mk (Some result) symbol (Some guess)))
  else
    areturn (render_template "game.html" (GameView.mk None "AAPL" None)).

Module CryptoGameView.
Record t : Type := mk {
  result : option string;
  symbol : string;
  guess : option string;
  cryptos : list string
}.
End CryptoGameView.

Definition crypto_game (r : nat) (req : request)
  : App (response CryptoGameView.t) :=
  let cryptos := ["BTC"; "ETH"; "DOGE"] in
  if String.eqb (method req) "POST" then
    let symbol := Dict.get_default "symbol" "BTC" (form req) in
    let guess := Dict.get_default "guess" "up" (form req) in
    snapshot <- on_market (get_snapshot [symbol]) ;;
    entry <- on_market (lift (getitem symbol snapshot)) ;;
    price <- on_market (lift (getitem "price" entry)) ;;
    pm <- on_market (simulate_movement r symbol) ;;
    let new_price := fst pm in
    let movement := snd pm in
    let result :=
      if (Py.lt (Py.Int 0) (Py.Flt movement) && String.eqb guess "up")
         || (Py.lt (Py.Flt movement) (Py.Int 0) && String.eqb guess "down")
      then round_message "Correct" symbol new_price
      else round_message "Incorrect" symbol new_price in
    areturn (render_template "crypto_game.html"
               (CryptoGameView.mk (Some result) symbol (Some guess) cryptos))
  else
    areturn (render_template "crypto_game.html"
               (CryptoGameView.mk None "BTC" None cryptos)).

(** ** [daily] *)

Module DailyView.
Record t : Type := mk {
  start : Z;
  target : Py.num;
  duration : Z;
  done : bool;
  record : option DailyRecord.t
}.
End DailyView.

(** [round(x, ndigits)] on a number: an int is its own rounding. *)
Definition py_round (x : Py.num) (ndigits : nat) : Py.num :=
  match x with
  | Py.Int z => Py.Int z
  | Py.Flt f => Py.Flt (Float64.round f ndigits)
  end.

(** [today] is [date.today().toordinal()]; dates are kept as ordinals. *)
Definition daily (today : Z) : App (response DailyView.t) :=
  let seed := (today mod 10 + 5)%Z in
  let start := 5000%Z in
  fseed <- orelse (Py.float_of_int seed) OverflowError ;;
  ratio <- orelse (Py.truediv fseed (decimal 1000 1)) ZeroDivisionError ;;
  factor <- orelse (Py.add (Py.Int 1) (Py.Flt ratio)) OverflowError ;;
  product <- orelse (Py.mul (Py.Int start) factor) OverflowError ;;
  let target := py_round product 2 in
  s <- get_session ;;
  d <- get_db ;;
  let record :=
    match Session.user_id s with
    | Some uid => DB.record_of uid today d
    | None => None
    end in
  let done := match record with Some _ => true | None => false end in
  areturn (render_template "daily.html"
             (DailyView.mk start target 120 done record)).

(** ** [trade_game] *)

Module TradeGameView.
Record t : Type := mk {
  stocks : list string;
  prices : Dict.dict (Dict.dict Float64.float);
  holdings : Dict.dict Z;
  balance : Py.num;
  message : option string
}.
End TradeGameView.

Definition set_fake (balance : option Py.num)
    (holdings : option (Dict.dict Z)) : App unit :=
  s <- get_session ;;
  put_session (Session.mk (Session.user_id s) (Session.live s)
                 balance holdings (Session.flashes s)).

(** [int_of_str] is [int] on a string, [None] standing for [ValueError]. *)
Definition trade_game (int_of_str : string -> option Z) (req : request)
  : App (response TradeGameView.t) :=
  s0 <- get_session ;;
  (match Session.fake_balance s0 with
   | None => set_fake (Some (Py.Int 100000)) (Some [])
   | Some _ => areturn tt
   end) ;;
  let stocks := ["AAPL"; "TSLA"; "INFY"; "TCS"; "BTC"; "ETH"; "DOGE"] in
  prices <- on_market (get_snapshot stocks) ;;
  message <-
    (if String.eqb (method req) "POST" then
       let symbol := Dict.get "symbol" (form req) in
       let action := Dict.get "action" (form req) in
       amount <- match Dict.get "amount" (form req) with
                 | Some a => orelse (int_of_str a) ValueError
                 | None => areturn 0%Z
                 end ;;
       sym <- orelse symbol KeyErrorNone ;;
       entry <- on_market (lift (getitem sym prices)) ;;
       price <- on_market (lift (getitem "price" entry)) ;;
       s <- get_session ;;
       holdings <- orelse (Session.fake_holdings s)
                     (Builtin (KeyError "fake_holdings")) ;;
       balance <- orelse (Session.fake_balance s)
                    (Builtin (KeyError "fake_balance")) ;;
       buy <- (if Py.opt_eqb action "buy" && (0 <? amount)%Z then
                 cost <- orelse (Py.mul (Py.Flt price) (Py.Int amount))
                           OverflowError ;;
                 areturn (Py.le cost balance)
               else areturn false) ;;
       if buy then
         let holdings' :=
           Dict.set sym (Dict.get_default sym 0%Z holdings + amount)%Z
             holdings in
         cost <- orelse (Py.mul (Py.Flt price) (Py.Int amount))
                   OverflowError ;;
         balance' <- orelse (Py.sub balance cost) OverflowError ;;
         set_fake (Some balance') (Some holdings') ;;
         areturn (Some ("Bought " ++ Py.str_of_int amount ++ " shares of "
                        ++ sym ++ "!")%string)
       else if Py.opt_eqb action "sell" && (0 <? amount)%Z
               && (amount <=? Dict.get_default sym 0%Z holdings)%Z then
         n <- on_market (lift (getitem sym holdings)) ;;
         let holdings' := Dict.set sym (n - amount)%Z holdings in
         proceeds <- orelse (Py.mul (Py.Flt price) (Py.Int amount))
                       OverflowError ;;
         balance' <- orelse (Py.add balance proceeds) OverflowError ;;
         set_fake (Some balance') (Some holdings') ;;
         areturn (Some ("Sold " ++ Py.str_of_int amount ++ " shares of "
                        ++ sym ++ "!")%string)
       else
         set_fake (Some balance) (Some holdings) ;;
         areturn (Some "Invalid transaction.")
     else areturn None) ;;
  s <- get_session ;;
  let holdings :=
    match Session.fake_holdings s with Some h => h | None => [] end in
  let balance :=
    match Session.fake_balance s with
    | Some b => b
    | None => Py.Int 100000
    end in
  areturn (render_template "trade_game.html"
             (TradeGameView.mk stocks prices holdings balance message)).

(** ** [trade_page] *)

Module TradeView.
Record t : Type := mk {
  snapshot : Dict.dict (Dict.dict Float64.float);
  live : bool
}.
End TradeView.

(** The branch [action == 'buy' and amount > 0]: [u] is the row of the
    session's user, [a] the amount as the float arithmetic sees it. *)
Definition trade_buy (repr_float : Float64.float -> string)
    (u : option User.t) (symbol : string) (amount : Py.num)
    (a price : Float64.float) : App unit :=
  let cost := Float64.mul price a in
  u <- orelse u AttributeError ;;
  if Py.le (Py.Flt cost) (Py.Flt (User.balance u)) then
    let u' := User.mk (User.id u) (User.name u) (User.email u)
                (User.password_hash u)
                (Float64.sub (User.balance u) cost) in
    d <- get_db ;;
    let d1 := DB.update_user u' d in
    d2 <- match DB.holding_of (User.id u) symbol d1 with
          | Some holding =>
              let total_shares := Float64.add (Holding.shares holding) a in
              avg <- orelse
                       (Py.truediv
                          (Float64.add
                             (Float64.mul (Holding.avg_price holding)
                                (Holding.shares holding))
                             (Float64.mul price a))
                          total_shares)
                       ZeroDivisionError ;;
              areturn
                (DB.update_holding
                   (Holding.mk (Holding.id holding) (Holding.symbol holding)
                      total_shares avg (Holding.user_id holding))
                   d1)
          | None => areturn (DB.add_holding symbol a price (User.id u) d1)
          end ;;
    put_db d2 ;;
    match amount with
    | Py.Flt f =>
        flash ("Bought " ++ repr_float f ++ " shares of " ++ symbol
               ++ " at ₹" ++ Py.format_2f price)%string "success"
    | Py.Int z =>
        flash ("Bought " ++ Py.str_of_int z ++ " shares of " ++ symbol
               ++ " at ₹" ++ Py.format_2f price)%string "success"
    end
  else
    flash "Insufficient balance" "danger".

(** The branch [action == 'sell' and amount > 0]. *)
Definition trade_sell (repr_float : Float64.float -> string)
    (u : option User.t) (symbol : string) (amount : Py.num)
    (a price : Float64.float) : App unit :=
  u <- orelse u AttributeError ;;
  d <- get_db ;;
  match DB.holding_of (User.id u) symbol d with
  | Some holding =>
      if Py.le amount (Py.Flt (Holding.shares holding)) then
        let proceeds := Float64.mul price a in
        let u' := User.mk (User.id u) (User.name u) (User.email u)
                    (User.password_hash u)
                    (Float64.add (User.balance u) proceeds) in
        let holding' :=
          Holding.mk (Holding.id holding) (Holding.symbol holding)
            (Float64.sub (Holding.shares holding) a)
            (Holding.avg_price holding) (Holding.user_id holding) in
        let d1 := DB.update_holding holding' (DB.update_user u' d) in
        let d2 :=
          if Py.eq (Py.Flt (Holding.shares holding')) (Py.Int 0)
          then DB.delete_holding holding' d1
          else d1 in
        put_db d2 ;;
        match amount with
        | Py.Flt f =>
            flash ("Sold " ++ repr_float f ++ " shares of " ++ symbol
                   ++ " at ₹" ++ Py.format_2f price)%string "success"
        | Py.Int z =>
            flash ("Sold " ++ Py.str_of_int z ++ " shares of " ++ symbol
                   ++ " at ₹" ++ Py.format_2f price)%string "success"
        end
      else
        flash "Not enough shares to sell" "danger"
  | None => flash "Not enough shares to sell" "danger"
  end.

(** [float_of_str] is [float] on a string, [None] standing for
    [ValueError]; [repr_float] is [str] on a float; [r] is the oracle of
    the [random.choice] in [simulate_movement].  The price table of
    [market] has strings for keys: a POST without the field [asset], on
    which the code trades the symbol [None], is not modelled
    ([Unmodelled]). *)
Definition trade_page (float_of_str : string -> option Float64.float)
    (repr_float : Float64.float -> string) (r : nat) (req : request)
  : App (response TradeView.t) :=
  s <- get_session ;;
  match Session.user_id s with
  | None =>
      flash "Login to trade" "info" ;;
      areturn (redirect "login")
  | Some uid =>
      snapshot <- on_market (get_snapshot listed_symbols) ;;
      d <- get_db ;;
      let u := DB.get_user uid d in
      if String.eqb (method req) "POST" then
        symbol <- orelse (Dict.get "asset" (form req)) Unmodelled ;;
        let action := Dict.get "action" (form req) in
        let amount :=
          match Dict.get "quantity" (form req) with
          | Some q =>
              match float_of_str q with
              | Some f => Py.Flt f
              | None => Py.Int 0
              end
          | None => Py.Flt (S754_zero false)
          end in
        price <- on_market (get_price symbol) ;;
        (if Py.opt_eqb action "buy" && Py.lt (Py.Int 0) amount then
           a <- orelse (Py.to_float amount) OverflowError ;;
           trade_buy repr_float u symbol amount a price
         else if Py.opt_eqb action "sell" && Py.lt (Py.Int 0) amount then
           a <- orelse (Py.to_float amount) OverflowError ;;
           trade_sell repr_float u symbol amount a price
         else
           flash "Invalid trade" "danger") ;;
        on_market (simulate_movement r symbol) ;;
        areturn (redirect "portfolio")
      else
        s' <- get_session ;;
        areturn (render_template "trade.html"
                   (TradeView.mk snapshot (session_live s')))
  end.

(** ** The demo data and the routes *)

(** [f"{i:03d}"] for a natural number. *)
Definition format_03d (i : nat) : string :=
  let s := Py.str_of_nat i in
  Nat.iter (3 - String.length s) (String.append "0") s.

(** [round(50000 + x * 200000, 2)], [x] being a value of
    [random.random()]. *)
Definition demo_balance (x : Float64.float) : Float64.float :=
  Float64.round
    (Float64.add (Float64.of_Z 50000)
       (Float64.mul x (Float64.of_Z 200000))) 2.

(** The code that runs when the module is loaded, on the database that it
    finds: [generate_password_hash i] is the hash that the [i]-th call of
    [set_password("demo")] makes and [random i] the [i]-th value of
    [random.random()]. *)
Definition demo_data (generate_password_hash : nat -> string)
    (random : nat -> Float64.float) (d : DB.t) : DB.t :=
  if Nat.eqb (List.length (DB.users d)) 0 then
    fold_left
      (fun d i =>
         snd (DB.add_user ("Demo" ++ format_03d i)
                ("demo" ++ format_03d i ++ "@example.com")
                (generate_password_hash i) (demo_balance (random i)) d))
      (seq 1 100) d
  else d.





Local Close Scope app_scope.

(* ================================================================== *)
(** ** Notions for the further properties *)

(** A finite price of moderate size: at most [10^100]. *)
Definition moderate (p : Float64.float) : Prop :=
  Float64.is_finite p = true
  /\ (Qabs (Float64.to_Q p) <= inject_Z (10 ^ 100))%Q.

(** [stored] is [p] moved by the fraction [step], up to a relative rounding
    error of [10^-15]. *)
Definition moved_by (step : Q) (p stored : Float64.float) : Prop :=
  (Qabs (Float64.to_Q stored - (1 + step) * Float64.to_Q p)
   <= (1 # 1000000000000000) * Qabs (Float64.to_Q p)
      + (1 # 1000000000000000000000000000000))%Q.

(** [shown] is within half a cent of [stored], up to a relative rounding
    error of [10^-15]. *)
Definition within_half_a_cent (stored shown : Float64.float) : Prop :=
  (Qabs (Float64.to_Q shown - Float64.to_Q stored)
   <= (5 # 1000)
      + (1 # 1000000000000000) * (Qabs (Float64.to_Q stored) + 1))%Q.

(** The practice holdings of a session; [{}] before the first visit. *)
Definition practice_holdings (s : Session.t) : Dict.dict Z :=
  match Session.fake_holdings s with
  | Some h => h
  | None => []
  end.

(** No count of a holdings dict is negative. *)
Definition holdings_nonneg (h : Dict.dict Z) : Prop :=
  Forall (fun kv => (0 <= snd kv)%Z) h.

(** The keys of the database are unique: the primary keys of users and of
    holdings, and the e-mail addresses. *)
Definition db_wf (d : DB.t) : Prop :=
  NoDup (map User.id (DB.users d))
  /\ NoDup (map User.email (DB.users d))
  /\ NoDup (map Holding.id (DB.holdings d)).



(** [d'] differs from [d] at most in the rows of the user [uid]: the
    balance of that user and the holdings of that user.  Nobody is added or
    removed, no name, e-mail or password hash changes, the keys stay
    unique, and the rows of every other user are as they were. *)
Definition only_touches (uid : Z) (d d' : DB.t) : Prop :=
  db_wf d'
  /\ DB.daily_records d' = DB.daily_records d
  /\ map User.id (DB.users d') = map User.id (DB.users d)
  /\ map User.name (DB.users d') = map User.name (DB.users d)
  /\ map User.email (DB.users d') = map User.email (DB.users d)
  /\ map User.password_hash (DB.users d')
     = map User.password_hash (DB.users d)
  /\ (forall id, id <> uid -> DB.get_user id d' = DB.get_user id d)
  /\ (forall id, id <> uid -> DB.holdings_of id d' = DB.holdings_of id d).

Arguments Float64.add : simpl never.
Arguments Float64.sub : simpl never.
Arguments Float64.mul : simpl never.
Arguments Float64.neg : simpl never.
Arguments Float64.round : simpl never.
Arguments Float64.of_Z : simpl never.
Arguments Float64.of_ratio : simpl never.
Arguments decimal : simpl never.
Arguments shock : simpl never.
Arguments fallback : simpl never.

(* ================================================================== *)
(** * Facts about binary64 rounding *)
(* ================================================================== *)

Module Float64Facts.
Import Float64.

(** ** Powers of two *)

Lemma pow2_pos e : (0 < pow2 e)%Q.
Proof. apply Qpower_0_lt. reflexivity. Qed.

Lemma pow2_add a b : (pow2 (a + b) == pow2 a * pow2 b)%Q.
Proof. apply Qpower_plus. discriminate. Qed.

Lemma pow2_le a b : (a <= b)%Z -> (pow2 a <= pow2 b)%Q.
Proof. intros H. apply Qpower_le_compat_l; [exact H | discriminate]. Qed.

Lemma pow2_Z n : (0 <= n)%Z -> (pow2 n == inject_Z (2 ^ n))%Q.
Proof. intros H. unfold pow2. now rewrite Zpower_Qpower. Qed.

Lemma pow2_succ a : (pow2 (a + 1) == 2 * pow2 a)%Q.
Proof. rewrite pow2_add. unfold pow2 at 2. simpl. ring. Qed.

Lemma pow2_pred a : (pow2 (a - 1) == (1 # 2) * pow2 a)%Q.
Proof.
  replace a with ((a - 1) + 1)%Z at 2 by lia. rewrite pow2_succ. field.
Qed.

Lemma inject_Z_xO p : (inject_Z (Z.pos p~0) == 2 * inject_Z (Z.pos p))%Q.
Proof. rewrite Pos2Z.inj_xO, inject_Z_mult. reflexivity. Qed.

Lemma inject_Z_xI p : (inject_Z (Z.pos p~1) == 2 * inject_Z (Z.pos p) + 1)%Q.
Proof. rewrite Pos2Z.inj_xI, inject_Z_plus, inject_Z_mult. reflexivity. Qed.

(** ** Shifting the mantissa right keeps track of the position *)

Lemma located_compat mrs v v' :
  (v == v')%Q -> located mrs v -> located mrs v'.
Proof.
  unfold located, inbetween. intros E.
  destruct (loc_of_shr_record mrs) as [|[| |]]; rewrite E; trivial.
Qed.

(** One shift halves the value and the mantissa. *)
Lemma shr_1_located mrs v :
  (0 <= shr_m mrs)%Z ->
  located mrs v ->
  located (shr_1 mrs) (v * (1 # 2))
  /\ shr_m (shr_1 mrs) = (shr_m mrs / 2)%Z.
Proof.
  destruct mrs as [m r s]. unfold located. cbn [shr_m].
  intros Hm H. destruct m as [|p|p]; [| |lia].
  - destruct r, s; simpl in *; change (inject_Z 0) with 0%Q in *;
      (split; [|reflexivity]); lra.
  - destruct p as [p|p|].
    + split.
      * destruct r, s; simpl in H |- *; rewrite inject_Z_xI in H; lra.
      * simpl. rewrite Pos2Z.inj_xI.
        apply (Z.div_unique _ _ _ 1); lia.
    + split.
      * destruct r, s; simpl in H |- *; rewrite inject_Z_xO in H; lra.
      * simpl. rewrite Pos2Z.inj_xO.
        apply (Z.div_unique _ _ _ 0); lia.
    + split.
      * destruct r, s; simpl in H |- *; change (inject_Z 0) with 0%Q;
          change (inject_Z 1) with 1%Q in H; lra.
      * reflexivity.
Qed.

(** [p] shifts divide them by [2^p]. *)
Lemma iter_shr_1_located p :
  forall mrs v,
    (0 <= shr_m mrs)%Z ->
    located mrs v ->
    located (iter_pos shr_1 p mrs) (v * pow2 (- Z.pos p))
    /\ shr_m (iter_pos shr_1 p mrs) = (shr_m mrs / 2 ^ Z.pos p)%Z.
Proof.
  assert (Half : forall v, (v * (1 # 2) == v * pow2 (-1))%Q).
  { intros v. unfold pow2. simpl. reflexivity. }
  assert (Nonneg : forall m k, (0 <= m -> 0 <= m / 2 ^ Z.pos k)%Z).
  { intros. apply Z.div_pos; lia. }
  induction p as [p IH|p IH|]; intros mrs v Hm H; cbn [iter_pos].
  - destruct (shr_1_located mrs v Hm H) as [L1 M1].
    assert (N1 : (0 <= shr_m (shr_1 mrs))%Z) by (rewrite M1; apply Z.div_pos; lia).
    destruct (IH _ _ N1 L1) as [L2 M2].
    assert (N2 : (0 <= shr_m (iter_pos shr_1 p (shr_1 mrs)))%Z)
      by (rewrite M2; now apply Nonneg).
    destruct (IH _ _ N2 L2) as [L3 M3].
    split.
    + assert (E : (v * pow2 (- Z.pos p~1) == v * (1 # 2) * pow2 (- Z.pos p) * pow2 (- Z.pos p))%Q).
      { rewrite Half. rewrite <- !Qmult_assoc, <- !pow2_add.
        replace (- Z.pos p~1)%Z with (-1 + (- Z.pos p + - Z.pos p))%Z by lia.
        reflexivity. }
      apply (located_compat _ _ _ (Qeq_sym _ _ E)). exact L3.
    + rewrite M3, M2, M1. rewrite !Z.div_div by lia.
      f_equal. replace (Z.pos p~1) with (1 + Z.pos p + Z.pos p)%Z by lia.
      rewrite !Z.pow_add_r by lia. rewrite Z.pow_1_r. ring.
  - destruct (IH _ _ Hm H) as [L2 M2].
    assert (N2 : (0 <= shr_m (iter_pos shr_1 p mrs))%Z)
      by (rewrite M2; now apply Nonneg).
    destruct (IH _ _ N2 L2) as [L3 M3].
    split.
    + assert (E : (v * pow2 (- Z.pos p~0) == v * pow2 (- Z.pos p) * pow2 (- Z.pos p))%Q).
      { rewrite <- !Qmult_assoc, <- !pow2_add.
        replace (- Z.pos p~0)%Z with ((- Z.pos p + - Z.pos p))%Z by lia.
        reflexivity. }
      apply (located_compat _ _ _ (Qeq_sym _ _ E)). exact L3.
    + rewrite M3, M2. rewrite !Z.div_div by lia.
      f_equal. replace (Z.pos p~0) with (Z.pos p + Z.pos p)%Z by lia.
      now rewrite Z.pow_add_r by lia.
  - destruct (shr_1_located mrs v Hm H) as [L1 M1].
    split.
    + apply (located_compat _ _ _ (Half v)). exact L1.
    + rewrite M1. reflexivity.
Qed.

Local Open Scope Z_scope.

(** ** The number of binary digits *)

Lemma pow2_step k : 0 < k -> 2 ^ k = 2 * 2 ^ (k - 1).
Proof.
  intros H. replace k with (Z.succ (k - 1)) at 1 by lia.
  apply Z.pow_succ_r. lia.
Qed.

(** [digits2_pos m] is the [d] with [2^(d-1) <= m < 2^d]. *)
Lemma digits2_pos_bounds m :
  2 ^ (Z.pos (digits2_pos m) - 1) <= Z.pos m < 2 ^ Z.pos (digits2_pos m).
Proof.
  induction m as [m IH|m IH|]; cbn [digits2_pos].
  - rewrite Pos2Z.inj_succ. change (Z.pos m~1) with (2 * Z.pos m + 1).
    replace (Z.succ (Z.pos (digits2_pos m)) - 1) with (Z.pos (digits2_pos m)) by lia.
    rewrite (pow2_step (Z.succ _)) by lia.
    replace (Z.succ (Z.pos (digits2_pos m)) - 1) with (Z.pos (digits2_pos m)) by lia.
    rewrite (pow2_step (Z.pos (digits2_pos m))) in * by lia.
    set (a := 2 ^ _) in *. clearbody a. lia.
  - rewrite Pos2Z.inj_succ. change (Z.pos m~0) with (2 * Z.pos m).
    replace (Z.succ (Z.pos (digits2_pos m)) - 1) with (Z.pos (digits2_pos m)) by lia.
    rewrite (pow2_step (Z.succ _)) by lia.
    replace (Z.succ (Z.pos (digits2_pos m)) - 1) with (Z.pos (digits2_pos m)) by lia.
    rewrite (pow2_step (Z.pos (digits2_pos m))) in * by lia.
    set (a := 2 ^ _) in *. clearbody a. lia.
  - simpl. lia.
Qed.

Lemma Zdigits2_nonneg m : 0 <= Zdigits2 m.
Proof. destruct m; simpl; lia. Qed.

Lemma Zdigits2_bounds m :
  0 < m -> 2 ^ (Zdigits2 m - 1) <= m < 2 ^ Zdigits2 m.
Proof.
  destruct m as [|p|p]; try lia. intros _. apply digits2_pos_bounds.
Qed.

Lemma Zdigits2_pos m : 0 < m -> 0 < Zdigits2 m.
Proof. destruct m; simpl; lia. Qed.

Lemma Zdigits2_ge m k : 0 < m -> 2 ^ (k - 1) <= m -> k <= Zdigits2 m.
Proof.
  intros Hm H. destruct (Zdigits2_bounds m Hm) as [_ U].
  destruct (Z_lt_le_dec (Zdigits2 m) k) as [L|]; trivial.
  assert (2 ^ Zdigits2 m <= 2 ^ (k - 1)).
  { apply Z.pow_le_mono_r; [lia|]. lia. }
  lia.
Qed.

Lemma Zdigits2_le m k : 0 <= m -> 0 <= k -> m < 2 ^ k -> Zdigits2 m <= k.
Proof.
  intros Hm Hk H. destruct (Z.eq_dec m 0) as [->|Hne]; [simpl; lia|].
  assert (Hpos : 0 < m) by lia.
  destruct (Zdigits2_bounds m Hpos) as [L _].
  destruct (Z_lt_le_dec k (Zdigits2 m)) as [G|]; [|lia].
  assert (2 ^ k <= 2 ^ (Zdigits2 m - 1)).
  { apply Z.pow_le_mono_r; lia. }
  lia.
Qed.

Lemma Zdigits2_unique m k :
  0 < m -> 2 ^ (k - 1) <= m < 2 ^ k -> Zdigits2 m = k.
Proof.
  intros Hm [L U].
  assert (0 <= k).
  { destruct (Z_lt_le_dec k 0) as [N|]; trivial.
    rewrite (Z.pow_neg_r 2 k) in U by lia. lia. }
  apply Z.le_antisymm.
  - apply Zdigits2_le; lia.
  - apply Zdigits2_ge; lia.
Qed.

(** A shift by [n] removes [n] digits, as long as some are left. *)
Lemma Zdigits2_div_pow2 m n :
  0 < n -> 0 < m / 2 ^ n -> Zdigits2 (m / 2 ^ n) = Zdigits2 m - n.
Proof.
  intros Hn Hq.
  assert (Hm : 0 < m).
  { destruct (Z_lt_le_dec 0 m); trivial.
    assert (m / 2 ^ n <= 0) by (apply Z.div_le_upper_bound; lia). lia. }
  destruct (Zdigits2_bounds m Hm) as [L U].
  set (d := Zdigits2 m) in *.
  assert (P : 0 < 2 ^ n) by (apply Z.pow_pos_nonneg; lia).
  assert (Hdn : n < d).
  { destruct (Z_lt_le_dec n d); trivial.
    assert (2 ^ d <= 2 ^ n) by (apply Z.pow_le_mono_r; lia).
    rewrite Z.div_small in Hq by lia. lia. }
  apply Zdigits2_unique; trivial. split.
  - apply Z.div_le_lower_bound; trivial.
    rewrite <- Z.pow_add_r by lia.
    replace (n + (d - n - 1)) with (d - 1) by lia. exact L.
  - apply Z.div_lt_upper_bound; trivial.
    rewrite <- Z.pow_add_r by lia.
    replace (n + (d - n)) with d by lia. exact U.
Qed.

(** The exponent function of binary64. *)
Lemma fexp_eq e : fexp Float64.prec Float64.emax e = Z.max (e - 53) (-1074).
Proof. reflexivity. Qed.

(** Rounding the mantissa to nearest, ties to even. *)
Lemma round_nearest_even_spec m l v :
  inbetween m l v ->
  let m' := round_nearest_even m l in
  (m <= m' <= m + 1)
  /\ (Qabs (inject_Z m' - v) <= 1 # 2)%Q
  /\ (l = loc_Exact -> m' = m).
Proof.
  intros H. cbv zeta.
  assert (I : (inject_Z (m + 1) == inject_Z m + 1)%Q)
    by (rewrite inject_Z_plus; reflexivity).
  destruct l as [|[| |]]; cbn [inbetween round_nearest_even] in *.
  - split; [lia|]. split; trivial. apply Qabs_Qle_condition. lra.
  - destruct (Z.even m); (split; [lia|]); (split; [|discriminate]);
      apply Qabs_Qle_condition; rewrite ?I; lra.
  - split; [lia|]. split; [|discriminate]. apply Qabs_Qle_condition. lra.
  - split; [lia|]. split; [|discriminate]. apply Qabs_Qle_condition.
    rewrite I. lra.
Qed.

Lemma inbetween_nonneg m l v : 0 <= m -> inbetween m l v -> (inject_Z m <= v)%Q.
Proof.
  intros Hm H. destruct l as [|[| |]]; cbn [inbetween] in H; lra.
Qed.

Lemma loc_of_record_of_loc m l :
  loc_of_shr_record (shr_record_of_loc m l) = l
  /\ shr_m (shr_record_of_loc m l) = m.
Proof. destruct l as [|[| |]]; split; reflexivity. Qed.

(** [shr_fexp] shifts by [fexp (digits + e) - e] places when that is
    positive, and not at all otherwise. *)
Lemma shr_fexp_spec m e l v :
  0 <= m ->
  inbetween m l v ->
  let n := fexp Float64.prec Float64.emax (Zdigits2 m + e) - e in
  let '(mrs, e') := shr_fexp Float64.prec Float64.emax m e l in
  (n <= 0 -> shr_m mrs = m /\ loc_of_shr_record mrs = l /\ e' = e)
  /\ (0 < n ->
      located mrs (v * pow2 (- n)) /\ shr_m mrs = m / 2 ^ n /\ e' = e + n).
Proof.
  intros Hm H n. unfold shr_fexp. fold n.
  destruct (loc_of_record_of_loc m l) as [L M].
  destruct n as [|p|p] eqn:En; cbn [shr].
  - split; [intros _; auto | lia].
  - split; [lia|]. intros _.
    destruct (iter_shr_1_located p (shr_record_of_loc m l) v) as [A B].
    + now rewrite M.
    + unfold located. now rewrite L, M.
    + rewrite M in B. auto.
  - split; [intros _; auto | lia].
Qed.

Lemma inject_Z_nonneg m : 0 <= m -> (0 <= inject_Z m)%Q.
Proof. intros H. change 0%Q with (inject_Z 0). now rewrite <- Zle_Qle. Qed.

Lemma inject_Z_pow2 k : 0 <= k -> (inject_Z (2 ^ k) == pow2 k)%Q.
Proof. intros H. symmetry. now apply pow2_Z. Qed.

(** Half a unit in the last place, at the exponent that [fexp] chooses for a
    value above [mx * 2^ex], is at most the relative error [2^-53] of that
    value, or the absolute error [2^-1075] of the subnormal range. *)
Lemma half_ulp_bound mx ex v :
  0 <= mx ->
  (inject_Z mx <= v)%Q ->
  ex <= fexp Float64.prec Float64.emax (Zdigits2 mx + ex) ->
  (pow2 (fexp Float64.prec Float64.emax (Zdigits2 mx + ex) - 1)
   <= pow2 (-53) * (v * pow2 ex) + pow2 (-1075))%Q.
Proof.
  intros Hm Hv He. rewrite fexp_eq in *.
  assert (V0 : (0 <= v)%Q).
  { pose proof (inject_Z_nonneg mx Hm). lra. }
  pose proof (pow2_pos ex) as Pex. pose proof (pow2_pos (-53)) as P53.
  assert (T0 : (0 <= pow2 (-53) * (v * pow2 ex))%Q).
  { apply Qmult_le_0_compat; [lra|]. apply Qmult_le_0_compat; lra. }
  destruct (Z.max_spec (Zdigits2 mx + ex - 53) (-1074)) as [[_ E]|[G E]];
    rewrite E in *.
  - change (-1074 - 1) with (-1075). lra.
  - assert (Hpos : 0 < mx).
    { destruct (Z.eq_dec mx 0) as [->|]; [simpl in He; lia | lia]. }
    destruct (Zdigits2_bounds mx Hpos) as [L _].
    pose proof (Zdigits2_pos mx Hpos) as D.
    assert (Lq : (pow2 (Zdigits2 mx - 1) <= v)%Q).
    { rewrite <- inject_Z_pow2 by lia.
      apply Qle_trans with (inject_Z mx); trivial. now rewrite <- Zle_Qle. }
    replace (Zdigits2 mx + ex - 53 - 1) with (-53 + ((Zdigits2 mx - 1) + ex)) by lia.
    rewrite !pow2_add.
    pose proof (pow2_pos (-1075)).
    assert ((pow2 (-53) * (pow2 (Zdigits2 mx - 1) * pow2 ex)
             <= pow2 (-53) * (v * pow2 ex))%Q).
    { apply Qmult_le_l; trivial. apply Qmult_le_compat_r; lra. }
    lra.
Qed.

(** The mantissa after rounding has one more digit only when it is a power
    of two. *)
Lemma digits_after_rounding m1 m2 :
  0 <= m1 -> m1 <= m2 <= m1 + 1 ->
  Zdigits2 m1 < Zdigits2 m2 ->
  m2 = 2 ^ Zdigits2 m1 /\ Zdigits2 m2 = Zdigits2 m1 + 1.
Proof.
  intros H1 H2 Hd.
  assert (E : m2 = m1 + 1).
  { destruct (Z.eq_dec m2 m1) as [->|]; lia. }
  subst m2. destruct (Z.eq_dec m1 0) as [->|Hne]; [split; reflexivity|].
  assert (Hpos : 0 < m1) by lia.
  destruct (Zdigits2_bounds m1 Hpos) as [L U].
  pose proof (Zdigits2_pos m1 Hpos) as D.
  destruct (Z.eq_dec (m1 + 1) (2 ^ Zdigits2 m1)) as [E|N].
  - split; trivial. apply Zdigits2_unique; [lia|].
    replace (Zdigits2 m1 + 1 - 1) with (Zdigits2 m1) by lia.
    rewrite (pow2_step (Zdigits2 m1 + 1)) by lia.
    replace (Zdigits2 m1 + 1 - 1) with (Zdigits2 m1) by lia. lia.
  - exfalso.
    assert (Zdigits2 (m1 + 1) <= Zdigits2 m1) by (apply Zdigits2_le; lia).
    lia.
Qed.

(** ** Rounding to nearest

    [binary_round_aux] on the value [v * 2^ex], placed by [mx] and [lx]:
    the mantissa and exponent it ends with are within the rounding error of
    that value.  The position has to be exact, or the mantissa long enough
    for the format, which is what the callers provide. *)
Lemma binary_round_aux_spec sx mx ex lx v :
  0 <= mx ->
  inbetween mx lx v ->
  lx = loc_Exact \/ ex <= fexp Float64.prec Float64.emax (Zdigits2 mx + ex) ->
  exists m3 e3,
    0 <= m3
    /\ binary_round_aux Float64.prec Float64.emax sx mx ex lx = rounded sx m3 e3
    /\ (Qabs (inject_Z m3 * pow2 e3 - v * pow2 ex)
        <= pow2 (-53) * (v * pow2 ex) + pow2 (-1075))%Q.
Proof.
  intros Hm H Hl.
  pose proof (inbetween_nonneg mx lx v Hm H) as Hv.
  assert (V0 : (0 <= v)%Q).
  { pose proof (inject_Z_nonneg mx Hm). lra. }
  pose proof (pow2_pos ex) as Pex. pose proof (pow2_pos (-53)) as P53.
  pose proof (pow2_pos (-1075)) as P1075.
  assert (T0 : (0 <= pow2 (-53) * (v * pow2 ex))%Q).
  { apply Qmult_le_0_compat; [lra|]. apply Qmult_le_0_compat; lra. }
  (* first shift *)
  assert (S1 : exists v1 m1 l1 e1,
             shr_fexp Float64.prec Float64.emax mx ex lx
             = (Build_shr_record m1 (shr_r (shr_record_of_loc m1 l1))
                  (shr_s (shr_record_of_loc m1 l1)), e1)
             /\ inbetween m1 l1 v1 /\ 0 <= m1
             /\ (v1 * pow2 e1 == v * pow2 ex)%Q
             /\ fexp Float64.prec Float64.emax (Zdigits2 m1 + e1) <= e1
             /\ (l1 = loc_Exact
                 \/ (pow2 (e1 - 1)
                     <= pow2 (-53) * (v * pow2 ex) + pow2 (-1075))%Q)).
  { pose proof (shr_fexp_spec mx ex lx v Hm H) as S. cbv zeta in S.
    destruct (shr_fexp Float64.prec Float64.emax mx ex lx) as [mrs1 e1].
    set (n := fexp Float64.prec Float64.emax (Zdigits2 mx + ex) - ex) in S.
    destruct S as [Sa Sb].
    assert (R : forall mrs, mrs = Build_shr_record (shr_m mrs)
                  (shr_r (shr_record_of_loc (shr_m mrs) (loc_of_shr_record mrs)))
                  (shr_s (shr_record_of_loc (shr_m mrs) (loc_of_shr_record mrs)))).
    { intros [m [|] [|]]; reflexivity. }
    destruct (Z_lt_le_dec 0 n) as [Hn|Hn].
    - destruct (Sb Hn) as (L & M & ->).
      exists (v * pow2 (- n))%Q, (shr_m mrs1), (loc_of_shr_record mrs1), (ex + n).
      split; [f_equal; apply R|]. split; [exact L|].
      split; [rewrite M; apply Z.div_pos; lia|].
      split.
      { rewrite <- Qmult_assoc, <- pow2_add.
        replace (- n + (ex + n)) with ex by lia. reflexivity. }
      assert (E1 : ex + n = fexp Float64.prec Float64.emax (Zdigits2 mx + ex))
        by (unfold n; lia).
      split.
      + destruct (Z.eq_dec (shr_m mrs1) 0) as [Z0|NZ].
        * rewrite Z0. change (Zdigits2 0) with 0. rewrite E1, !fexp_eq. lia.
        * assert (0 < mx / 2 ^ n).
          { rewrite <- M. assert (0 <= shr_m mrs1) by (rewrite M; apply Z.div_pos; lia). lia. }
          rewrite M, Zdigits2_div_pow2 by lia.
          replace (Zdigits2 mx - n + (ex + n)) with (Zdigits2 mx + ex) by lia. lia.
      + right. rewrite E1. apply half_ulp_bound; trivial. lia.
    - destruct (Sa Hn) as (M & L & ->).
      exists v, (shr_m mrs1), (loc_of_shr_record mrs1), ex.
      split; [f_equal; apply R|]. rewrite M, L.
      split; [exact H|]. split; [exact Hm|]. split; [reflexivity|].
      split; [unfold n in Hn; lia|].
      destruct Hl as [->|Hl]; [now left|right].
      assert (E1 : ex = fexp Float64.prec Float64.emax (Zdigits2 mx + ex))
        by (unfold n in Hn; lia).
      rewrite E1 at 1. apply half_ulp_bound; trivial. }
  destruct S1 as (v1 & m1 & l1 & e1 & E1 & H1 & Hm1 & Hv1 & P & Herr).
  unfold binary_round_aux. rewrite E1. cbn [shr_m].
  destruct (loc_of_record_of_loc m1 l1) as [Ll _].
  assert (Lrec : loc_of_shr_record
                   {| shr_m := m1;
                      shr_r := shr_r (shr_record_of_loc m1 l1);
                      shr_s := shr_s (shr_record_of_loc m1 l1) |} = l1).
  { destruct l1 as [|[| |]]; reflexivity. }
  rewrite Lrec.
  (* rounding *)
  destruct (round_nearest_even_spec m1 l1 v1 H1) as (B2 & A2 & X2).
  set (m2 := round_nearest_even m1 l1) in *.
  assert (Hm2 : 0 <= m2) by lia.
  (* second shift *)
  assert (Ex2 : inbetween m2 loc_Exact (inject_Z m2)) by (simpl; reflexivity).
  pose proof (shr_fexp_spec m2 e1 loc_Exact (inject_Z m2) Hm2 Ex2) as S.
  cbv zeta in S.
  destruct (shr_fexp Float64.prec Float64.emax m2 e1 loc_Exact) as [mrs2 e2].
  set (n2 := fexp Float64.prec Float64.emax (Zdigits2 m2 + e1) - e1) in S.
  destruct S as [Sa Sb].
  assert (S3 : 0 <= shr_m mrs2
               /\ (inject_Z (shr_m mrs2) * pow2 e2 == inject_Z m2 * pow2 e1)%Q).
  { destruct (Z_lt_le_dec 0 n2) as [Hn|Hn].
    - destruct (Sb Hn) as (_ & M & ->).
      assert (Hd : Zdigits2 m1 < Zdigits2 m2).
      { destruct (Z_lt_le_dec (Zdigits2 m1) (Zdigits2 m2)) as [|Hle]; trivial.
        exfalso. unfold n2 in Hn. rewrite !fexp_eq in *. lia. }
      destruct (digits_after_rounding m1 m2 Hm1 B2 Hd) as [Em2 Ed2].
      assert (N1 : n2 = 1).
      { unfold n2 in *. rewrite Ed2 in *. rewrite !fexp_eq in *. lia. }
      assert (D1 : 0 < Zdigits2 m1).
      { destruct (Z.eq_dec (Zdigits2 m1) 0) as [Z0|]; [|pose proof (Zdigits2_nonneg m1); lia].
        exfalso. unfold n2 in *. rewrite Ed2, Z0 in *. rewrite !fexp_eq in *. lia. }
      rewrite N1 in *. rewrite M, Em2.
      rewrite (pow2_step (Zdigits2 m1)) by lia.
      change (2 ^ 1) with 2. rewrite Z.mul_comm, Z.div_mul by lia.
      split; [apply Z.pow_nonneg; lia|].
      rewrite pow2_add, inject_Z_mult. change (pow2 1) with 2%Q.
      change (inject_Z 2) with 2%Q. ring.
    - destruct (Sa Hn) as (M & _ & ->). rewrite M. split; [exact Hm2 | reflexivity]. }
  destruct S3 as [Hm3 Hv3].
  exists (shr_m mrs2), e2. split; [exact Hm3|]. split; [reflexivity|].
  assert (Pe1 : (0 < pow2 e1)%Q) by apply pow2_pos.
  apply Qabs_Qle_condition in A2.
  apply Qabs_Qle_condition.
  destruct Herr as [->|Herr].
  - rewrite (X2 eq_refl) in Hv3. cbn [inbetween] in H1.
    assert (E : (inject_Z (shr_m mrs2) * pow2 e2 == v * pow2 ex)%Q).
    { rewrite Hv3, <- Hv1, H1. reflexivity. }
    rewrite E. lra.
  - rewrite pow2_pred in Herr.
    assert (E : (inject_Z (shr_m mrs2) * pow2 e2 - v * pow2 ex
                 == (inject_Z m2 - v1) * pow2 e1)%Q).
    { rewrite Hv3, <- Hv1. ring. }
    rewrite E. split; nra.
Qed.

Local Open Scope Q_scope.

Lemma inject_Z_neg p : inject_Z (Z.neg p) == - inject_Z (Z.pos p).
Proof. change (Z.neg p) with (- Z.pos p)%Z. now rewrite inject_Z_opp. Qed.

Lemma to_Q_finite s m e :
  to_Q (S754_finite s m e) == sgn s * (inject_Z (Z.pos m) * pow2 e).
Proof.
  unfold to_Q, sgn. destruct s; [rewrite inject_Z_neg|]; ring.
Qed.

Lemma Qabs_sgn s a : Qabs (sgn s * a) == Qabs a.
Proof.
  destruct s; unfold sgn.
  - setoid_replace (-1 * a) with (- a) by ring. apply Qabs_opp.
  - setoid_replace (1 * a) with a by ring. reflexivity.
Qed.

Lemma pow2_0 : pow2 0 == 1.
Proof. reflexivity. Qed.

(** A rounded mantissa and exponent give a finite float of that value, or an
    infinity when the exponent is beyond the format. *)
Lemma rounded_cases sx m e :
  (0 <= m)%Z ->
  (is_finite (rounded sx m e) = true
   /\ to_Q (rounded sx m e) == sgn sx * (inject_Z m * pow2 e))
  \/ (is_finite (rounded sx m e) = false
      /\ pow2 972 <= inject_Z m * pow2 e).
Proof.
  intros Hm. destruct m as [|p|p]; [| |lia]; cbn [rounded].
  - left. split; [reflexivity|]. cbn [to_Q].
    change (inject_Z 0) with 0. ring.
  - destruct (Z.leb_spec e 971) as [L|G].
    + left. split; [reflexivity | apply to_Q_finite].
    + right. split; [reflexivity|].
      assert (P : pow2 972 <= pow2 e) by (apply pow2_le; lia).
      assert (O : 1 <= inject_Z (Z.pos p)).
      { change 1 with (inject_Z 1). rewrite <- Zle_Qle. lia. }
      pose proof (pow2_pos 972). pose proof (pow2_pos e). nra.
Qed.

(** The float that [binary_round_aux] returns for the value [v * 2^ex]:
    either finite and within the usual error of that value, or infinite
    because the value is huge. *)
Lemma fl_spec sx mx ex lx v :
  (0 <= mx)%Z ->
  inbetween mx lx v ->
  lx = loc_Exact \/ (ex <= fexp prec emax (Zdigits2 mx + ex))%Z ->
  let r := binary_round_aux prec emax sx mx ex lx in
  let t := v * pow2 ex in
  (is_finite r = true
   /\ Qabs (to_Q r - sgn sx * t) <= pow2 (-53) * t + pow2 (-1075))
  \/ (is_finite r = false /\ pow2 970 <= t).
Proof.
  intros Hm H Hl r t.
  destruct (binary_round_aux_spec sx mx ex lx v Hm H Hl) as (m3 & e3 & H3 & E & B).
  fold r in E. fold t in B. rewrite E.
  assert (T0 : 0 <= t).
  { pose proof (inbetween_nonneg mx lx v Hm H). pose proof (inject_Z_nonneg mx Hm).
    pose proof (pow2_pos ex). unfold t. nra. }
  destruct (rounded_cases sx m3 e3 H3) as [[F V]|[F V]].
  - left. split; [exact F|]. rewrite V.
    setoid_replace (sgn sx * (inject_Z m3 * pow2 e3) - sgn sx * t)
      with (sgn sx * (inject_Z m3 * pow2 e3 - t)) by ring.
    rewrite Qabs_sgn. exact B.
  - right. split; [exact F|].
    apply Qabs_Qle_condition in B.
    assert (P1 : pow2 (-53) <= 1) by (rewrite <- pow2_0; apply pow2_le; lia).
    assert (P2 : pow2 (-1075) <= pow2 970) by (apply pow2_le; lia).
    assert (P3 : pow2 972 == 4 * pow2 970).
    { change 972%Z with (2 + 970)%Z. rewrite pow2_add. reflexivity. }
    pose proof (pow2_pos (-53)). pose proof (pow2_pos 970).
    assert (pow2 (-53) * t <= t) by nra.
    lra.
Qed.

(** ** Multiplication *)

Lemma mul_spec x y :
  is_finite x = true -> is_finite y = true ->
  let r := mul x y in
  let t := to_Q x * to_Q y in
  (is_finite r = true
   /\ Qabs (to_Q r - t) <= pow2 (-53) * Qabs t + pow2 (-1075))
  \/ (is_finite r = false /\ pow2 970 <= Qabs t).
Proof.
  intros Fx Fy r t.
  pose proof (pow2_pos (-53)) as P53. pose proof (pow2_pos (-1075)) as P1075.
  assert (Zero : to_Q r == 0 -> t == 0 -> is_finite r = true ->
                 (is_finite r = true
                  /\ Qabs (to_Q r - t) <= pow2 (-53) * Qabs t + pow2 (-1075))
                 \/ (is_finite r = false /\ pow2 970 <= Qabs t)).
  { intros R0 T0 F. left. split; trivial. rewrite R0, T0.
    setoid_replace (0 - 0) with 0 by ring. change (Qabs 0) with 0. lra. }
  destruct x as [sx|sx| |sx mx ex]; try discriminate;
    destruct y as [sy|sy| |sy my ey]; try discriminate.
  - apply Zero; first [reflexivity | unfold t; cbn [to_Q]; ring].
  - apply Zero; first [reflexivity | unfold t; cbn [to_Q]; ring].
  - apply Zero; first [reflexivity | unfold t; cbn [to_Q]; ring].
  - unfold r, mul. cbn [SFmul].
    assert (I : inbetween (Z.pos (mx * my)) loc_Exact (inject_Z (Z.pos (mx * my))))
      by (simpl; reflexivity).
    destruct (fl_spec (xorb sx sy) (Z.pos (mx * my)) (ex + ey) loc_Exact
                (inject_Z (Z.pos (mx * my))) ltac:(lia) I (or_introl eq_refl))
      as [[F B]|[F B]]; cbv zeta in *.
    + assert (T : t == sgn (xorb sx sy)
                       * (inject_Z (Z.pos (mx * my)) * pow2 (ex + ey))).
      { unfold t. rewrite !to_Q_finite, pow2_add, Pos2Z.inj_mul, inject_Z_mult.
        destruct sx, sy; unfold sgn; simpl; ring. }
      left. split; [exact F|]. rewrite T, Qabs_sgn.
      rewrite (Qabs_pos (inject_Z _ * pow2 _)); [exact B|].
      pose proof (pow2_pos (ex + ey)).
      pose proof (inject_Z_nonneg (Z.pos (mx * my)) ltac:(lia)). nra.
    + right. split; [exact F|].
      assert (T : Qabs t == inject_Z (Z.pos (mx * my)) * pow2 (ex + ey)).
      { assert (T : t == sgn (xorb sx sy)
                       * (inject_Z (Z.pos (mx * my)) * pow2 (ex + ey))).
        { unfold t. rewrite !to_Q_finite, pow2_add, Pos2Z.inj_mul, inject_Z_mult.
          destruct sx, sy; unfold sgn; simpl; ring. }
        rewrite T, Qabs_sgn. apply Qabs_pos.
        pose proof (pow2_pos (ex + ey)).
        pose proof (inject_Z_nonneg (Z.pos (mx * my)) ltac:(lia)). nra. }
      rewrite T. exact B.
Qed.

(** ** Addition *)

Lemma iter_xO m d : Z.pos (Pos.iter xO m d) = (Z.pos m * 2 ^ Z.pos d)%Z.
Proof.
  induction d as [|d IH] using Pos.peano_ind.
  - simpl. lia.
  - rewrite Pos.iter_succ, Pos2Z.inj_succ, Z.pow_succ_r by lia.
    change (Z.pos (Pos.iter xO m d)~0) with (2 * Z.pos (Pos.iter xO m d))%Z.
    rewrite IH. ring.
Qed.

Lemma shl_align_spec mx ex e' :
  inject_Z (Z.pos (fst (shl_align mx ex e'))) * pow2 (snd (shl_align mx ex e'))
  == inject_Z (Z.pos mx) * pow2 ex.
Proof.
  unfold shl_align. destruct (e' - ex)%Z as [|d|d] eqn:E; cbn [fst snd];
    try reflexivity.
  rewrite iter_xO, inject_Z_mult, (inject_Z_pow2 (Z.pos d)) by lia.
  replace (pow2 ex) with (pow2 (Z.pos d + e')) by (f_equal; lia).
  rewrite pow2_add. ring.
Qed.

Lemma shl_align_snd mx ex e' :
  (e' <= ex)%Z -> snd (shl_align mx ex e') = e'.
Proof.
  intros H. unfold shl_align. destruct (e' - ex)%Z as [|d|d] eqn:E; cbn [snd]; lia.
Qed.

Lemma binary_round_spec sx m e :
  let r := binary_round prec emax sx m e in
  let t := inject_Z (Z.pos m) * pow2 e in
  (is_finite r = true
   /\ Qabs (to_Q r - sgn sx * t) <= pow2 (-53) * t + pow2 (-1075))
  \/ (is_finite r = false /\ pow2 970 <= t).
Proof.
  intros r t. unfold r, binary_round.
  pose proof (shl_align_spec m e (fexp prec emax (Z.pos (digits2_pos m) + e))) as A.
  destruct (shl_align m e (fexp prec emax (Z.pos (digits2_pos m) + e)))
    as [mz ez]. cbn [fst snd] in A.
  assert (I : inbetween (Z.pos mz) loc_Exact (inject_Z (Z.pos mz)))
    by (simpl; reflexivity).
  pose proof (fl_spec sx (Z.pos mz) ez loc_Exact (inject_Z (Z.pos mz))
                ltac:(lia) I (or_introl eq_refl)) as S.
  cbv zeta in S. fold t in A.
  destruct S as [[F B]|[F B]]; [left|right]; (split; [exact F|]).
  - rewrite <- A. exact B.
  - rewrite <- A. exact B.
Qed.

Lemma binary_normalize_spec z e :
  let r := binary_normalize prec emax z e false in
  let t := inject_Z z * pow2 e in
  (is_finite r = true
   /\ Qabs (to_Q r - t) <= pow2 (-53) * Qabs t + pow2 (-1075))
  \/ (is_finite r = false /\ pow2 970 <= Qabs t).
Proof.
  intros r t. pose proof (pow2_pos e) as Pe.
  pose proof (pow2_pos (-1075)) as P1075.
  destruct z as [|p|p]; unfold r; cbn [binary_normalize].
  - left. split; [reflexivity|].
    assert (T0 : t == 0) by (unfold t; change (inject_Z 0) with 0; ring).
    cbn [to_Q]. rewrite T0. setoid_replace (0 - 0) with 0 by ring.
    change (Qabs 0) with 0. lra.
  - pose proof (inject_Z_nonneg (Z.pos p) ltac:(lia)).
    assert (T : Qabs t == t) by (apply Qabs_pos; unfold t; nra).
    destruct (binary_round_spec false p e) as [[F B]|[F B]];
      cbv zeta in B; fold t in B; [left|right]; (split; [exact F|]).
    + rewrite T. unfold sgn in B.
      setoid_replace (1 * t) with t in B by ring. exact B.
    + rewrite T. exact B.
  - pose proof (inject_Z_nonneg (Z.pos p) ltac:(lia)).
    assert (N : t == - (inject_Z (Z.pos p) * pow2 e)).
    { unfold t. rewrite inject_Z_neg. ring. }
    assert (T : Qabs t == inject_Z (Z.pos p) * pow2 e).
    { rewrite N, Qabs_opp. apply Qabs_pos. nra. }
    destruct (binary_round_spec true p e) as [[F B]|[F B]];
      cbv zeta in B; [left|right]; (split; [exact F|]).
    + rewrite T. unfold sgn in B.
      setoid_replace (to_Q (binary_round prec emax true p e) - t)
        with (to_Q (binary_round prec emax true p e)
              - -1 * (inject_Z (Z.pos p) * pow2 e)) by (rewrite N; ring).
      exact B.
    + rewrite T. exact B.
Qed.

Lemma cond_Zopp_sgn s z : inject_Z (cond_Zopp s z) == sgn s * inject_Z z.
Proof.
  destruct s; unfold cond_Zopp, sgn; [rewrite inject_Z_opp|]; ring.
Qed.

Lemma add_spec x y :
  is_finite x = true -> is_finite y = true ->
  let r := add x y in
  let t := to_Q x + to_Q y in
  (is_finite r = true
   /\ Qabs (to_Q r - t) <= pow2 (-53) * Qabs t + pow2 (-1075))
  \/ (is_finite r = false /\ pow2 970 <= Qabs t).
Proof.
  intros Fx Fy r t.
  pose proof (pow2_pos (-53)) as P53. pose proof (pow2_pos (-1075)) as P1075.
  assert (Exact : is_finite r = true -> to_Q r == t ->
                  (is_finite r = true
                   /\ Qabs (to_Q r - t) <= pow2 (-53) * Qabs t + pow2 (-1075))
                  \/ (is_finite r = false /\ pow2 970 <= Qabs t)).
  { intros F E. left. split; trivial. rewrite E.
    setoid_replace (t - t) with 0 by ring. change (Qabs 0) with 0.
    pose proof (Qabs_nonneg t). nra. }
  destruct x as [sx|sx| |sx mx ex]; try discriminate;
    destruct y as [sy|sy| |sy my ey]; try discriminate.
  - apply Exact.
    + unfold r, add. destruct sx, sy; reflexivity.
    + unfold r, add, t. destruct sx, sy; reflexivity.
  - apply Exact; [reflexivity|]. unfold r, add, t. cbn [SFadd to_Q]. ring.
  - apply Exact; [reflexivity|]. unfold r, add, t. cbn [SFadd to_Q]. ring.
  - unfold r, add. cbn [SFadd].
    set (ez := Z.min ex ey).
    pose proof (shl_align_spec mx ex ez) as Ax.
    pose proof (shl_align_spec my ey ez) as Ay.
    rewrite shl_align_snd in Ax by (unfold ez; lia).
    rewrite shl_align_snd in Ay by (unfold ez; lia).
    set (z := (cond_Zopp sx (Z.pos (fst (shl_align mx ex ez)))
               + cond_Zopp sy (Z.pos (fst (shl_align my ey ez))))%Z).
    assert (T : inject_Z z * pow2 ez == t).
    { unfold z, t. rewrite inject_Z_plus, !cond_Zopp_sgn, !to_Q_finite.
      rewrite <- Ax, <- Ay. ring. }
    destruct (binary_normalize_spec z ez) as [[F B]|[F B]];
      cbv zeta in B; [left|right]; (split; [exact F|]).
    + rewrite <- T. exact B.
    + rewrite <- T. exact B.
Qed.

(** ** Reading a fraction *)

(** The quotient [q] and remainder [r] of [a] by [b] place [a / b]. *)
Lemma new_location_spec a b q r :
  (0 < b)%Z -> (a = b * q + r)%Z -> (0 <= r < b)%Z ->
  inbetween q (new_location b r) (inject_Z a / inject_Z b).
Proof.
  intros Hb E Hr.
  assert (B : 0 < inject_Z b).
  { change 0 with (inject_Z 0). rewrite <- Zlt_Qlt. exact Hb. }
  set (v := inject_Z a / inject_Z b).
  assert (V : v * inject_Z b == inject_Z b * inject_Z q + inject_Z r).
  { unfold v. rewrite E, inject_Z_plus, inject_Z_mult. field. lra. }
  assert (R0 : 0 <= inject_Z r) by (apply inject_Z_nonneg; lia).
  assert (R1 : inject_Z r < inject_Z b) by (rewrite <- Zlt_Qlt; lia).
  clearbody v.
  assert (Two : 2 * inject_Z r == inject_Z (2 * r))
    by (rewrite inject_Z_mult; reflexivity).
  unfold new_location.
  destruct (Z.even b) eqn:Ev;
    unfold new_location_even, new_location_odd;
    (destruct (Z.eqb_spec r 0) as [->|Hne];
     [cbn [inbetween]; change (inject_Z 0) with 0 in V; nra|]).
  - assert (Rp : 0 < inject_Z r).
    { change 0 with (inject_Z 0). rewrite <- Zlt_Qlt. lia. }
    destruct (Z.compare_spec (2 * r) b) as [C|C|C]; cbn [inbetween].
    + assert (2 * inject_Z r == inject_Z b) by (rewrite Two, C; reflexivity).
      apply Qle_antisym; nra.
    + assert (2 * inject_Z r < inject_Z b) by (rewrite Two, <- Zlt_Qlt; exact C).
      split; nra.
    + assert (inject_Z b < 2 * inject_Z r) by (rewrite Two, <- Zlt_Qlt; exact C).
      split; nra.
  - assert (Rp : 0 < inject_Z r).
    { change 0 with (inject_Z 0). rewrite <- Zlt_Qlt. lia. }
    assert (Odd : (2 * r <> b)%Z).
    { intros <-. rewrite Z.even_mul in Ev. discriminate. }
    destruct (Z.compare_spec (2 * r + 1) b) as [C|C|C]; cbn [inbetween].
    + assert (2 * inject_Z r < inject_Z b) by (rewrite Two, <- Zlt_Qlt; lia).
      split; nra.
    + assert (2 * inject_Z r < inject_Z b) by (rewrite Two, <- Zlt_Qlt; lia).
      split; nra.
    + assert (inject_Z b < 2 * inject_Z r) by (rewrite Two, <- Zlt_Qlt; lia).
      split; nra.
Qed.

Lemma fexp_mono a b :
  (a <= b)%Z -> (fexp prec emax a <= fexp prec emax b)%Z.
Proof. intros H. rewrite !fexp_eq. lia. Qed.

(** The quotient that [of_ratio] hands to the rounding is placed correctly
    and has enough digits. *)
Lemma div_core_spec n d :
  let '(q, e, l) := SFdiv_core_binary prec emax (Z.pos n) 0 (Z.pos d) 0 in
  (0 <= q)%Z
  /\ inbetween q l (inject_Z (Z.pos n) / inject_Z (Z.pos d) * pow2 (- e))
  /\ (e <= fexp prec emax (Zdigits2 q + e))%Z.
Proof.
  unfold SFdiv_core_binary.
  set (d1 := Zdigits2 (Z.pos n)). set (d2 := Zdigits2 (Z.pos d)).
  rewrite !Z.add_0_r, Z.sub_0_r.
  set (e := Z.min (fexp prec emax (d1 - d2)) 0).
  set (s := (0 - e)%Z).
  assert (Hs : (0 <= s)%Z) by (unfold s, e; lia).
  set (m := match s with
            | 0%Z => Z.pos n
            | Z.pos _ => Z.shiftl (Z.pos n) s
            | Z.neg _ => 0%Z
            end).
  assert (Em : m = (Z.pos n * 2 ^ s)%Z).
  { unfold m. destruct s as [|p|p] eqn:Es; [simpl; lia| |lia].
    apply Z.shiftl_mul_pow2. lia. }
  clearbody m.
  pose proof (Z.div_eucl_eq m (Z.pos d) ltac:(lia)) as Eq.
  pose proof (Z.mod_pos_bound m (Z.pos d) ltac:(lia)) as Bd.
  unfold Z.modulo in Bd. unfold Z.div, Z.modulo in Eq.
  destruct (Z.div_eucl m (Z.pos d)) as [q r].
  assert (P : (0 < 2 ^ s)%Z) by (apply Z.pow_pos_nonneg; lia).
  assert (Hq : (0 <= q)%Z) by nia.
  split; [exact Hq|]. split.
  - pose proof (new_location_spec m (Z.pos d) q r ltac:(lia) Eq Bd) as L.
    assert (E : inject_Z m / inject_Z (Z.pos d)
                == inject_Z (Z.pos n) / inject_Z (Z.pos d) * pow2 (- e)).
    { rewrite Em, inject_Z_mult, inject_Z_pow2 by lia.
      replace (- e)%Z with s by (unfold s; lia).
      assert (0 < inject_Z (Z.pos d)).
      { change 0 with (inject_Z 0). rewrite <- Zlt_Qlt. lia. }
      field. lra. }
    destruct (new_location (Z.pos d) r) as [|[| |]]; cbn [inbetween] in *;
      rewrite <- E; exact L.
  - assert (K : (d1 + s - d2 <= Zdigits2 q)%Z).
    { destruct (Z_lt_le_dec 0 (d1 + s - d2)) as [Hk|Hk];
        [|pose proof (Zdigits2_nonneg q); lia].
      destruct (Zdigits2_bounds (Z.pos n) ltac:(lia)) as [Ln _].
      destruct (Zdigits2_bounds (Z.pos d) ltac:(lia)) as [_ Ud].
      fold d1 in Ln. fold d2 in Ud.
      pose proof (Zdigits2_pos (Z.pos n) ltac:(lia)) as D1. fold d1 in D1.
      pose proof (Zdigits2_pos (Z.pos d) ltac:(lia)) as D2. fold d2 in D2.
      assert (Lq : (2 ^ (d1 + s - d2 - 1) <= q)%Z).
      { assert (X : (2 ^ (d1 + s - d2 - 1) * 2 ^ d2 <= m)%Z).
        { rewrite <- Z.pow_add_r by lia.
          replace (d1 + s - d2 - 1 + d2)%Z with ((d1 - 1) + s)%Z by lia.
          rewrite Z.pow_add_r by lia. rewrite Em.
          apply Z.mul_le_mono_nonneg_r; lia. }
        assert (P2 : (0 < 2 ^ (d1 + s - d2 - 1))%Z) by (apply Z.pow_pos_nonneg; lia).
        destruct (Z_lt_le_dec q (2 ^ (d1 + s - d2 - 1))) as [Lt|]; [|lia].
        exfalso. nia. }
      assert (P2 : (0 < 2 ^ (d1 + s - d2 - 1))%Z) by (apply Z.pow_pos_nonneg; lia).
      apply Zdigits2_ge; lia. }
    apply Z.le_trans with (fexp prec emax (d1 - d2)); [unfold e; lia|].
    apply fexp_mono. unfold s in K. lia.
Qed.

Lemma of_ratio_spec s n d :
  let r := of_ratio s n d in
  let t := inject_Z (Z.pos n) / inject_Z (Z.pos d) in
  (is_finite r = true
   /\ Qabs (to_Q r - sgn s * t) <= pow2 (-53) * t + pow2 (-1075))
  \/ (is_finite r = false /\ pow2 970 <= t).
Proof.
  intros r t. unfold r, of_ratio.
  pose proof (div_core_spec n d) as C.
  destruct (SFdiv_core_binary prec emax (Z.pos n) 0 (Z.pos d) 0) as [[q e] l].
  destruct C as (Hq & I & He). fold t in I.
  pose proof (fl_spec s q e l (t * pow2 (- e)) Hq I (or_intror He)) as S.
  cbv zeta in S.
  assert (E : t * pow2 (- e) * pow2 e == t).
  { rewrite <- Qmult_assoc, <- pow2_add.
    replace (- e + e)%Z with 0%Z by lia. rewrite pow2_0. ring. }
  destruct S as [[F B]|[F B]]; [left|right]; (split; [exact F|]).
  - rewrite E in B. exact B.
  - rewrite E in B. exact B.
Qed.

(** ** Rounding to two decimals *)

Lemma inject_Z_pos m : (0 < m)%Z -> 0 < inject_Z m.
Proof. intros H. change 0 with (inject_Z 0). now rewrite <- Zlt_Qlt. Qed.

(** Division to the nearest integer is off by at most one half. *)
Lemma div_half_even_spec a b :
  (0 <= a)%Z -> (0 < b)%Z ->
  (0 <= div_half_even a b)%Z
  /\ Qabs (inject_Z (div_half_even a b) - inject_Z a / inject_Z b) <= 1 # 2.
Proof.
  intros Ha Hb. unfold div_half_even.
  pose proof (Z.div_mod a b ltac:(lia)) as E.
  pose proof (Z.mod_pos_bound a b Hb) as Bd.
  assert (Hq : (0 <= a / b)%Z) by (apply Z.div_pos; lia).
  set (q := (a / b)%Z) in *. set (r := (a mod b)%Z) in *.
  pose proof (inject_Z_pos b Hb) as B.
  set (v := inject_Z a / inject_Z b).
  assert (V : v * inject_Z b == inject_Z b * inject_Z q + inject_Z r).
  { unfold v. rewrite E, inject_Z_plus, inject_Z_mult. field. lra. }
  clearbody v q r.
  assert (R0 : 0 <= inject_Z r) by (apply inject_Z_nonneg; lia).
  assert (Two : 2 * inject_Z r == inject_Z (2 * r))
    by (rewrite inject_Z_mult; reflexivity).
  assert (I : inject_Z (q + 1) == inject_Z q + 1)
    by (rewrite inject_Z_plus; reflexivity).
  destruct (Z.compare_spec (2 * r) b) as [C|C|C].
  - assert (2 * inject_Z r == inject_Z b) by (rewrite Two, C; reflexivity).
    destruct (Z.even q); (split; [lia|]); apply Qabs_Qle_condition;
      rewrite ?I; split; nra.
  - assert (2 * inject_Z r < inject_Z b) by (rewrite Two, <- Zlt_Qlt; exact C).
    split; [lia|]. apply Qabs_Qle_condition. split; nra.
  - assert (inject_Z b < 2 * inject_Z r) by (rewrite Two, <- Zlt_Qlt; exact C).
    assert (inject_Z r < inject_Z b) by (rewrite <- Zlt_Qlt; lia).
    split; [lia|]. apply Qabs_Qle_condition. rewrite I. split; nra.
Qed.

Lemma scaled_half_even_spec m e :
  (0 <= scaled_half_even m e 2)%Z
  /\ Qabs (inject_Z (scaled_half_even m e 2)
           - inject_Z (Z.pos m) * pow2 e * 100) <= 1 # 2.
Proof.
  unfold scaled_half_even. change (10 ^ Z.of_nat 2)%Z with 100%Z.
  assert (Zero : forall a b, a == b -> Qabs (a - b) <= 1 # 2).
  { intros a b ->. setoid_replace (b - b) with 0 by ring. discriminate. }
  destruct e as [|p|p].
  - split; [lia|]. apply Zero. rewrite inject_Z_mult, pow2_0.
    change (inject_Z 100) with 100. ring.
  - assert (0 < 2 ^ Z.pos p)%Z by (apply Z.pow_pos_nonneg; lia).
    split; [nia|]. apply Zero.
    rewrite !inject_Z_mult, inject_Z_pow2 by lia.
    change (inject_Z 100) with 100. ring.
  - change (- Z.neg p)%Z with (Z.pos p).
    assert (P : (0 < 2 ^ Z.pos p)%Z) by (apply Z.pow_pos_nonneg; lia).
    destruct (div_half_even_spec (Z.pos m * 100) (2 ^ Z.pos p) ltac:(lia) P)
      as [N A].
    split; [exact N|].
    assert (E : inject_Z (Z.pos m * 100) / inject_Z (2 ^ Z.pos p)
                == inject_Z (Z.pos m) * pow2 (Z.neg p) * 100).
    { rewrite inject_Z_mult, inject_Z_pow2 by lia.
      change (inject_Z 100) with 100.
      assert (X : pow2 (Z.neg p) == / pow2 (Z.pos p)).
      { unfold pow2. change (Z.neg p) with (- Z.pos p)%Z. apply Qpower_opp. }
      pose proof (pow2_pos (Z.pos p)).
      rewrite X. field. lra. }
    rewrite <- E. exact A.
Qed.

(** [round(x, 2)], when finite, is within half a cent of [x], up to the
    error of reading the decimal back. *)
Lemma round_spec x :
  is_finite (round x 2) = true ->
  is_finite x = true
  /\ Qabs (to_Q (round x 2) - to_Q x)
     <= (1 # 200) + pow2 (-53) * (Qabs (to_Q x) + (1 # 200)) + pow2 (-1075).
Proof.
  pose proof (pow2_pos (-53)) as P53. pose proof (pow2_pos (-1075)) as P1075.
  destruct x as [s|s| |s m e]; unfold round; try discriminate.
  - intros _. split; [reflexivity|]. cbn [to_Q].
    setoid_replace (0 - 0) with 0 by ring. change (Qabs 0) with 0. lra.
  - intros F. split; [reflexivity|].
    destruct (scaled_half_even_spec m e) as [N A].
    rewrite to_Q_finite, Qabs_sgn.
    set (M := inject_Z (Z.pos m) * pow2 e) in *.
    assert (M0 : 0 <= M).
    { pose proof (pow2_pos e). pose proof (inject_Z_nonneg (Z.pos m) ltac:(lia)).
      unfold M. nra. }
    rewrite (Qabs_pos M M0).
    apply Qabs_Qle_condition in A. clearbody M.
    assert (C0 : 0 <= pow2 (-53) * (M + (1 # 200)))
      by (apply Qmult_le_0_compat; lra).
    destruct (scaled_half_even m e 2) as [|n|n]; [| |lia].
    + cbn [to_Q]. change (inject_Z 0) with 0 in A.
      apply Qabs_Qle_condition. destruct s; unfold sgn; split; lra.
    + change (Pos.pow 10 (Pos.of_nat 2)) with 100%positive in *.
      destruct (of_ratio_spec s n 100) as [[_ B]|[F' _]];
        [|rewrite F' in F; discriminate].
      cbv zeta in B.
      set (t := inject_Z (Z.pos n) / inject_Z 100) in *.
      assert (T : t * 100 == inject_Z (Z.pos n)).
      { unfold t. change (inject_Z 100) with 100. field. }
      set (R := to_Q (of_ratio s n 100)) in *.
      apply Qabs_Qle_condition in B. apply Qabs_Qle_condition.
      assert (T1 : t <= M + (1 # 200)) by lra.
      clearbody t R.
      assert (pow2 (-53) * t <= pow2 (-53) * (M + (1 # 200)))
        by (apply Qmult_le_l; lra).
      destruct s; unfold sgn in *; split; lra.
Qed.

(** ** The price after [update_prices] *)

Lemma pow2_m53 : pow2 (-53) <= 2 # 10000000000000000.
Proof. vm_compute. discriminate. Qed.

Lemma pow2_m1075 : pow2 (-1075) <= 1 # 1000000000000000000000000000000.
Proof. vm_compute. discriminate. Qed.

Lemma pow2_970 : 2 < pow2 970.
Proof.
  apply Qlt_le_trans with (pow2 2); [reflexivity | apply pow2_le; lia].
Qed.

(** A float operation on operands of moderate size is finite and close to
    the exact result. *)
Lemma finite_error r t K :
  (is_finite r = true
   /\ Qabs (to_Q r - t) <= pow2 (-53) * Qabs t + pow2 (-1075))
  \/ (is_finite r = false /\ pow2 970 <= Qabs t) ->
  Qabs t <= K -> K <= 2 ->
  is_finite r = true
  /\ Qabs (to_Q r - t) <= (2 # 10000000000000000) * K + (1 # 1000000000000000000000000000000).
Proof.
  intros [[F B]|[_ B]] HK K2.
  - split; [exact F|].
    pose proof pow2_m53. pose proof pow2_m1075. pose proof (pow2_pos (-53)).
    pose proof (Qabs_nonneg t).
    assert (pow2 (-53) * Qabs t <= (2 # 10000000000000000) * K).
    { apply Qmult_le_compat_nonneg; split; lra. }
    lra.
  - pose proof pow2_970. lra.
Qed.

Lemma Qabs_le_mult a b A B :
  Qabs a <= A -> Qabs b <= B -> Qabs (a * b) <= A * B.
Proof.
  intros Ha Hb. rewrite Qabs_Qmult.
  apply Qmult_le_compat_nonneg; split; trivial; apply Qabs_nonneg.
Qed.

Lemma to_Q_1 : to_Q (of_Z 1) == 1.
Proof. reflexivity. Qed.

(** The movement that [update_prices] draws is within [0.02] up to
    rounding. *)
Lemma shock_bound u :
  unit_draw u ->
  is_finite (shock u) = true
  /\ Qabs (to_Q (shock u)) <= (2 # 100) + (1 # 10000000000000000).
Proof.
  intros [Fu [U0 U1]]. unfold shock, random_uniform.
  replace (sub (decimal 2 2) (neg (decimal 2 2)))
    with (S754_finite false 5764607523034235 (-57))
    by (vm_compute; reflexivity).
  set (c := S754_finite false 5764607523034235 (-57)).
  assert (C : to_Q c == 5764607523034235 # 144115188075855872) by reflexivity.
  assert (N : to_Q (neg (decimal 2 2))
              == - (5764607523034235 # 288230376151711744)) by reflexivity.
  (* y = 0.04 * u *)
  pose proof (mul_spec c u eq_refl Fu) as S1. cbv zeta in S1.
  set (y := mul c u) in *. clearbody c y.
  set (t1 := to_Q c * to_Q u) in *.
  assert (T1 : 0 <= t1 <= 5764607523034235 # 144115188075855872).
  { unfold t1. rewrite C. split; nra. }
  clearbody t1.
  apply (finite_error _ _ (1 # 10)) in S1;
    [|apply Qabs_Qle_condition; lra | lra].
  destruct S1 as [Fy By]. apply Qabs_Qle_condition in By.
  (* m = -0.02 + y *)
  pose proof (add_spec (neg (decimal 2 2)) y eq_refl Fy) as S2. cbv zeta in S2.
  set (m := add (neg (decimal 2 2)) y) in *. clearbody m.
  set (Y := to_Q y) in *. clearbody Y.
  set (n := to_Q (neg (decimal 2 2))) in *. clearbody n.
  apply (finite_error _ _ (1 # 10)) in S2;
    [|apply Qabs_Qle_condition; lra | lra].
  destruct S2 as [Fm Bm]. split; [exact Fm|].
  apply Qabs_Qle_condition in Bm. apply Qabs_Qle_condition.
  lra.
Qed.

(** The price that [update_prices] stores is within 2% and half a cent of
    the price before, up to the rounding of the float operations. *)
Lemma repriced_bound p u :
  is_finite p = true ->
  unit_draw u ->
  let new := round (mul p (add (of_Z 1) (shock u))) 2 in
  is_finite new = true ->
  within_2_percent_and_half_a_cent p new.
Proof.
  intros Fp Hu new Fnew.
  destruct (shock_bound u Hu) as [Fm Bm].
  set (m := shock u) in *.
  (* w = 1 + m *)
  pose proof (add_spec (of_Z 1) m eq_refl Fm) as S3. cbv zeta in S3.
  set (w := add (of_Z 1) m) in *.
  apply Qabs_Qle_condition in Bm.
  apply (finite_error _ _ (103 # 100)) in S3;
    [|apply Qabs_Qle_condition; rewrite to_Q_1; lra | lra].
  destruct S3 as [Fw Bw]. rewrite to_Q_1 in Bw. apply Qabs_Qle_condition in Bw.
  (* x = p * w, new = round x *)
  destruct (round_spec _ Fnew) as [Fx Br]. fold new in Br.
  set (x := mul p w) in *.
  destruct (mul_spec p w Fp Fw) as [[_ Bx]|[F' _]];
    [|fold x in F'; rewrite F' in Fx; discriminate].
  cbv zeta in Bx. fold x in Bx.
  unfold within_2_percent_and_half_a_cent.
  set (P := to_Q p) in *. set (W := to_Q w) in *. set (X := to_Q x) in *.
  set (N := to_Q new) in *. set (M := to_Q m) in *.
  clearbody P W X N M.
  pose proof (Qabs_nonneg P) as A0. set (a := Qabs P) in *.
  pose proof pow2_m53 as D1. pose proof pow2_m1075 as D2.
  pose proof (pow2_pos (-53)) as D3. pose proof (pow2_pos (-1075)) as D4.
  set (dl := pow2 (-53)) in *. set (ep := pow2 (-1075)) in *.
  clearbody dl ep.
  assert (HW : Qabs W <= 103 # 100) by (apply Qabs_Qle_condition; lra).
  assert (HW1 : Qabs (W - 1) <= (2 # 100) + (5 # 10000000000000000))
    by (apply Qabs_Qle_condition; lra).
  assert (PW : Qabs (P * W) <= a * (103 # 100))
    by (apply Qabs_le_mult; [apply Qle_refl | exact HW]).
  assert (PW1 : Qabs (P * (W - 1)) <= a * ((2 # 100) + (5 # 10000000000000000)))
    by (apply Qabs_le_mult; [apply Qle_refl | exact HW1]).
  assert (DPW : dl * Qabs (P * W) <= (2 # 10000000000000000) * (a * (103 # 100))).
  { apply Qmult_le_compat_nonneg; split; try lra. apply Qabs_nonneg. }
  assert (HX : Qabs X <= a * (104 # 100) + (1 # 1000000000000000000000000000000)).
  { apply Qabs_Qle_condition in Bx. apply Qabs_Qle_condition in PW.
    apply Qabs_Qle_condition. lra. }
  assert (DX : dl * (Qabs X + (1 # 200))
               <= (2 # 10000000000000000) * (a * (104 # 100) + (1 # 1000000000000000000000000000000) + (1 # 200))).
  { pose proof (Qabs_nonneg X).
    apply Qmult_le_compat_nonneg; split; lra. }
  clearbody a.
  apply Qabs_Qle_condition in Br. apply Qabs_Qle_condition in Bx.
  apply Qabs_Qle_condition in PW1. apply Qabs_Qle_condition.
  clear HW HW1 PW HX.
  set (pw := P * W) in *.
  assert (E : P * (W - 1) == pw - P) by (unfold pw; ring).
  rewrite E in PW1. clearbody pw.
  set (ax := Qabs X) in *. set (apw := Qabs pw) in *. clearbody ax apw.
  split; lra.
Qed.

End Float64Facts.

(* ================================================================== *)
(** * Facts about dictionaries *)
(* ================================================================== *)

Section DictFacts.

Context {V : Type}.
Implicit Types (d : Dict.dict V) (k : string) (v : V).

Lemma get_None_not_In d k :
  Dict.get k d = None <-> ~ In k (Dict.keys d).
Proof.
  induction d as [|[k' v'] d IH]; simpl.
  - tauto.
  - destruct (String.eqb_spec k k') as [->|Hne].
    + split; [discriminate | intros H; exfalso; apply H; now left].
    + rewrite IH. split.
      * intros H [E|E]; [congruence | tauto].
      * tauto.
Qed.

Lemma In_get_Some d k :
  In k (Dict.keys d) -> exists v, Dict.get k d = Some v.
Proof.
  intros H. destruct (Dict.get k d) as [v|] eqn:E; eauto.
  apply get_None_not_In in E. tauto.
Qed.

Lemma get_set_same d k v :
  Dict.get k (Dict.set k v d) = Some v.
Proof.
  induction d as [|[k' v'] d IH]; simpl.
  - now rewrite String.eqb_refl.
  - destruct (String.eqb k k') eqn:E; simpl.
    + now rewrite String.eqb_refl.
    + now rewrite E.
Qed.

Lemma get_set_other d k k' v :
  k' <> k -> Dict.get k' (Dict.set k v d) = Dict.get k' d.
Proof.
  intros Hne. induction d as [|[k0 v0] d IH]; simpl.
  - destruct (String.eqb_spec k' k); [contradiction | reflexivity].
  - destruct (String.eqb_spec k k0) as [->|H0]; simpl.
    + destruct (String.eqb_spec k' k0); [contradiction | reflexivity].
    + now rewrite IH.
Qed.

Lemma keys_set_present d k v :
  In k (Dict.keys d) -> Dict.keys (Dict.set k v d) = Dict.keys d.
Proof.
  induction d as [|[k' v'] d IH]; simpl.
  - contradiction.
  - intros [->|H].
    + now rewrite String.eqb_refl.
    + destruct (String.eqb_spec k k') as [->|Hne]; simpl; trivial.
      now rewrite IH.
Qed.

Lemma keys_set_absent d k v :
  Dict.get k d = None -> Dict.keys (Dict.set k v d) = Dict.keys d ++ [k].
Proof.
  induction d as [|[k' v'] d IH]; simpl; trivial.
  destruct (String.eqb k k'); [discriminate|].
  intros H. simpl. now rewrite IH.
Qed.

(** Reading and writing the entry that follows a prefix without the key. *)
Lemma get_app_fresh (done todo : Dict.dict V) k :
  ~ In k (Dict.keys done) ->
  Dict.get k (done ++ todo) = Dict.get k todo.
Proof.
  induction done as [|[k' v'] done IH]; simpl; trivial.
  intros H. destruct (String.eqb_spec k k') as [->|Hne].
  - exfalso. apply H. now left.
  - apply IH. tauto.
Qed.

Lemma set_app_fresh (done todo : Dict.dict V) k v :
  ~ In k (Dict.keys done) ->
  Dict.set k v (done ++ todo) = done ++ Dict.set k v todo.
Proof.
  induction done as [|[k' v'] done IH]; simpl; trivial.
  intros H. destruct (String.eqb_spec k k') as [->|Hne].
  - exfalso. apply H. now left.
  - f_equal. apply IH. tauto.
Qed.

End DictFacts.

(* ================================================================== *)
(** * Facts about the methods *)
(* ================================================================== *)

Lemma get_price_run symbol self :
  get_price symbol self
  = Ok (Dict.get_default symbol fallback (prices self), self).
Proof. reflexivity. Qed.

Lemma get_snapshot_loop_pure symbols :
  forall snapshot self,
    exists snapshot',
      get_snapshot_loop symbols snapshot self = Ok (snapshot', self).
Proof.
  induction symbols as [|symbol rest IH]; intros snapshot self.
  - exists snapshot. reflexivity.
  - simpl. unfold bind, prices_get. apply IH.
Qed.

Lemma get_snapshot_pure symbols self :
  exists snapshot, get_snapshot symbols self = Ok (snapshot, self).
Proof. apply get_snapshot_loop_pure. Qed.

Lemma get_snapshot_one symbol self :
  get_snapshot [symbol] self
  = Ok ([(symbol,
          quote (Float64.round
                   (Dict.get_default symbol fallback (prices self)) 2))],
        self).
Proof. reflexivity. Qed.

(** [random.choice] on the two steps yields one of them, never an error. *)
Lemma random_choice_steps r :
  random_choice r steps = Ok (Float64.neg (decimal 1 2))
  \/ random_choice r steps = Ok (decimal 1 2).
Proof.
  unfold random_choice, steps.
  change (List.length [Float64.neg (decimal 1 2); decimal 1 2]) with 2%nat.
  assert (H : (r mod 2 < 2)%nat) by (apply Nat.mod_upper_bound; lia).
  destruct (r mod 2)%nat as [|[|n]]; simpl; auto. lia.
Qed.

Lemma simulate_movement_run r symbol self :
  exists movement,
    random_choice r steps = Ok movement
    /\ let new_price :=
         Float64.mul (Dict.get_default symbol fallback (prices self))
           (Float64.add (Float64.of_Z 1) movement) in
       simulate_movement r symbol self
       = Ok ((Float64.round new_price 2, movement),
             mkMarket (use_yfinance self)
               (Dict.set symbol new_price (prices self))).
Proof.
  unfold simulate_movement, bind, prices_get, prices_setitem, lift, ret.
  destruct (random_choice_steps r) as [E|E]; rewrite E; eexists;
    (split; [reflexivity|]); reflexivity.
Qed.

Section UpdatePrices.

Variable u : nat -> Float64.float.

(** Iterating over symbols that are all in the table never raises, and
    keeps the keys. *)
Lemma update_prices_loop_total symbols :
  forall i self,
    (forall k, In k symbols -> In k (Dict.keys (prices self))) ->
    exists self',
      update_prices_loop u i (List.length (prices self)) symbols self
      = Ok (tt, self')
      /\ Dict.keys (prices self') = Dict.keys (prices self)
      /\ use_yfinance self' = use_yfinance self.
Proof.
  induction symbols as [|symbol rest IH]; intros i self Hin; simpl.
  - exists self. unfold prices_iter_check. now rewrite Nat.eqb_refl.
  - assert (Hs : In symbol (Dict.keys (prices self))) by (apply Hin; now left).
    destruct (In_get_Some _ _ Hs) as [p Hp].
    unfold bind at 1. unfold prices_iter_check at 1. rewrite Nat.eqb_refl.
    unfold bind at 1. unfold prices_getitem at 1. rewrite Hp.
    unfold bind at 1. unfold prices_setitem at 1.
    unfold bind at 1. unfold prices_getitem at 1. cbn [prices use_yfinance].
    rewrite get_set_same.
    unfold bind at 1. unfold prices_setitem at 1. cbn [prices use_yfinance].
    set (p1 := Float64.mul p _).
    set (d1 := Dict.set symbol p1 (prices self)).
    set (d2 := Dict.set symbol (Float64.round p1 2) d1).
    assert (K1 : Dict.keys d1 = Dict.keys (prices self))
      by (apply keys_set_present; assumption).
    assert (K2 : Dict.keys d2 = Dict.keys (prices self)).
    { unfold d2. rewrite keys_set_present; trivial. now rewrite K1. }
    assert (L2 : List.length d2 = List.length (prices self)).
    { apply (f_equal (@List.length string)) in K2.
      unfold Dict.keys in K2. now rewrite !length_map in K2. }
    destruct (IH (S i) (mkMarket (use_yfinance self) d2)) as (self' & R & K & Y).
    { cbn [prices]. intros k Hk. rewrite K2. apply Hin. now right. }
    cbn [prices use_yfinance] in R, K, Y. rewrite L2 in R.
    exists self'. split; [exact R|]. split; [now rewrite K, K2 | exact Y].
Qed.

Lemma update_prices_total self :
  exists self',
    update_prices u self = Ok (tt, self')
    /\ Dict.keys (prices self') = Dict.keys (prices self)
    /\ use_yfinance self' = use_yfinance self.
Proof.
  unfold update_prices. apply update_prices_loop_total. auto.
Qed.

(** On a table without duplicate keys the loop reprices entry by entry. *)
Lemma update_prices_loop_wf todo :
  forall done i b,
    Dict.wf (done ++ todo) ->
    update_prices_loop u i (List.length (done ++ todo)) (Dict.keys todo)
      (mkMarket b (done ++ todo))
    = Ok (tt, mkMarket b (done ++ repriced u i todo)).
Proof.
  induction todo as [|[k p] todo IH]; intros done i b Hwf; simpl.
  - unfold prices_iter_check. cbn [prices]. now rewrite Nat.eqb_refl.
  - assert (Hk : ~ In k (Dict.keys done)).
    { unfold Dict.wf, Dict.keys in Hwf. rewrite map_app in Hwf. simpl in Hwf.
      apply NoDup_remove_2 in Hwf. intros H. apply Hwf.
      apply in_or_app. now left. }
    unfold bind at 1. unfold prices_iter_check at 1. cbn [prices].
    rewrite Nat.eqb_refl.
    unfold bind at 1. unfold prices_getitem at 1. cbn [prices].
    rewrite get_app_fresh by assumption. simpl Dict.get at 1.
    rewrite String.eqb_refl.
    unfold bind at 1. unfold prices_setitem at 1. cbn [prices use_yfinance].
    rewrite set_app_fresh by assumption. simpl Dict.set at 1.
    rewrite String.eqb_refl.
    unfold bind at 1. unfold prices_getitem at 1. cbn [prices].
    rewrite get_app_fresh by assumption. simpl Dict.get at 1.
    rewrite String.eqb_refl.
    unfold bind at 1. unfold prices_setitem at 1. cbn [prices use_yfinance].
    rewrite set_app_fresh by assumption. simpl Dict.set at 1.
    rewrite String.eqb_refl.
    set (q := Float64.round _ 2).
    specialize (IH (done ++ [(k, q)]) (S i) b).
    rewrite <- !app_assoc in IH. simpl in IH.
    replace (List.length (done ++ (k, p) :: todo))
      with (List.length (done ++ (k, q) :: todo))
      by (rewrite !length_app; reflexivity).
    apply IH.
    unfold Dict.wf, Dict.keys in *. rewrite map_app in *. exact Hwf.
Qed.

Lemma update_prices_wf self :
  Dict.wf (prices self) ->
  update_prices u self
  = Ok (tt, mkMarket (use_yfinance self) (repriced u 0 (prices self))).
Proof.
  intros Hwf. destruct self as [b d]. unfold update_prices. cbn [prices use_yfinance].
  apply (update_prices_loop_wf d [] 0%nat b Hwf).
Qed.

Lemma keys_repriced d :
  forall i, Dict.keys (repriced u i d) = Dict.keys d.
Proof.
  induction d as [|[k p] d IH]; intros i; simpl; trivial.
  now rewrite IH.
Qed.

Lemma get_repriced d :
  forall i n symbol p,
    Dict.wf d ->
    nth_error d n = Some (symbol, p) ->
    Dict.get symbol (repriced u i d)
    = Some (Float64.round
              (Float64.mul p
                 (Float64.add (Float64.of_Z 1) (shock (u (i + n)%nat)))) 2).
Proof.
  induction d as [|[k q] d IH]; intros i n symbol p Hwf Hn.
  - destruct n; discriminate.
  - destruct n as [|n]; simpl in Hn.
    + injection Hn as -> ->. simpl. rewrite String.eqb_refl.
      now rewrite Nat.add_0_r.
    + unfold Dict.wf in Hwf. simpl in Hwf. inversion Hwf as [|? ? Hnotin Hnd]; subst.
      simpl. destruct (String.eqb_spec symbol k) as [->|Hne].
      * exfalso. apply Hnotin.
        apply nth_error_In in Hn. apply (in_map fst) in Hn. exact Hn.
      * rewrite (IH (S i) n symbol p Hnd Hn).
        now replace (S i + n)%nat with (i + S n)%nat by lia.
Qed.

End UpdatePrices.

(** A key other than the one written is absent after [d[k] = v] when it was
    absent before. *)
Lemma absent_after_set {V : Type} (d : Dict.dict V) k k' (v : V) :
  k' <> k -> Dict.get k' d = None -> Dict.get k' (Dict.set k v d) = None.
Proof. intros Hne H. now rewrite get_set_other. Qed.

Lemma absent_after_update_prices u self self' symbol :
  update_prices u self = Ok (tt, self') ->
  Dict.get symbol (prices self) = None ->
  Dict.get symbol (prices self') = None.
Proof.
  intros R H. destruct (update_prices_total u self) as (s2 & R2 & K & _).
  rewrite R2 in R. injection R as <-.
  apply get_None_not_In. rewrite K. now apply get_None_not_In.
Qed.

(** A sequence of calls without [simulate_movement(symbol)] runs to the end
    and leaves an absent [symbol] absent. *)
Lemma exec_all_keeps_absent symbol cs :
  (forall r, ~ In (SimulateMovement r symbol) cs) ->
  forall self,
    Dict.get symbol (prices self) = None ->
    exists self',
      exec_all cs self = Ok (tt, self')
      /\ Dict.get symbol (prices self') = None.
Proof.
  induction cs as [|c cs IH]; intros Hcs self Habs.
  - exists self. split; [reflexivity | assumption].
  - assert (Hcs' : forall r, ~ In (SimulateMovement r symbol) cs).
    { intros r H. apply (Hcs r). now right. }
    assert (Step : exists self1,
               exec c self = Ok (tt, self1)
               /\ Dict.get symbol (prices self1) = None).
    { destruct c as [t | ts | r t | u]; simpl.
      - exists self. split; [reflexivity | assumption].
      - destruct (get_snapshot_pure ts self) as [snap E].
        exists self. unfold bind. rewrite E. split; [reflexivity | assumption].
      - destruct (simulate_movement_run r t self) as (m & _ & E).
        cbv zeta in E. eexists. unfold bind. rewrite E.
        split; [reflexivity|]. cbn [prices].
        apply absent_after_set; trivial.
        intros ->. apply (Hcs r). now left.
      - destruct (update_prices_total u self) as (self1 & E & _).
        exists self1. split; [exact E|].
        eapply absent_after_update_prices; eassumption. }
    destruct Step as (self1 & E1 & A1).
    destruct (IH Hcs' self1 A1) as (self' & E & A).
    exists self'. split; [|exact A].
    simpl. unfold bind. now rewrite E1.
Qed.

(* ================================================================== *)
(** * The properties of the specification *)
(* ================================================================== *)

(** C1, as stated, fails: from the seed table, [simulate_movement('DOGE')]
    with the step [+0.01] returns the rounded price [0.15] but stores the
    unrounded product [0.15 * 1.01 = 0.1515...]. *)
Lemma simulate_movement_DOGE_stores_unrounded :
  exists self',
    simulate_movement 1 "DOGE" (init false)
    = Ok ((decimal 15 2, decimal 1 2), self')
    /\ Dict.get "DOGE" (prices self')
       = Some (S754_finite false 5458362748373041 (-55))
    /\ Dict.get "DOGE" (prices self') <> Some (decimal 15 2).
Proof.
  eexists. split; [vm_compute; reflexivity|].
  split; [reflexivity|]. vm_compute. discriminate.
Qed.

(** C1, amended: for every table and every symbol, [simulate_movement]
    stores the product [price * (1 + movement)] as it is, [price] being the
    stored price or the fallback and [movement] one of the two steps; it
    returns that product rounded to 2 decimals, and the step. *)
Theorem simulate_movement_stores_product self r symbol :
  exists movement self',
    (movement = decimal 1 2 \/ movement = Float64.neg (decimal 1 2))
    /\ let new_price :=
         Float64.mul (Dict.get_default symbol fallback (prices self))
           (Float64.add (Float64.of_Z 1) movement) in
       simulate_movement r symbol self
       = Ok ((Float64.round new_price 2, movement), self')
       /\ Dict.get symbol (prices self') = Some new_price.
Proof.
  destruct (simulate_movement_run r symbol self) as (m & Hm & E).
  cbv zeta in E. exists m. eexists. split.
  - destruct (random_choice_steps r) as [H|H]; rewrite H in Hm;
      injection Hm as <-; auto.
  - cbv zeta. split; [exact E|]. cbn [prices]. apply get_set_same.
Qed.

(** C2, as stated, fails: on the seed table, neither [get_price('ZZZ')] nor
    [get_snapshot(['ZZZ'])] makes ['ZZZ'] a key of the price table. *)
Lemma query_ZZZ_leaves_it_absent :
  (exists v self',
      get_price "ZZZ" (init false) = Ok (v, self')
      /\ Dict.contains "ZZZ" (prices self') = false)
  /\ (exists snapshot self',
         get_snapshot ["ZZZ"] (init false) = Ok (snapshot, self')
         /\ Dict.contains "ZZZ" (prices self') = false).
Proof.
  split; do 2 eexists; (split; [vm_compute; reflexivity | reflexivity]).
Qed.

(** C2, amended: for every table and every symbol [s], [get_price(s)] and
    [get_snapshot([s])] answer with the stored price of [s], or with the
    fallback 100.0 when [s] is not a key, and leave the table as it was:
    the lookup is total, the table stays partial, and [s] is a key
    afterwards exactly when it was one before. *)
Theorem query_is_total_and_inserts_nothing self s :
  exists self1 self2,
    get_price s self
    = Ok (Dict.get_default s fallback (prices self), self1)
    /\ get_snapshot [s] self
       = Ok ([(s, quote (Float64.round
                           (Dict.get_default s fallback (prices self)) 2))],
             self2)
    /\ prices self1 = prices self
    /\ prices self2 = prices self
    /\ Dict.contains s (prices self1) = Dict.contains s (prices self)
    /\ Dict.contains s (prices self2) = Dict.contains s (prices self).
Proof.
  exists self, self. rewrite get_price_run, get_snapshot_one. tauto.
Qed.

(** C3, as stated, fails: after two [-0.01] steps on DOGE from the seed
    table the stored price is [0.147015...]; an [update_prices()] whose
    draws of [random()] are all [0.9999] then stores [0.15], which is more
    than 2% away. *)
Lemma update_prices_DOGE_exceeds_2_percent :
  exists self self',
    exec_all [SimulateMovement 0 "DOGE"; SimulateMovement 0 "DOGE"]
      (init false) = Ok (tt, self)
    /\ Dict.get "DOGE" (prices self)
       = Some (S754_finite false 5296773593742987 (-55))
    /\ update_prices (fun _ => decimal 9999 4) self = Ok (tt, self')
    /\ Dict.get "DOGE" (prices self') = Some (decimal 15 2)
    /\ ~ within_2_percent
           (S754_finite false 5296773593742987 (-55)) (decimal 15 2).
Proof.
  eexists. eexists.
  split; [vm_compute; reflexivity|].
  split; [reflexivity|].
  split; [vm_compute; reflexivity|].
  split; [reflexivity|].
  unfold within_2_percent. vm_compute. intros H. apply H. reflexivity.
Qed.

(** C3, amended: for every table without duplicate keys and every symbol
    [s] at position [n] with pre-call price [p], one call of
    [update_prices()] stores for [s] the product [p * (1 + m)] rounded to
    2 decimals, [m] being the [n]-th draw of [random.uniform(-0.02, 0.02)];
    when [p] is finite, the draw of [random()] is in [[0, 1]] and the stored
    price is finite, it differs from [p] by at most 2% of [p] plus half a
    cent, up to a relative rounding error of [10^-15]; and the list of keys
    is as it was (no key added, none removed). *)
Theorem update_prices_rounds_shocked_price self u n s p :
  Dict.wf (prices self) ->
  nth_error (prices self) n = Some (s, p) ->
  exists self' new,
    update_prices u self = Ok (tt, self')
    /\ Dict.keys (prices self') = Dict.keys (prices self)
    /\ Dict.get s (prices self') = Some new
    /\ new = Float64.round
               (Float64.mul p
                  (Float64.add (Float64.of_Z 1)
                     (random_uniform (u n)
                        (Float64.neg (decimal 2 2)) (decimal 2 2)))) 2
    /\ (Float64.is_finite p = true ->
        unit_draw (u n) ->
        Float64.is_finite new = true ->
        within_2_percent_and_half_a_cent p new).
Proof.
  intros Hwf Hn. do 2 eexists.
  split; [apply update_prices_wf; exact Hwf|].
  cbn [prices]. split; [apply keys_repriced|].
  split; [apply (get_repriced u (prices self) 0 n s p Hwf Hn)|].
  split; [reflexivity|].
  intros Fp Hu Fnew. apply Float64Facts.repriced_bound; assumption.
Qed.

(** C3, amended, at TSLA on the seed table, every draw of [random()] being
    [0.9999]. *)
Lemma update_prices_rounds_shocked_price_witness :
  exists self' new,
    update_prices (fun _ => decimal 9999 4) (init false) = Ok (tt, self')
    /\ Dict.keys (prices self') = Dict.keys (prices (init false))
    /\ Dict.get "TSLA" (prices self') = Some new
    /\ new = Float64.round
               (Float64.mul (decimal 2500 1)
                  (Float64.add (Float64.of_Z 1)
                     (random_uniform (decimal 9999 4)
                        (Float64.neg (decimal 2 2)) (decimal 2 2)))) 2
    /\ within_2_percent_and_half_a_cent (decimal 2500 1) new.
Proof.
  destruct (update_prices_rounds_shocked_price
              (init false) (fun _ => decimal 9999 4) 1 "TSLA" (decimal 2500 1))
    as (self' & new & R & K & G & E & B).
  - unfold Dict.wf. simpl.
    repeat (constructor; [simpl; intuition discriminate|]). constructor.
  - reflexivity.
  - exists self', new. repeat (split; [assumption|]).
    apply B.
    + reflexivity.
    + split; [reflexivity|]. split; vm_compute; discriminate.
    + rewrite E. vm_compute. reflexivity.
Defined.

(** C4: from the seed table, where AAPL is at [180.0],
    [simulate_movement('AAPL')] returns a step that is [0.01] or [-0.01] and
    the price [round(180.0 * (1 + step), 2)]; a second call starts from the
    price that the first one stored, and its result is not the one that the
    seed price would give. *)
Theorem simulate_movement_AAPL_twice b r1 r2 :
  exists m1 p1 self1 m2 p2 self2,
    simulate_movement r1 "AAPL" (init b) = Ok ((p1, m1), self1)
    /\ (m1 = decimal 1 2 \/ m1 = Float64.neg (decimal 1 2))
    /\ p1 = Float64.round
              (Float64.mul (decimal 1800 1)
                 (Float64.add (Float64.of_Z 1) m1)) 2
    /\ simulate_movement r2 "AAPL" self1 = Ok ((p2, m2), self2)
    /\ (m2 = decimal 1 2 \/ m2 = Float64.neg (decimal 1 2))
    /\ (exists stored,
           Dict.get "AAPL" (prices self1) = Some stored
           /\ p2 = Float64.round
                     (Float64.mul stored
                        (Float64.add (Float64.of_Z 1) m2)) 2)
    /\ p2 <> Float64.round
               (Float64.mul (decimal 1800 1)
                  (Float64.add (Float64.of_Z 1) m2)) 2.
Proof.
  destruct (simulate_movement_run r1 "AAPL" (init b)) as (m1 & C1 & E1).
  cbv zeta in E1.
  set (stored := Float64.mul (Dict.get_default "AAPL" fallback (prices (init b)))
                   (Float64.add (Float64.of_Z 1) m1)) in E1.
  set (self1 := mkMarket (use_yfinance (init b))
                  (Dict.set "AAPL" stored (prices (init b)))) in E1.
  destruct (simulate_movement_run r2 "AAPL" self1) as (m2 & C2 & E2).
  cbv zeta in E2.
  assert (G : Dict.get_default "AAPL" fallback (prices self1) = stored).
  { unfold Dict.get_default, self1. cbn [prices]. now rewrite get_set_same. }
  rewrite G in E2.
  assert (S0 : stored = Float64.mul (decimal 1800 1)
                          (Float64.add (Float64.of_Z 1) m1)) by reflexivity.
  assert (H1 : m1 = decimal 1 2 \/ m1 = Float64.neg (decimal 1 2)).
  { destruct (random_choice_steps r1) as [H|H]; rewrite H in C1;
      injection C1 as <-; auto. }
  assert (H2 : m2 = decimal 1 2 \/ m2 = Float64.neg (decimal 1 2)).
  { destruct (random_choice_steps r2) as [H|H]; rewrite H in C2;
      injection C2 as <-; auto. }
  exists m1, (Float64.round stored 2), self1, m2.
  eexists. eexists.
  split; [exact E1|]. split; [exact H1|]. split; [now rewrite S0|].
  split; [exact E2|]. split; [exact H2|]. split.
  - exists stored. split; [|reflexivity].
    unfold self1. cbn [prices]. apply get_set_same.
  - rewrite S0. destruct H1 as [-> | ->]; destruct H2 as [-> | ->];
      vm_compute; discriminate.
Qed.

(** C5: for a symbol [s] outside the seed set, [get_price(s)] is exactly
    [100.0] after any sequence of calls of the four methods from the seed
    table in which [simulate_movement(s)] does not occur; repeated
    [get_price] and [get_snapshot] calls, movements of other symbols and
    [update_prices()] (of which [s] is not part) do not change it. *)
Theorem fallback_price_persists b s cs :
  ~ In s (Dict.keys seed_prices) ->
  (forall r, ~ In (SimulateMovement r s) cs) ->
  exists self,
    exec_all cs (init b) = Ok (tt, self)
    /\ get_price s self = Ok (decimal 1000 1, self).
Proof.
  intros Hseed Hcs.
  destruct (exec_all_keeps_absent s cs Hcs (init b)) as (self & E & A).
  { apply get_None_not_In. exact Hseed. }
  exists self. split; [exact E|].
  rewrite get_price_run. unfold Dict.get_default. now rewrite A.
Qed.

(** C5 at ['ZZZ'], through queries, a movement of AAPL and an update. *)
Lemma fallback_price_persists_witness :
  exists self,
    exec_all [GetPrice "ZZZ"; GetSnapshot ["ZZZ"; "AAPL"];
              SimulateMovement 0 "AAPL"; UpdatePrices (fun _ => decimal 5 1);
              GetPrice "ZZZ"]
      (init false) = Ok (tt, self)
    /\ get_price "ZZZ" self = Ok (decimal 1000 1, self).
Proof.
  apply (fallback_price_persists false "ZZZ").
  - simpl. intuition discriminate.
  - intros r. simpl. intuition discriminate.
Defined.

(** C6: for every table and every symbol [s], with no mutation in between,
    [get_snapshot([s])[s]['price']] is [round(get_price(s), 2)]. *)
Theorem snapshot_price_is_rounded_get_price self s :
  exists snapshot v entry,
    get_snapshot [s] self = Ok (snapshot, self)
    /\ get_price s self = Ok (v, self)
    /\ getitem s snapshot = Ok entry
    /\ getitem "price" entry = Ok (Float64.round v 2).
Proof.
  rewrite get_snapshot_one, get_price_run.
  do 3 eexists. split; [reflexivity|]. split; [reflexivity|].
  unfold getitem. simpl. rewrite String.eqb_refl.
  split; reflexivity.
Qed.

(** C7: [get_price] and [get_snapshot] return the object as they received
    it, and [simulate_movement(s)] changes no entry of the price table
    other than the one of [s] (and not the other attribute). *)
Theorem reads_are_pure_and_movement_is_local self r s symbols t :
  t <> s ->
  (exists v, get_price s self = Ok (v, self))
  /\ (exists snapshot, get_snapshot symbols self = Ok (snapshot, self))
  /\ (exists res self',
         simulate_movement r s self = Ok (res, self')
         /\ use_yfinance self' = use_yfinance self
         /\ Dict.get t (prices self') = Dict.get t (prices self)).
Proof.
  intros Hts. split; [|split].
  - eexists. apply get_price_run.
  - apply get_snapshot_pure.
  - destruct (simulate_movement_run r s self) as (m & _ & E).
    cbv zeta in E. do 2 eexists. split; [exact E|].
    cbn [prices use_yfinance]. split; [reflexivity|].
    now apply get_set_other.
Qed.

(** C7 at BTC on the seed table, ETH being the other entry. *)
Lemma reads_are_pure_and_movement_is_local_witness :
  (exists v, get_price "BTC" (init false) = Ok (v, init false))
  /\ (exists snapshot,
         get_snapshot ["BTC"; "ZZZ"] (init false) = Ok (snapshot, init false))
  /\ (exists res self',
         simulate_movement 1 "BTC" (init false) = Ok (res, self')
         /\ use_yfinance self' = use_yfinance (init false)
         /\ Dict.get "ETH" (prices self')
            = Dict.get "ETH" (prices (init false))).
Proof.
  apply (reads_are_pure_and_movement_is_local
           (init false) 1 "BTC" ["BTC"; "ZZZ"] "ETH").
  discriminate.
Defined.

(** C8: none of the four methods raises, on any table: [get_price] and
    [simulate_movement] return for every symbol, [get_snapshot] for every
    sequence of symbols, the empty one included, and [update_prices] for
    every sequence of draws. *)
Theorem methods_never_raise self :
  (forall s, exists v self', get_price s self = Ok (v, self'))
  /\ (forall symbols, exists snapshot self',
         get_snapshot symbols self = Ok (snapshot, self'))
  /\ get_snapshot [] self = Ok ([], self)
  /\ (forall r s, exists res self',
         simulate_movement r s self = Ok (res, self'))
  /\ (forall u, exists self', update_prices u self = Ok (tt, self')).
Proof.
  split; [|split; [|split; [|split]]].
  - intros s. do 2 eexists. apply get_price_run.
  - intros symbols. destruct (get_snapshot_pure symbols self) as [snap E].
    now exists snap, self.
  - reflexivity.
  - intros r s. destruct (simulate_movement_run r s self) as (m & _ & E).
    cbv zeta in E. do 2 eexists. exact E.
  - intros u. destruct (update_prices_total u self) as (self' & E & _).
    now exists self'.
Qed.

(** C9: for every table and every symbol [s], [simulate_movement(s)]
    returns a pair [(p, m)], and a [get_snapshot([s])] right after it gives
    [p] as the price of [s]: [p] is the rounding to 2 decimals of the value
    then stored for [s]. *)
Theorem snapshot_after_movement_agrees self r s :
  exists p m self' stored,
    simulate_movement r s self = Ok ((p, m), self')
    /\ Dict.get s (prices self') = Some stored
    /\ p = Float64.round stored 2
    /\ get_snapshot [s] self' = Ok ([(s, quote p)], self').
Proof.
  destruct (simulate_movement_run r s self) as (m & _ & E).
  cbv zeta in E. do 4 eexists. split; [exact E|].
  cbn [prices]. split; [apply get_set_same|]. split; [reflexivity|].
  rewrite get_snapshot_one. cbn [prices].
  unfold Dict.get_default. now rewrite get_set_same.
Qed.

(** C10: for a symbol [s] that is not a key of the table,
    [simulate_movement(s)] makes it one, appended with the price
    [100.0 * (1 + m)] for the chosen step [m], whereas after [get_price(s)],
    [get_snapshot([s])] or [update_prices()] it is still not a key. *)
Theorem only_simulate_movement_adds_a_key self r u s :
  Dict.get s (prices self) = None ->
  (exists p m self',
      simulate_movement r s self = Ok ((p, m), self')
      /\ Dict.get s (prices self')
         = Some (Float64.mul (decimal 1000 1)
                   (Float64.add (Float64.of_Z 1) m))
      /\ Dict.keys (prices self') = Dict.keys (prices self) ++ [s])
  /\ (exists v self',
         get_price s self = Ok (v, self')
         /\ Dict.get s (prices self') = None)
  /\ (exists snapshot self',
         get_snapshot [s] self = Ok (snapshot, self')
         /\ Dict.get s (prices self') = None)
  /\ (exists self',
         update_prices u self = Ok (tt, self')
         /\ Dict.get s (prices self') = None).
Proof.
  intros Habs. split; [|split; [|split]].
  - destruct (simulate_movement_run r s self) as (m & _ & E).
    cbv zeta in E. unfold Dict.get_default in E. rewrite Habs in E.
    do 3 eexists. split; [exact E|]. cbn [prices].
    split; [apply get_set_same | now apply keys_set_absent].
  - do 2 eexists. split; [apply get_price_run | exact Habs].
  - do 2 eexists. split; [apply get_snapshot_one | exact Habs].
  - destruct (update_prices_total u self) as (self' & E & _).
    exists self'. split; [exact E|].
    eapply absent_after_update_prices; eassumption.
Qed.

(** C10 at ['ZZZ'] on the seed table. *)
Lemma only_simulate_movement_adds_a_key_witness :
  (exists p m self',
      simulate_movement 0 "ZZZ" (init false) = Ok ((p, m), self')
      /\ Dict.get "ZZZ" (prices self')
         = Some (Float64.mul (decimal 1000 1)
                   (Float64.add (Float64.of_Z 1) m))
      /\ Dict.keys (prices self') = Dict.keys (prices (init false)) ++ ["ZZZ"])
  /\ (exists v self',
         get_price "ZZZ" (init false) = Ok (v, self')
         /\ Dict.get "ZZZ" (prices self') = None)
  /\ (exists snapshot self',
         get_snapshot ["ZZZ"] (init false) = Ok (snapshot, self')
         /\ Dict.get "ZZZ" (prices self') = None)
  /\ (exists self',
         update_prices (fun _ => decimal 5 1) (init false) = Ok (tt, self')
         /\ Dict.get "ZZZ" (prices self') = None).
Proof.
  apply (only_simulate_movement_adds_a_key
           (init false) 0 (fun _ => decimal 5 1) "ZZZ").
  reflexivity.
Defined.

(* ================================================================== *)
(** * Further properties of the price table *)
(* ================================================================== *)

Lemma wf_set {V : Type} (d : Dict.dict V) k (v : V) :
  Dict.wf d -> Dict.wf (Dict.set k v d).
Proof.
  unfold Dict.wf. intros H.
  destruct (Dict.get k d) as [x|] eqn:E.
  - rewrite keys_set_present; trivial.
    destruct (in_dec string_dec k (Dict.keys d)) as [I|N]; trivial.
    apply get_None_not_In in N. congruence.
  - rewrite keys_set_absent by assumption.
    apply NoDup_app; trivial.
    + repeat constructor. intros [].
    + intros x Hx [<-|[]]. apply get_None_not_In in E. tauto.
Qed.

Lemma wf_nil {V : Type} : Dict.wf (@nil (string * V)).
Proof. constructor. Qed.

(** The loop of [get_snapshot] adds the requested symbols to the snapshot
    built so far. *)
Lemma get_snapshot_loop_lookup symbols :
  forall snapshot self,
    Dict.wf snapshot ->
    exists snapshot',
      get_snapshot_loop symbols snapshot self = Ok (snapshot', self)
      /\ Dict.wf snapshot'
      /\ forall s,
           Dict.get s snapshot'
           = if in_dec string_dec s symbols
             then Some (quote (Float64.round
                                 (Dict.get_default s fallback (prices self))
                                 2))
             else Dict.get s snapshot.
Proof.
  induction symbols as [|symbol rest IH]; intros snapshot self Hwf.
  - exists snapshot. split; [reflexivity|]. split; [exact Hwf|].
    intros s. reflexivity.
  - cbn [get_snapshot_loop]. unfold bind, prices_get.
    destruct (IH (Dict.set symbol
                    (quote (Float64.round
                              (Dict.get_default symbol fallback (prices self))
                              2)) snapshot) self (wf_set _ _ _ Hwf))
      as (snap & E & W & L).
    exists snap. split; [exact E|]. split; [exact W|].
    intros s. rewrite L.
    destruct (in_dec string_dec s rest) as [I|N];
      destruct (in_dec string_dec s (symbol :: rest)) as [I'|N'];
      trivial.
    + exfalso. apply N'. now right.
    + destruct I' as [<-|I']; [|contradiction].
      apply get_set_same.
    + rewrite get_set_other; trivial.
      intros ->. apply N'. now left.
Qed.

(** X1: for every table and every list of symbols, [get_snapshot] returns,
    leaves the table as it is, and gives a dict without duplicate keys that
    holds, for each requested symbol and for no other key, the stored price
    (or the fallback) rounded to 2 decimals. *)
Theorem get_snapshot_lookup symbols self :
  exists snapshot,
    get_snapshot symbols self = Ok (snapshot, self)
    /\ Dict.wf snapshot
    /\ forall s,
         Dict.get s snapshot
         = if in_dec string_dec s symbols
           then Some (quote (Float64.round
                               (Dict.get_default s fallback (prices self))
                               2))
           else None.
Proof.
  apply (get_snapshot_loop_lookup symbols [] self wf_nil).
Qed.

(** X2: two requests for the same symbols, in any order and with any
    repetitions, give snapshots that agree at every key. *)
Theorem get_snapshot_order_irrelevant symbols symbols' self :
  (forall s, In s symbols <-> In s symbols') ->
  exists snapshot snapshot',
    get_snapshot symbols self = Ok (snapshot, self)
    /\ get_snapshot symbols' self = Ok (snapshot', self)
    /\ forall s, Dict.get s snapshot = Dict.get s snapshot'.
Proof.
  intros Same.
  destruct (get_snapshot_loop_lookup symbols [] self wf_nil)
    as (a & Ea & _ & La).
  destruct (get_snapshot_loop_lookup symbols' [] self wf_nil)
    as (b & Eb & _ & Lb).
  exists a, b. split; [exact Ea|]. split; [exact Eb|].
  intros s. rewrite La, Lb.
  destruct (in_dec string_dec s symbols) as [I|N];
    destruct (in_dec string_dec s symbols') as [I'|N']; trivial.
  - apply Same in I. contradiction.
  - apply Same in I'. contradiction.
Qed.

(** X2 at two orders of three symbols, one of them repeated. *)
Lemma get_snapshot_order_irrelevant_witness :
  exists snapshot snapshot',
    get_snapshot ["AAPL"; "ZZZ"; "BTC"; "AAPL"] (init false)
    = Ok (snapshot, init false)
    /\ get_snapshot ["BTC"; "AAPL"; "ZZZ"] (init false)
       = Ok (snapshot', init false)
    /\ forall s, Dict.get s snapshot = Dict.get s snapshot'.
Proof.
  apply (get_snapshot_order_irrelevant
           ["AAPL"; "ZZZ"; "BTC"; "AAPL"] ["BTC"; "AAPL"; "ZZZ"]).
  intros s. simpl. tauto.
Defined.

(** One call keeps the keys it finds, in their order, and adds at most the
    symbol of a [simulate_movement]. *)
Lemma exec_appends_keys c self :
  Dict.wf (prices self) ->
  exists self' added,
    exec c self = Ok (tt, self')
    /\ use_yfinance self' = use_yfinance self
    /\ Dict.wf (prices self')
    /\ Dict.keys (prices self') = Dict.keys (prices self) ++ added
    /\ Forall (fun s => exists r, c = SimulateMovement r s) added.
Proof.
  intros Hwf. destruct c as [t | ts | r t | u]; cbn [exec].
  - exists self, []. rewrite app_nil_r. unfold bind. cbn.
    repeat split; trivial.
  - destruct (get_snapshot_pure ts self) as [snap E].
    exists self, []. unfold bind. rewrite E, app_nil_r.
    repeat split; trivial.
  - destruct (simulate_movement_run r t self) as (m & _ & E).
    cbv zeta in E. unfold bind. rewrite E. cbn [ret].
    destruct (Dict.get t (prices self)) as [x|] eqn:G.
    + eexists. exists []. split; [reflexivity|]. cbn [prices use_yfinance].
      split; [reflexivity|]. split; [now apply wf_set|].
      split; [|constructor]. rewrite app_nil_r.
      apply keys_set_present.
      destruct (in_dec string_dec t (Dict.keys (prices self))) as [I|N]; trivial.
      apply get_None_not_In in N. congruence.
    + eexists. exists [t]. split; [reflexivity|]. cbn [prices use_yfinance].
      split; [reflexivity|]. split; [now apply wf_set|].
      split; [now apply keys_set_absent|].
      constructor; [|constructor]. now exists r.
  - destruct (update_prices_total u self) as (self' & E & K & Y).
    exists self', []. rewrite app_nil_r. split; [exact E|].
    split; [exact Y|]. split; [unfold Dict.wf; now rewrite K|].
    split; [exact K | constructor].
Qed.

(** X3: from a table without duplicate keys, every sequence of calls of the
    four methods runs to its end, never removes or reorders a key and never
    touches [use_yfinance]: the keys afterwards are the keys before followed
    by symbols that a [simulate_movement] of the sequence named, still
    without duplicates. *)
Theorem calls_only_append_keys cs self :
  Dict.wf (prices self) ->
  exists self' added,
    exec_all cs self = Ok (tt, self')
    /\ use_yfinance self' = use_yfinance self
    /\ Dict.wf (prices self')
    /\ Dict.keys (prices self') = Dict.keys (prices self) ++ added
    /\ Forall (fun s => exists r, In (SimulateMovement r s) cs) added.
Proof.
  revert self. induction cs as [|c cs IH]; intros self Hwf.
  - exists self, []. rewrite app_nil_r. repeat split; trivial.
  - destruct (exec_appends_keys c self Hwf) as (s1 & a1 & E1 & Y1 & W1 & K1 & F1).
    destruct (IH s1 W1) as (s2 & a2 & E2 & Y2 & W2 & K2 & F2).
    exists s2, (a1 ++ a2). cbn [exec_all]. unfold bind. rewrite E1.
    split; [exact E2|]. split; [congruence|]. split; [exact W2|].
    split; [rewrite K2, K1; now rewrite app_assoc|].
    apply Forall_app. split.
    + eapply Forall_impl; [|exact F1]. intros s [r ->]. exists r. now left.
    + eapply Forall_impl; [|exact F2]. intros s [r I]. exists r. now right.
Qed.

(** X3 on the seed table. *)
Lemma calls_only_append_keys_witness :
  exists self' added,
    exec_all [SimulateMovement 1 "ZZZ"; UpdatePrices (fun _ => decimal 5 1);
              GetSnapshot ["QQQ"]; SimulateMovement 0 "AAPL"]
      (init false) = Ok (tt, self')
    /\ use_yfinance self' = use_yfinance (init false)
    /\ Dict.wf (prices self')
    /\ Dict.keys (prices self') = Dict.keys (prices (init false)) ++ added
    /\ Forall (fun s => exists r,
                   In (SimulateMovement r s)
                     [SimulateMovement 1 "ZZZ";
                      UpdatePrices (fun _ => decimal 5 1);
                      GetSnapshot ["QQQ"]; SimulateMovement 0 "AAPL"])
         added.
Proof.
  apply (calls_only_append_keys _ (init false)).
  unfold Dict.wf. simpl.
  repeat (constructor; [simpl; intuition discriminate|]). constructor.
Defined.

(* ================================================================== *)
(** * The size of one movement *)
(* ================================================================== *)

Section Movement.
Import Float64Facts.
Local Open Scope Q_scope.

Lemma ten_100_small : inject_Z (10 ^ 100) * 4 <= Float64.pow2 960.
Proof. vm_compute. discriminate. Qed.

(** Rounding a float of moderate size to two decimals does not overflow. *)
Lemma round_finite x K :
  Float64.is_finite x = true ->
  Qabs (Float64.to_Q x) <= K ->
  K <= Float64.pow2 960 ->
  Float64.is_finite (Float64.round x 2) = true.
Proof.
  intros Fx HK K960.
  destruct x as [s|s| |s m e]; try discriminate; unfold Float64.round;
    trivial.
  destruct (scaled_half_even_spec m e) as [N A].
  rewrite to_Q_finite, Qabs_sgn in HK.
  set (M := inject_Z (Z.pos m) * Float64.pow2 e) in *.
  assert (M0 : 0 <= M).
  { pose proof (pow2_pos e). pose proof (inject_Z_nonneg (Z.pos m) ltac:(lia)).
    unfold M. nra. }
  rewrite (Qabs_pos M M0) in HK. apply Qabs_Qle_condition in A.
  destruct (Float64.scaled_half_even m e 2) as [|n|n]; [reflexivity| |lia].
  change (Pos.pow 10 (Pos.of_nat 2)) with 100%positive.
  destruct (of_ratio_spec s n 100) as [[F _]|[_ B]]; [exact F|].
  exfalso. cbv zeta in B.
  set (t := inject_Z (Z.pos n) / inject_Z 100) in *.
  assert (T : t * 100 == inject_Z (Z.pos n)).
  { unfold t. change (inject_Z 100) with 100. field. }
  assert (P : Float64.pow2 970 == 1024 * Float64.pow2 960).
  { change 970%Z with (10 + 960)%Z. rewrite pow2_add. reflexivity. }
  pose proof (pow2_pos 960) as P960.
  assert (One : 1 <= Float64.pow2 960).
  { rewrite <- pow2_0. apply pow2_le. lia. }
  clearbody t M. lra.
Qed.

Lemma to_Q_up :
  Float64.to_Q (Float64.add (Float64.of_Z 1) (decimal 1 2))
  == 4548635623644201 # 4503599627370496.
Proof. reflexivity. Qed.

Lemma to_Q_down :
  Float64.to_Q (Float64.add (Float64.of_Z 1) (Float64.neg (decimal 1 2)))
  == 8917127262193582 # 9007199254740992.
Proof. reflexivity. Qed.

(** The product of a moderate price with a factor near 1. *)
Lemma scaled_price p w step :
  moderate p ->
  Float64.is_finite w = true ->
  0 <= Float64.to_Q w <= 2 ->
  Qabs (Float64.to_Q w - (1 + step)) <= 1 # 2000000000000000 ->
  Float64.is_finite (Float64.mul p w) = true
  /\ moved_by step p (Float64.mul p w)
  /\ Qabs (Float64.to_Q (Float64.mul p w)) <= inject_Z (10 ^ 100) * 3.
Proof.
  intros [Fp Hp] Fw [W0 W2] Hw.
  pose proof ten_100_small as T100.
  pose proof (pow2_pos 960) as P960.
  assert (P : Float64.pow2 970 == 1024 * Float64.pow2 960).
  { change 970%Z with (10 + 960)%Z. rewrite pow2_add. reflexivity. }
  pose proof pow2_m53 as D1. pose proof pow2_m1075 as D2.
  pose proof (pow2_pos (-53)) as D3. pose proof (pow2_pos (-1075)) as D4.
  pose proof (Qabs_nonneg (Float64.to_Q p)) as A0.
  assert (PW : Qabs (Float64.to_Q p * Float64.to_Q w)
               <= Qabs (Float64.to_Q p) * 2).
  { apply Qabs_le_mult; [apply Qle_refl|]. apply Qabs_Qle_condition. lra. }
  assert (PS : Qabs (Float64.to_Q p * (Float64.to_Q w - (1 + step)))
               <= Qabs (Float64.to_Q p) * (1 # 2000000000000000)).
  { apply Qabs_le_mult; [apply Qle_refl | exact Hw]. }
  assert (DPW : Float64.pow2 (-53)
                * Qabs (Float64.to_Q p * Float64.to_Q w)
                <= (2 # 10000000000000000) * (Qabs (Float64.to_Q p) * 2)).
  { apply Qmult_le_compat_nonneg; split; try lra. apply Qabs_nonneg. }
  assert (PWc := PW). apply Qabs_Qle_condition in PWc.
  assert (K1 : 1 <= inject_Z (10 ^ 100)) by (vm_compute; discriminate).
  unfold moved_by.
  destruct (mul_spec p w Fp Fw) as [[F B]|[_ B]]; cbv zeta in B.
  - split; [exact F|].
    set (S := Float64.to_Q (Float64.mul p w)) in *.
    set (P0 := Float64.to_Q p) in *. set (W := Float64.to_Q w) in *.
    set (pw := P0 * W) in *.
    assert (E : P0 * (W - (1 + step)) == pw - (1 + step) * P0)
      by (unfold pw; ring).
    rewrite E in PS.
    set (K := inject_Z (10 ^ 100)) in *.
    set (a := Qabs P0) in *. set (apw := Qabs pw) in *.
    clearbody S pw a apw K.
    apply Qabs_Qle_condition in B. apply Qabs_Qle_condition in PS.
    split; apply Qabs_Qle_condition; split; lra.
  - exfalso. lra.
Qed.

(** X4: for every table in which the price of [symbol] (the stored one, or
    the fallback) is finite and at most [10^100], [simulate_movement]
    stores a finite price that is the old one moved by +1% or by -1%, as
    the returned step says, up to a relative rounding error of [10^-15],
    and returns a finite price within half a cent of the stored one. *)
Theorem simulate_movement_one_percent self r symbol :
  moderate (Dict.get_default symbol fallback (prices self)) ->
  exists shown movement self' stored,
    simulate_movement r symbol self = Ok ((shown, movement), self')
    /\ Dict.get symbol (prices self') = Some stored
    /\ Float64.is_finite stored = true
    /\ Float64.is_finite shown = true
    /\ (movement = decimal 1 2
        /\ moved_by (1 # 100)
             (Dict.get_default symbol fallback (prices self)) stored
        \/ movement = Float64.neg (decimal 1 2)
           /\ moved_by (- (1 # 100))
                (Dict.get_default symbol fallback (prices self)) stored)
    /\ within_half_a_cent stored shown.
Proof.
  intros Hp.
  destruct (simulate_movement_run r symbol self) as (m & Hm & E).
  cbv zeta in E.
  set (p := Dict.get_default symbol fallback (prices self)) in *.
  assert (Step : exists step,
             Float64.is_finite (Float64.add (Float64.of_Z 1) m) = true
             /\ 0 <= Float64.to_Q (Float64.add (Float64.of_Z 1) m) <= 2
             /\ Qabs (Float64.to_Q (Float64.add (Float64.of_Z 1) m)
                      - (1 + step)) <= 1 # 2000000000000000
             /\ (m = decimal 1 2 /\ step = 1 # 100
                 \/ m = Float64.neg (decimal 1 2) /\ step = - (1 # 100))).
  { destruct (random_choice_steps r) as [H|H]; rewrite H in Hm;
      injection Hm as <-.
    - exists (- (1 # 100)). split; [reflexivity|].
      rewrite to_Q_down. split; [split; discriminate|].
      split; [vm_compute; discriminate | right; split; reflexivity].
    - exists (1 # 100). split; [reflexivity|].
      rewrite to_Q_up. split; [split; discriminate|].
      split; [vm_compute; discriminate | left; split; reflexivity]. }
  destruct Step as (step & Fw & Wr & Ws & Hstep).
  destruct (scaled_price p _ step Hp Fw Wr Ws) as (Fs & Mv & Bs).
  set (stored := Float64.mul p (Float64.add (Float64.of_Z 1) m)) in *.
  assert (Fr : Float64.is_finite (Float64.round stored 2) = true).
  { apply (round_finite stored (inject_Z (10 ^ 100) * 3)); trivial.
    pose proof ten_100_small.
    assert (0 <= inject_Z (10 ^ 100)) by (apply inject_Z_nonneg; lia).
    lra. }
  exists (Float64.round stored 2), m. eexists. exists stored.
  split; [exact E|]. cbn [prices].
  split; [apply get_set_same|]. split; [exact Fs|]. split; [exact Fr|].
  split.
  - destruct Hstep as [[-> ->]|[-> ->]]; [left | right]; split; trivial.
  - destruct (round_spec stored Fr) as [_ Br].
    unfold within_half_a_cent.
    pose proof pow2_m53 as D1. pose proof pow2_m1075 as D2.
    pose proof (pow2_pos (-53)) as D3. pose proof (pow2_pos (-1075)) as D4.
    pose proof (Qabs_nonneg (Float64.to_Q stored)) as A0.
    assert (DX : Float64.pow2 (-53)
                 * (Qabs (Float64.to_Q stored) + (1 # 200))
                 <= (2 # 10000000000000000)
                    * (Qabs (Float64.to_Q stored) + (1 # 200))).
    { apply Qmult_le_compat_r; lra. }
    set (a := Qabs (Float64.to_Q stored)) in *.
    set (d := Qabs _) in *. clearbody a d. lra.
Qed.

(** X4 at DOGE on the seed table. *)
Lemma simulate_movement_one_percent_witness :
  exists shown movement self' stored,
    simulate_movement 1 "DOGE" (init false) = Ok ((shown, movement), self')
    /\ Dict.get "DOGE" (prices self') = Some stored
    /\ Float64.is_finite stored = true
    /\ Float64.is_finite shown = true
    /\ (movement = decimal 1 2
        /\ moved_by (1 # 100)
             (Dict.get_default "DOGE" fallback (prices (init false))) stored
        \/ movement = Float64.neg (decimal 1 2)
           /\ moved_by (- (1 # 100))
                (Dict.get_default "DOGE" fallback (prices (init false)))
                stored)
    /\ within_half_a_cent stored shown.
Proof.
  apply (simulate_movement_one_percent (init false) 1 "DOGE").
  split; [reflexivity | vm_compute; discriminate].
Defined.

End Movement.

(* ================================================================== *)
(** * The guessing games *)
(* ================================================================== *)


(** Running the steps of a handler. *)
Lemma abind_on_market {A B : Type} (c : M A) (k : A -> App B) m d s a m' :
  c m = Ok (a, m') ->
  abind (on_market c) k (mkWorld m d s) = k a (mkWorld m' d s).
Proof.
  intros H. unfold abind, on_market. cbn [market db session]. now rewrite H.
Qed.

Lemma abind_on_market_raise {A B : Type} (c : M A) (k : A -> App B) m d s e :
  c m = Raise e ->
  abind (on_market c) k (mkWorld m d s) = Raises (Builtin e).
Proof.
  intros H. unfold abind, on_market. cbn [market db session]. now rewrite H.
Qed.

Lemma lift_getitem {V : Type} (k : string) (dict : Dict.dict V) v m :
  Dict.get k dict = Some v -> lift (getitem k dict) m = Ok (v, m).
Proof. intros H. unfold lift, getitem. now rewrite H. Qed.

Lemma abind_returns {A B : Type} (c : App A) (k : A -> App B) w a w' :
  c w = Returns (a, w') -> abind c k w = k a w'.
Proof. intros H. unfold abind. now rewrite H. Qed.

Lemma abind_raises {A B : Type} (c : App A) (k : A -> App B) w e :
  c w = Raises e -> abind c k w = Raises e.
Proof. intros H. unfold abind. now rewrite H. Qed.

Lemma get_quote p : Dict.get "price" (quote p) = Some p.
Proof. reflexivity. Qed.

Lemma get_singleton {V : Type} k (v : V) : Dict.get k [(k, v)] = Some v.
Proof. cbn [Dict.get]. now rewrite String.eqb_refl. Qed.

(** The step that [random.choice] picks, by the parity of the oracle. *)
Lemma random_choice_parity r :
  random_choice r steps
  = Ok (if Nat.eqb (r mod 2) 1 then decimal 1 2
        else Float64.neg (decimal 1 2)).
Proof.
  unfold random_choice, steps.
  change (List.length [Float64.neg (decimal 1 2); decimal 1 2]) with 2%nat.
  assert (H : (r mod 2 < 2)%nat) by (apply Nat.mod_upper_bound; lia).
  destruct (r mod 2)%nat as [|[|n]]; [reflexivity | reflexivity | lia].
Qed.

Lemma simulate_movement_parity r symbol self :
  let movement := if Nat.eqb (r mod 2) 1 then decimal 1 2
                  else Float64.neg (decimal 1 2) in
  let new_price :=
    Float64.mul (Dict.get_default symbol fallback (prices self))
      (Float64.add (Float64.of_Z 1) movement) in
  simulate_movement r symbol self
  = Ok ((Float64.round new_price 2, movement),
        mkMarket (use_yfinance self)
          (Dict.set symbol new_price (prices self))).
Proof.
  unfold simulate_movement, bind, prices_get, prices_setitem, lift, ret.
  rewrite random_choice_parity. reflexivity.
Qed.

(** The two tests on the step, by the parity of the oracle. *)
Lemma step_tests r :
  let movement := if Nat.eqb (r mod 2) 1 then decimal 1 2
                  else Float64.neg (decimal 1 2) in
  Py.lt (Py.Int 0) (Py.Flt movement) = Nat.eqb (r mod 2) 1
  /\ Py.lt (Py.Flt movement) (Py.Int 0) = negb (Nat.eqb (r mod 2) 1).
Proof.
  cbv zeta. destruct (Nat.eqb (r mod 2) 1); split; reflexivity.
Qed.

(** The snapshot of one symbol, read back as the handlers do. *)
Lemma snapshot_entry_price symbol self :
  exists snapshot entry price,
    get_snapshot [symbol] self = Ok (snapshot, self)
    /\ getitem symbol snapshot = Ok entry
    /\ getitem "price" entry = Ok price.
Proof.
  rewrite get_snapshot_one. do 3 eexists. split; [reflexivity|].
  unfold getitem. cbn [Dict.get]. rewrite String.eqb_refl.
  split; [reflexivity|]. reflexivity.
Qed.

(** X5: a POST to [game] never raises; it moves the price of the posted
    symbol (AAPL when the form names none) by one [simulate_movement] and
    touches neither the database nor the session; the round is judged
    correct exactly when the step is +0.01 and the guess is ["up"] (also the
    default) or the step is -0.01 and the guess is ["down"]; any other guess
    loses. *)
Theorem game_verdict r req w :
  method req = "POST" ->
  let symbol := Dict.get_default "symbol" "AAPL" (form req) in
  let guess := Dict.get_default "guess" "up" (form req) in
  let up := Nat.eqb (r mod 2) 1 in
  let verdict :=
    if (up && String.eqb guess "up") || (negb up && String.eqb guess "down")
    then "Correct" else "Incorrect" in
  exists new_price market',
    simulate_movement r symbol (market w)
    = Ok ((new_price,
           if up then decimal 1 2 else Float64.neg (decimal 1 2)), market')
    /\ game r req w
       = Returns (render_template "game.html"
                    (GameView.mk
                       (Some (round_message verdict symbol new_price))
                       symbol (Some guess)),
                  mkWorld market' (db w) (session w)).
Proof.
  intros Hm. cbv zeta. destruct w as [m d s]. cbn [market db session].
  pose proof (simulate_movement_parity r
                (Dict.get_default "symbol" "AAPL" (form req)) m) as E.
  cbv zeta in E.
  destruct (step_tests r) as [T1 T2]. cbv zeta in T1, T2.
  do 2 eexists. split; [exact E|].
  unfold game. rewrite Hm. cbn [String.eqb Ascii.eqb Bool.eqb].
  rewrite (abind_on_market _ _ _ _ _ _ _ (get_snapshot_one _ m)).
  rewrite (abind_on_market _ _ _ _ _ _ _
             (lift_getitem _ _ _ m (get_singleton _ _))).
  rewrite (abind_on_market _ _ _ _ _ _ _
             (lift_getitem _ _ _ m (get_quote _))).
  rewrite (abind_on_market _ _ _ _ _ _ _ E).
  cbn [fst snd]. rewrite T1, T2. unfold areturn.
  destruct (Nat.eqb (r mod 2) 1);
    destruct (String.eqb (Dict.get_default "guess" "up" (form req)) "up");
    destruct (String.eqb (Dict.get_default "guess" "up" (form req)) "down");
    reflexivity.
Qed.

(** X5 at a winning round on the seed market. *)
Lemma game_verdict_witness :
  exists new_price market',
    simulate_movement 1 "TSLA" (init false)
    = Ok ((new_price, decimal 1 2), market')
    /\ game 1 (mkRequest "POST" [("symbol", "TSLA"); ("guess", "up")])
         (mkWorld (init false) (DB.mk [] [] []) Session.empty)
       = Returns (render_template "game.html"
                    (GameView.mk
                       (Some (round_message "Correct" "TSLA" new_price))
                       "TSLA" (Some "up")),
                  mkWorld market' (DB.mk [] [] []) Session.empty).
Proof.
  apply (game_verdict 1
           (mkRequest "POST" [("symbol", "TSLA"); ("guess", "up")])
           (mkWorld (init false) (DB.mk [] [] []) Session.empty)).
  reflexivity.
Defined.

(** X6: [crypto_game] does not check the posted symbol against its list of
    cryptos: a POST that names a symbol missing from the price table never
    raises, and adds that symbol to the shared table, last, at the fallback
    price moved by the drawn step; database and session stay as they were,
    and the round is reported for that symbol. *)
Theorem crypto_game_adds_unknown_symbol r req w symbol :
  method req = "POST" ->
  Dict.get "symbol" (form req) = Some symbol ->
  Dict.get symbol (prices (market w)) = None ->
  exists result guess market',
    crypto_game r req w
    = Returns (render_template "crypto_game.html"
                 (CryptoGameView.mk (Some result) symbol (Some guess)
                    ["BTC"; "ETH"; "DOGE"]),
               mkWorld market' (db w) (session w))
    /\ Dict.keys (prices market') = Dict.keys (prices (market w)) ++ [symbol]
    /\ Dict.get symbol (prices market')
       = Some (Float64.mul fallback
                 (Float64.add (Float64.of_Z 1)
                    (if Nat.eqb (r mod 2) 1 then decimal 1 2
                     else Float64.neg (decimal 1 2)))).
Proof.
  intros Hm Hs Habs. destruct w as [m d s]. cbn [market db session] in *.
  assert (Sym : Dict.get_default "symbol" "BTC" (form req) = symbol).
  { unfold Dict.get_default. now rewrite Hs. }
  pose proof (simulate_movement_parity r symbol m) as E. cbv zeta in E.
  unfold Dict.get_default in E. rewrite Habs in E.
  unfold crypto_game. rewrite Hm, Sym.
  cbn [String.eqb Ascii.eqb Bool.eqb].
  rewrite (abind_on_market _ _ _ _ _ _ _ (get_snapshot_one _ m)).
  rewrite (abind_on_market _ _ _ _ _ _ _
             (lift_getitem _ _ _ m (get_singleton _ _))).
  rewrite (abind_on_market _ _ _ _ _ _ _
             (lift_getitem _ _ _ m (get_quote _))).
  rewrite (abind_on_market _ _ _ _ _ _ _ E).
  cbn [fst snd]. unfold areturn.
  do 3 eexists. split; [reflexivity|]. cbn [prices].
  split; [now apply keys_set_absent | apply get_set_same].
Qed.

(** X6 at the symbol ["AAPL2"], which is neither a crypto nor in the
    table. *)
Lemma crypto_game_adds_unknown_symbol_witness :
  exists result guess market',
    crypto_game 0 (mkRequest "POST" [("symbol", "AAPL2")])
      (mkWorld (init false) (DB.mk [] [] []) Session.empty)
    = Returns (render_template "crypto_game.html"
                 (CryptoGameView.mk (Some result) "AAPL2" (Some guess)
                    ["BTC"; "ETH"; "DOGE"]),
               mkWorld market' (DB.mk [] [] []) Session.empty)
    /\ Dict.keys (prices market')
       = Dict.keys (prices (init false)) ++ ["AAPL2"]
    /\ Dict.get "AAPL2" (prices market')
       = Some (Float64.mul fallback
                 (Float64.add (Float64.of_Z 1)
                    (if Nat.eqb (0 mod 2) 1 then decimal 1 2
                     else Float64.neg (decimal 1 2)))).
Proof.
  apply (crypto_game_adds_unknown_symbol 0
           (mkRequest "POST" [("symbol", "AAPL2")])
           (mkWorld (init false) (DB.mk [] [] []) Session.empty) "AAPL2");
    reflexivity.
Defined.

(* ================================================================== *)
(** * Running a handler step by step *)
(* ================================================================== *)

Lemma abind_inv {A B : Type} (c : App A) (k : A -> App B) w b w2 :
  abind c k w = Returns (b, w2) ->
  exists a w1, c w = Returns (a, w1) /\ k a w1 = Returns (b, w2).
Proof.
  unfold abind. destruct (c w) as [[a w1]|e]; [|discriminate].
  intros H. now exists a, w1.
Qed.

Lemma areturn_inv {A : Type} (a b : A) w w' :
  areturn a w = Returns (b, w') -> b = a /\ w' = w.
Proof. unfold areturn. intros H. injection H as <- <-. now split. Qed.

Lemma orelse_inv {A : Type} (o : option A) e w a w' :
  orelse o e w = Returns (a, w') -> o = Some a /\ w' = w.
Proof.
  destruct o as [x|]; cbn [orelse]; [|discriminate].
  intros H. apply areturn_inv in H. destruct H as [-> ->]. now split.
Qed.

Lemma on_market_inv {A : Type} (c : M A) w a w' :
  on_market c w = Returns (a, w') ->
  exists m', c (market w) = Ok (a, m')
             /\ w' = mkWorld m' (db w) (session w).
Proof.
  unfold on_market. destruct (c (market w)) as [[x m]|e]; [|discriminate].
  intros H. injection H as <- <-. now exists m.
Qed.

Lemma get_session_inv w s w' :
  get_session w = Returns (s, w') -> s = session w /\ w' = w.
Proof. unfold get_session. intros H. injection H as <- <-. now split. Qed.

Lemma get_db_inv w d w' :
  get_db w = Returns (d, w') -> d = db w /\ w' = w.
Proof. unfold get_db. intros H. injection H as <- <-. now split. Qed.

Lemma put_db_inv d w u w' :
  put_db d w = Returns (u, w') -> w' = mkWorld (market w) d (session w).
Proof. unfold put_db. intros H. now injection H as <- <-. Qed.

Lemma put_session_inv s w u w' :
  put_session s w = Returns (u, w') -> w' = mkWorld (market w) (db w) s.
Proof. unfold put_session. intros H. now injection H as <- <-. Qed.

Lemma flash_inv message category w u w' :
  flash message category w = Returns (u, w') ->
  w' = mkWorld (market w) (db w)
         (Session.mk (Session.user_id (session w)) (Session.live (session w))
            (Session.fake_balance (session w))
            (Session.fake_holdings (session w))
            (Session.flashes (session w) ++ [(message, category)])).
Proof. unfold flash. intros H. now injection H as <- <-. Qed.

Lemma lift_inv {A : Type} (x : result A) m a m' :
  lift x m = Ok (a, m') -> x = Ok a /\ m' = m.
Proof.
  unfold lift. destruct x as [v|e]; [|discriminate].
  intros H. injection H as <- <-. now split.
Qed.

Lemma getitem_inv {V : Type} k (dict : Dict.dict V) v :
  getitem k dict = Ok v -> Dict.get k dict = Some v.
Proof.
  unfold getitem. destruct (Dict.get k dict); [|discriminate].
  intros H. now injection H as ->.
Qed.

(** All the steps of a returning handler, up to the next branch. *)
Ltac app_inv :=
  repeat match goal with
  | H : abind _ _ _ = Returns _ |- _ =>
      apply abind_inv in H; destruct H as (? & ? & ? & H)
  | H : areturn _ _ = Returns _ |- _ =>
      apply areturn_inv in H; destruct H as [? ?]; subst
  | H : orelse _ _ _ = Returns _ |- _ =>
      apply orelse_inv in H; destruct H as [H ?]; subst
  | H : on_market _ _ = Returns _ |- _ =>
      apply on_market_inv in H; destruct H as (? & H & ?); subst
  | H : get_session _ = Returns _ |- _ =>
      apply get_session_inv in H; destruct H as [? ?]; subst
  | H : get_db _ = Returns _ |- _ =>
      apply get_db_inv in H; destruct H as [? ?]; subst
  | H : put_db _ _ = Returns _ |- _ => apply put_db_inv in H; subst
  | H : put_session _ _ = Returns _ |- _ =>
      apply put_session_inv in H; subst
  | H : flash _ _ _ = Returns _ |- _ => apply flash_inv in H; subst
  | H : lift _ _ = Ok _ |- _ =>
      apply lift_inv in H; destruct H as [H ?]; subst
  | H : getitem _ _ = Ok _ |- _ => apply getitem_inv in H
  end;
  cbn [market db session] in *.

(** The same, for the steps that are not bound to a continuation. *)
Ltac leaf_inv :=
  repeat match goal with
  | H : areturn _ _ = Returns _ |- _ =>
      apply areturn_inv in H; destruct H as [? ?]; subst
  | H : orelse _ _ _ = Returns _ |- _ =>
      apply orelse_inv in H; destruct H as [H ?]; subst
  | H : on_market _ _ = Returns _ |- _ =>
      apply on_market_inv in H; destruct H as (? & H & ?); subst
  | H : get_session _ = Returns _ |- _ =>
      apply get_session_inv in H; destruct H as [? ?]; subst
  | H : get_db _ = Returns _ |- _ =>
      apply get_db_inv in H; destruct H as [? ?]; subst
  | H : put_db _ _ = Returns _ |- _ => apply put_db_inv in H; subst
  | H : put_session _ _ = Returns _ |- _ =>
      apply put_session_inv in H; subst
  | H : flash _ _ _ = Returns _ |- _ => apply flash_inv in H; subst
  | H : lift _ _ = Ok _ |- _ =>
      apply lift_inv in H; destruct H as [H ?]; subst
  | H : getitem _ _ = Ok _ |- _ => apply getitem_inv in H
  end;
  cbn [market db session] in *.

Tactic Notation "bind_inv" hyp(H) "as" ident(a) ident(w) ident(E) :=
  apply abind_inv in H; destruct H as (a & w & E & H).

(* ================================================================== *)
(** * The quiz *)
(* ================================================================== *)

Lemma comprehension_pure {A B : Type} (f : A -> App B) (g : A -> B) l w :
  (forall a, In a l -> f a w = Returns (g a, w)) ->
  comprehension f l w = Returns (map g l, w).
Proof.
  induction l as [|a l IH]; intros H; [reflexivity|].
  cbn [comprehension map].
  rewrite (abind_returns _ _ _ _ _ (H a (or_introl eq_refl))).
  rewrite (abind_returns _ _ _ _ _ (IH (fun b I => H b (or_intror I)))).
  reflexivity.
Qed.

Lemma fold_left_marks l acc :
  fold_left (fun a (b : bool) => (a + if b then 1 else 0)%Z) l acc
  = (acc + sum_bools l)%Z.
Proof.
  unfold sum_bools. revert acc.
  induction l as [|b l IH]; intros acc; cbn [fold_left]; [lia|].
  rewrite IH, (IH (0 + _)%Z). lia.
Qed.

Lemma sum_bools_cons b l :
  sum_bools (b :: l) = ((if b then 1 else 0) + sum_bools l)%Z.
Proof.
  unfold sum_bools at 1. cbn [fold_left]. rewrite fold_left_marks. lia.
Qed.

Lemma sum_bools_bounds l :
  (0 <= sum_bools l <= Z.of_nat (List.length l))%Z
  /\ (sum_bools l = Z.of_nat (List.length l) <-> Forall (eq true) l).
Proof.
  induction l as [|b l [B I]].
  - split; [cbn; lia|]. split; [constructor | reflexivity].
  - rewrite sum_bools_cons. cbn [List.length]. rewrite Nat2Z.inj_succ.
    destruct b.
    + split; [lia|]. split.
      * intros H. constructor; [reflexivity|]. apply I. lia.
      * intros H. inversion H; subst. apply I in H3. lia.
    + split; [lia|]. split; [lia|].
      intros H. inversion H; subst. discriminate.
Qed.

(** The mark of question [i]. *)
Lemma quiz_score_marks (qs : list Question.t) form w :
  quiz_score qs form w
  = Returns
      (sum_bools
         (map (fun i =>
                 match nth_error qs i with
                 | Some q =>
                     match Dict.get ("q" ++ Py.str_of_nat i) form with
                     | Some t => String.eqb t (Question.answer q)
                     | None => false
                     end
                 | None => false
                 end)
            (seq 0 (List.length qs))), w).
Proof.
  unfold quiz_score.
  erewrite abind_returns; [reflexivity|].
  apply comprehension_pure. intros i Hi. apply in_seq in Hi.
  destruct (nth_error qs i) as [q|] eqn:Q.
  2:{ apply nth_error_None in Q. lia. }
  unfold index_list.
  rewrite nth_error_map, nth_error_seq.
  destruct (Nat.ltb_spec i (List.length qs)) as [_|L]; [|lia].
  cbn [option_map orelse Nat.add]. unfold abind, areturn. now rewrite Q.
Qed.

Lemma quiz_score_spec (qs : list Question.t) form w :
  exists score,
    quiz_score qs form w = Returns (score, w)
    /\ (0 <= score <= Z.of_nat (List.length qs))%Z
    /\ (score = Z.of_nat (List.length qs)
        <-> forall i q,
              nth_error qs i = Some q ->
              Dict.get ("q" ++ Py.str_of_nat i) form
              = Some (Question.answer q)).
Proof.
  eexists. split; [apply quiz_score_marks|].
  match goal with |- context [sum_bools ?l] => set (marks := l) end.
  destruct (sum_bools_bounds marks) as [B I].
  assert (L : List.length marks = List.length qs).
  { unfold marks. now rewrite length_map, length_seq. }
  rewrite L in *. split; [exact B|]. rewrite I. unfold marks.
  rewrite Forall_map, Forall_forall. split.
  - intros H i q Q.
    assert (Hi : In i (seq 0 (List.length qs))).
    { apply in_seq. assert (i < List.length qs)%nat by (apply nth_error_Some; congruence). lia. }
    specialize (H i Hi). rewrite Q in H.
    destruct (Dict.get _ form) as [t|]; [|discriminate].
    symmetry in H. apply String.eqb_eq in H. now subst.
  - intros H i Hi. apply in_seq in Hi.
    destruct (nth_error qs i) as [q|] eqn:Q.
    2:{ apply nth_error_None in Q. lia. }
    rewrite (H i q Q). symmetry. apply String.eqb_refl.
Qed.

(** X7: a POST to [quiz] never raises and changes nothing; the score lies
    between 0 and 8, and it is 8 exactly when each field [q0] ... [q7] of
    the form is present and equal to the answer of its question. *)
Theorem quiz_post_score req w :
  method req = "POST" ->
  exists score,
    quiz req w
    = Returns (render_template "quiz.html"
                 (QuizView.mk questions (Some score)), w)
    /\ (0 <= score <= 8)%Z
    /\ (score = 8%Z
        <-> forall i q,
              nth_error questions i = Some q ->
              Dict.get ("q" ++ Py.str_of_nat i) (form req)
              = Some (Question.answer q)).
Proof.
  intros Hm.
  destruct (quiz_score_spec questions (form req) w) as (score & E & B & I).
  exists score. unfold quiz. rewrite Hm.
  cbn [String.eqb Ascii.eqb Bool.eqb].
  rewrite (abind_returns _ _ _ _ _ E). split; [reflexivity|].
  split; [exact B | exact I].
Qed.

(** X7 at a form with two answers, one of them right. *)
Lemma quiz_post_score_witness :
  exists score,
    quiz (mkRequest "POST" [("q1", "BTC"); ("q3", "NYSE")])
      (mkWorld (init false) (DB.mk [] [] []) Session.empty)
    = Returns (render_template "quiz.html"
                 (QuizView.mk questions (Some score)),
               mkWorld (init false) (DB.mk [] [] []) Session.empty)
    /\ (0 <= score <= 8)%Z
    /\ (score = 8%Z
        <-> forall i q,
              nth_error questions i = Some q ->
              Dict.get ("q" ++ Py.str_of_nat i)
                (form (mkRequest "POST" [("q1", "BTC"); ("q3", "NYSE")]))
              = Some (Question.answer q)).
Proof.
  apply (quiz_post_score
           (mkRequest "POST" [("q1", "BTC"); ("q3", "NYSE")])
           (mkWorld (init false) (DB.mk [] [] []) Session.empty)).
  reflexivity.
Defined.

(* ================================================================== *)
(** * The daily challenge *)
(* ================================================================== *)

Lemma daily_arith k :
  (0 <= k < 10)%Z ->
  exists fseed ratio factor product,
    Py.float_of_int (k + 5) = Some fseed
    /\ Py.truediv fseed (decimal 1000 1) = Some ratio
    /\ Py.add (Py.Int 1) (Py.Flt ratio) = Some factor
    /\ Py.mul (Py.Int 5000) factor = Some product
    /\ py_round product 2 = Py.Flt (Float64.of_Z (5250 + 50 * k)).
Proof.
  intros H.
  assert (C : (k = 0 \/ k = 1 \/ k = 2 \/ k = 3 \/ k = 4 \/ k = 5 \/ k = 6
               \/ k = 7 \/ k = 8 \/ k = 9)%Z) by lia.
  destruct C as [-> | [-> | [-> | [-> | [-> | [-> | [-> | [-> | [-> | ->]]]]]]]]];
    do 4 eexists;
    (split; [vm_compute; reflexivity|]);
    (split; [vm_compute; reflexivity|]);
    (split; [vm_compute; reflexivity|]);
    (split; [vm_compute; reflexivity|]);
    vm_compute; reflexivity.
Qed.

(** X8: on every day [daily] returns and changes nothing; the start is
    5000 and the target is the whole number [5250 + 50 * (today mod 10)],
    so between 5250 and 5700; the challenge is shown as done exactly when a
    record is shown, and a record shown is one of the logged-in user for
    that day. *)
Theorem daily_target today w :
  exists done record,
    daily today w
    = Returns (render_template "daily.html"
                 (DailyView.mk 5000
                    (Py.Flt (Float64.of_Z (5250 + 50 * (today mod 10))))
                    120 done record), w)
    /\ (5250 <= 5250 + 50 * (today mod 10) <= 5700)%Z
    /\ (done = true <-> record <> None)
    /\ forall rec,
         record = Some rec ->
         In rec (DB.daily_records (db w))
         /\ Session.user_id (session w) = Some (DailyRecord.user_id rec)
         /\ DailyRecord.date rec = today.
Proof.
  assert (K : (0 <= today mod 10 < 10)%Z) by (apply Z.mod_pos_bound; lia).
  destruct (daily_arith _ K) as (fseed & ratio & factor & product
                                 & E1 & E2 & E3 & E4 & E5).
  unfold daily. rewrite E1. cbn [orelse].
  rewrite (abind_returns _ _ _ _ _ eq_refl).
  rewrite E2. cbn [orelse]. rewrite (abind_returns _ _ _ _ _ eq_refl).
  rewrite E3. cbn [orelse]. rewrite (abind_returns _ _ _ _ _ eq_refl).
  rewrite E4. cbn [orelse]. rewrite (abind_returns _ _ _ _ _ eq_refl).
  rewrite E5.
  rewrite (abind_returns _ _ _ _ _ eq_refl).
  rewrite (abind_returns _ _ _ _ _ eq_refl).
  unfold areturn. do 2 eexists. split; [reflexivity|].
  split; [lia|].
  destruct (Session.user_id (session w)) as [uid|].
  - destruct (DB.record_of uid today (db w)) as [rec|] eqn:R.
    + split; [split; [discriminate | reflexivity]|].
      intros rec' [= <-]. unfold DB.record_of in R.
      apply find_some in R. destruct R as [I T].
      apply andb_true_iff in T. destruct T as [T1 T2].
      apply Z.eqb_eq in T1, T2. subst. now repeat split.
    + split; [split; [discriminate | congruence]|]. discriminate.
  - split; [split; [discriminate | congruence]|]. discriminate.
Qed.

(* ================================================================== *)
(** * The practice trading game *)
(* ================================================================== *)

Lemma holdings_nonneg_set k v h :
  holdings_nonneg h -> (0 <= v)%Z -> holdings_nonneg (Dict.set k v h).
Proof.
  unfold holdings_nonneg. intros H Hv.
  induction h as [|[k' v'] h IH]; cbn [Dict.set].
  - repeat constructor. exact Hv.
  - inversion H; subst. destruct (String.eqb k k').
    + constructor; trivial.
    + constructor; auto.
Qed.

Lemma holdings_nonneg_get k h v :
  holdings_nonneg h -> Dict.get k h = Some v -> (0 <= v)%Z.
Proof.
  unfold holdings_nonneg. intros H.
  induction h as [|[k' v'] h IH]; cbn [Dict.get]; [discriminate|].
  inversion H; subst. destruct (String.eqb k k'); auto.
  intros [= <-]. assumption.
Qed.

Lemma holdings_nonneg_get_default k h :
  holdings_nonneg h -> (0 <= Dict.get_default k 0%Z h)%Z.
Proof.
  intros H. unfold Dict.get_default.
  destruct (Dict.get k h) as [v|] eqn:E; [|lia].
  eapply holdings_nonneg_get; eauto.
Qed.

Lemma set_fake_inv b h w u w' :
  set_fake b h w = Returns (u, w') ->
  w' = mkWorld (market w) (db w)
         (Session.mk (Session.user_id (session w)) (Session.live (session w))
            b h (Session.flashes (session w))).
Proof. unfold set_fake, abind, get_session, put_session. now intros [= <- <-]. Qed.

Lemma get_snapshot_same_market symbols m snapshot m' :
  get_snapshot symbols m = Ok (snapshot, m') -> m' = m.
Proof.
  destruct (get_snapshot_pure symbols m) as [snap E]. rewrite E.
  now intros [= _ <-].
Qed.

(** What a returning call of [trade_game] does.  The first visit starts
    from 100000 and no holdings. *)
Lemma trade_game_run int_of_str req w resp w' :
  trade_game int_of_str req w = Returns (resp, w') ->
  let s0 := session w in
  let stocks := ["AAPL"; "TSLA"; "INFY"; "TCS"; "BTC"; "ETH"; "DOGE"] in
  let h := match Session.fake_balance s0 with
           | Some _ => practice_holdings s0
           | None => []
           end in
  let b := match Session.fake_balance s0 with
           | Some b => b
           | None => Py.Int 100000
           end in
  exists b' h' message snapshot,
    get_snapshot stocks (market w) = Ok (snapshot, market w)
    /\ resp = render_template "trade_game.html"
                (TradeGameView.mk stocks snapshot h' b' message)
    /\ market w' = market w
    /\ db w' = db w
    /\ Session.user_id (session w') = Session.user_id s0
    /\ Session.live (session w') = Session.live s0
    /\ Session.flashes (session w') = Session.flashes s0
    /\ Session.fake_balance (session w') = Some b'
    /\ practice_holdings (session w') = h'
    /\ ((String.eqb (method req) "POST" = false
         /\ message = None /\ h' = h /\ b' = b)
        \/ exists sym amount,
             String.eqb (method req) "POST" = true
             /\ Dict.get "symbol" (form req) = Some sym
             /\ In sym stocks
             /\ ((exists total,
                     Py.mul (Py.Flt (Float64.round
                                       (Dict.get_default sym fallback
                                          (prices (market w))) 2))
                       (Py.Int amount) = Some total
                     /\ message
                        = Some ("Bought " ++ Py.str_of_int amount
                                ++ " shares of " ++ sym ++ "!")%string
                     /\ (0 < amount)%Z
                     /\ Py.le total b = true
                     /\ Py.sub b total = Some b'
                     /\ h' = Dict.set sym
                               (Dict.get_default sym 0 h + amount)%Z h)
                 \/ (exists total,
                        Py.mul (Py.Flt (Float64.round
                                          (Dict.get_default sym fallback
                                             (prices (market w))) 2))
                          (Py.Int amount) = Some total
                        /\ message
                           = Some ("Sold " ++ Py.str_of_int amount
                                   ++ " shares of " ++ sym ++ "!")%string
                        /\ (0 < amount <= Dict.get_default sym 0 h)%Z
                        /\ Py.add b total = Some b'
                        /\ h' = Dict.set sym
                                  (Dict.get_default sym 0 h - amount)%Z h)
                 \/ (message = Some "Invalid transaction."
                     /\ h' = h /\ b' = b))).
Proof.
  intros H s0 stocks h b. unfold trade_game in H.
  app_inv. pose proof (get_snapshot_same_market _ _ _ _ H2) as M. subst.
  destruct (get_snapshot_loop_lookup stocks [] (market x2) wf_nil)
    as (snap & Es & _ & Look).
  change (get_snapshot_loop stocks [] (market x2))
    with (get_snapshot stocks (market x2)) in Es.
  fold stocks in H2. rewrite Es in H2. injection H2 as <-.
  assert (I : market x2 = market w /\ db x2 = db w
              /\ Session.user_id (session x2) = Session.user_id (session w)
              /\ Session.live (session x2) = Session.live (session w)
              /\ Session.flashes (session x2) = Session.flashes (session w)
              /\ Session.fake_balance (session x2) = Some b
              /\ (String.eqb (method req) "POST" = true ->
                  Session.fake_holdings (session x2) <> None ->
                  Session.fake_holdings (session x2) = Some h)
              /\ practice_holdings (session x2) = h).
  { unfold h, b, s0. destruct (Session.fake_balance (session w)) eqn:B.
    - app_inv. rewrite B. repeat split; trivial.
      unfold practice_holdings. intros _.
      destruct (Session.fake_holdings (session w)); congruence.
    - apply set_fake_inv in H1. subst x2. cbn. repeat split; trivial. }
  destruct I as (I1 & I2 & I3 & I4 & I5 & I6 & I7 & I8).
  rewrite I1 in *. clear H1.
  destruct (String.eqb (method req) "POST") eqn:P.
  - bind_inv H3 as amount w0 Ea.
    assert (A : w0 = mkWorld (market w) (db x2) (session x2)).
    { destruct (Dict.get "amount" (form req)); now app_inv. }
    subst w0. clear Ea.
    bind_inv H3 as sym w0 Esym. bind_inv H3 as entry w1 Eentry.
    bind_inv H3 as price w3 Eprice. bind_inv H3 as s w4 Es4.
    bind_inv H3 as holdings w5 Eh. bind_inv H3 as balance w6 Eb.
    bind_inv H3 as buy w7 Ebuy.
    app_inv.
    rewrite (I7 eq_refl ltac:(congruence)) in Eh. injection Eh as <-.
    rewrite I6 in Eb. injection Eb as <-.
    rewrite Look in Eentry.
    destruct (in_dec string_dec sym stocks) as [Isym|]; [|discriminate].
    injection Eentry as <-. cbn in Eprice. injection Eprice as <-.
    assert (B : w7 = mkWorld (market w) (db x2) (session x2)
                /\ (buy = true ->
                    (0 < amount)%Z
                    /\ exists total,
                         Py.mul (Py.Flt (Float64.round
                                           (Dict.get_default sym fallback
                                              (prices (market w))) 2))
                           (Py.Int amount) = Some total
                         /\ Py.le total b = true)).
    { destruct (Py.opt_eqb (Dict.get "action" (form req)) "buy"
                && (0 <? amount)%Z) eqn:C.
      - bind_inv Ebuy as cost w8 Ec. app_inv.
        split; [reflexivity|]. intros T.
        apply andb_true_iff in C. destruct C as [_ C].
        apply Z.ltb_lt in C. split; [exact C|]. eauto.
      - app_inv. split; [reflexivity | discriminate]. }
    destruct B as [-> B]. clear Ebuy.
    destruct buy.
    + destruct (B eq_refl) as (Pos & total & Em & Le).
      bind_inv H3 as cost w8 Ec. bind_inv H3 as balance' w9 Eb'.
      bind_inv H3 as u w10 Eset.
      app_inv. apply set_fake_inv in Eset. subst.
      cbn [market db session] in *.
      cbn [Session.user_id Session.live Session.flashes
           Session.fake_balance Session.fake_holdings practice_holdings].
      rewrite Em in Ec. injection Ec as <-.
      exists balance', (Dict.set sym (Dict.get_default sym 0 h + amount)%Z h).
      eexists. exists snap. repeat split; trivial.
      right. exists sym, amount. repeat split; trivial.
      left. exists total. now repeat split.
    + destruct (Py.opt_eqb (Dict.get "action" (form req)) "sell"
                && (0 <? amount)%Z
                && (amount <=? Dict.get_default sym 0 h)%Z) eqn:C.
      * bind_inv H3 as n w8 En. bind_inv H3 as proceeds w9 Ep.
        bind_inv H3 as balance' w10 Eb'. bind_inv H3 as u w11 Eset.
        app_inv. apply set_fake_inv in Eset. subst.
        cbn [market db session] in *.
        cbn [Session.user_id Session.live Session.flashes
             Session.fake_balance Session.fake_holdings practice_holdings].
        apply andb_true_iff in C. destruct C as [C C3].
        apply andb_true_iff in C. destruct C as [_ C2].
        apply Z.ltb_lt in C2. apply Z.leb_le in C3.
        assert (N : Dict.get_default sym 0%Z h = n).
        { unfold Dict.get_default. now rewrite En. }
        rewrite N in *.
        exists balance', (Dict.set sym (n - amount)%Z h).
        eexists. exists snap. repeat split; trivial.
        right. exists sym, amount. repeat split; trivial.
        right. left. exists proceeds. repeat split; rewrite ?N; trivial.
      * bind_inv H3 as u w8 Eset.
        app_inv. apply set_fake_inv in Eset. subst.
        cbn [market db session] in *.
        cbn [Session.user_id Session.live Session.flashes
             Session.fake_balance Session.fake_holdings practice_holdings].
        exists b, h. eexists. exists snap. repeat split; trivial.
        right. exists sym, amount. repeat split; trivial.
        right. right. now repeat split.
  - app_inv. rewrite I6.
    exists b, h, None, snap.
    rewrite I8. repeat split; trivial.
    + fold (practice_holdings (session x2)). now rewrite I8.
    + left. now repeat split.
Qed.

(** X9: a call of [trade_game] that returns leaves the market, the
    database, the login and the queued messages as they were; afterwards
    the session has a practice balance, the page shows the balance and the
    holdings of the session, and if no count of the holdings was negative
    before, none is afterwards. *)
Theorem trade_game_keeps_world int_of_str req w resp w' :
  trade_game int_of_str req w = Returns (resp, w') ->
  market w' = market w
  /\ db w' = db w
  /\ Session.user_id (session w') = Session.user_id (session w)
  /\ Session.live (session w') = Session.live (session w)
  /\ Session.flashes (session w') = Session.flashes (session w)
  /\ (exists view,
        resp = render_template "trade_game.html" view
        /\ Session.fake_balance (session w')
           = Some (TradeGameView.balance view)
        /\ practice_holdings (session w') = TradeGameView.holdings view)
  /\ (holdings_nonneg (practice_holdings (session w)) ->
      holdings_nonneg (practice_holdings (session w'))).
Proof.
  intros H. apply trade_game_run in H. cbv zeta in H.
  destruct H as (b' & h' & message & snapshot & _ & -> & M & D & U & L & F
                 & B & Hh & Step).
  repeat (split; [assumption|]). split.
  { eexists. split; [reflexivity|]. cbn. now split. }
  intros N. rewrite Hh.
  assert (N0 : holdings_nonneg
                 match Session.fake_balance (session w) with
                 | Some _ => practice_holdings (session w)
                 | None => []
                 end).
  { destruct (Session.fake_balance (session w)); [exact N | constructor]. }
  destruct Step as [(_ & _ & -> & _)
                   | (sym & amount & _ & _ & _
                      & [(total & _ & _ & Pos & _ & _ & ->)
                        | [(total & _ & _ & Pos & _ & ->)
                          | (_ & -> & _)]])]; trivial.
  - apply holdings_nonneg_set; trivial.
    pose proof (holdings_nonneg_get_default sym _ N0). lia.
  - apply holdings_nonneg_set; trivial. lia.
Qed.

(** X9 at a purchase of two shares on the first visit. *)
Lemma trade_game_keeps_world_witness :
  exists resp w',
    trade_game (fun _ => Some 2%Z)
      (mkRequest "POST"
         [("symbol", "TSLA"); ("action", "buy"); ("amount", "2")])
      (mkWorld (init false) (DB.mk [] [] []) Session.empty)
    = Returns (resp, w')
    /\ market w' = init false
    /\ db w' = DB.mk [] [] []
    /\ Session.user_id (session w') = None
    /\ Session.live (session w') = None
    /\ Session.flashes (session w') = []
    /\ (exists view,
          resp = render_template "trade_game.html" view
          /\ Session.fake_balance (session w')
             = Some (TradeGameView.balance view)
          /\ practice_holdings (session w') = TradeGameView.holdings view)
    /\ (holdings_nonneg (practice_holdings Session.empty) ->
        holdings_nonneg (practice_holdings (session w'))).
Proof.
  do 2 eexists. split; [vm_compute; reflexivity|].
  apply (trade_game_keeps_world (fun _ => Some 2%Z)
           (mkRequest "POST"
              [("symbol", "TSLA"); ("action", "buy"); ("amount", "2")])
           (mkWorld (init false) (DB.mk [] [] []) Session.empty)).
  vm_compute. reflexivity.
Defined.

Lemma get_default_set_same k (v : Z) h :
  Dict.get_default k 0%Z (Dict.set k v h) = v.
Proof. unfold Dict.get_default. now rewrite get_set_same. Qed.

(** X10: in a game that has started, a returning call of [trade_game]
    never changes the count of a symbol other than the posted one; the
    count of the posted symbol and the balance either stay as they were, or
    change by an accepted trade of a positive amount at the rounded price
    of the snapshot: a purchase whose cost does not exceed the balance, or
    a sale of no more shares than are held. *)
Theorem trade_game_trades_posted_symbol int_of_str req w resp w' b :
  trade_game int_of_str req w = Returns (resp, w') ->
  Session.fake_balance (session w) = Some b ->
  let h := practice_holdings (session w) in
  let h' := practice_holdings (session w') in
  exists b',
    Session.fake_balance (session w') = Some b'
    /\ (forall k, Dict.get "symbol" (form req) <> Some k ->
        Dict.get k h' = Dict.get k h)
    /\ forall sym,
         Dict.get "symbol" (form req) = Some sym ->
         let n := Dict.get_default sym 0%Z h in
         let n' := Dict.get_default sym 0%Z h' in
         (n' = n /\ b' = b)
         \/ exists amount total,
              (0 < amount)%Z
              /\ Py.mul (Py.Flt (Float64.round
                                   (Dict.get_default sym fallback
                                      (prices (market w))) 2))
                   (Py.Int amount) = Some total
              /\ ((n' = n + amount)%Z
                  /\ Py.le total b = true /\ Py.sub b total = Some b'
                  \/ (amount <= n)%Z /\ (n' = n - amount)%Z
                     /\ Py.add b total = Some b').
Proof.
  intros H B h h'. apply trade_game_run in H. cbv zeta in H.
  rewrite B in H. fold h in H.
  destruct H as (b' & h1 & message & snapshot & _ & _ & _ & _ & _ & _ & _
                 & B' & Hh & Step).
  fold h' in Hh. subst h1. exists b'. split; [exact B'|].
  destruct Step as [(_ & _ & -> & ->)
                   | (sym & amount & _ & S & _
                      & [(total & Em & _ & Pos & Le & Eb & E)
                        | [(total & Em & _ & Pos & Eb & E)
                          | (_ & -> & ->)]])].
  - split; [reflexivity|]. intros sym _. left. now split.
  - rewrite E. split.
    + intros k Hk. apply get_set_other. congruence.
    + intros sym' S'. rewrite S in S'. injection S' as <-. cbv zeta.
      rewrite get_default_set_same. right. exists amount, total.
      split; [exact Pos|]. split; [exact Em|]. left. now repeat split.
  - rewrite E. split.
    + intros k Hk. apply get_set_other. congruence.
    + intros sym' S'. rewrite S in S'. injection S' as <-. cbv zeta.
      rewrite get_default_set_same. right. exists amount, total.
      split; [lia|]. split; [exact Em|]. right. repeat split; trivial. lia.
  - split; [reflexivity|]. intros sym' _. left. now split.
Qed.

(** X10 at a sale of one of three shares held. *)
Lemma trade_game_trades_posted_symbol_witness :
  let req := mkRequest "POST"
               [("symbol", "BTC"); ("action", "sell"); ("amount", "1")] in
  let h := [("BTC", 3%Z)] in
  let b := Py.Int 500 in
  exists resp w',
    trade_game (fun _ => Some 1%Z) req
      (mkWorld (init false) (DB.mk [] [] [])
         (Session.mk None None (Some b) (Some h) []))
    = Returns (resp, w')
    /\ exists b',
         Session.fake_balance (session w') = Some b'
         /\ (forall k, Dict.get "symbol" (form req) <> Some k ->
             Dict.get k (practice_holdings (session w')) = Dict.get k h)
         /\ forall sym,
              Dict.get "symbol" (form req) = Some sym ->
              (Dict.get_default sym 0%Z (practice_holdings (session w'))
               = Dict.get_default sym 0%Z h
               /\ b' = b)
              \/ exists amount total,
                   (0 < amount)%Z
                   /\ Py.mul (Py.Flt (Float64.round
                                        (Dict.get_default sym fallback
                                           (prices (init false))) 2))
                        (Py.Int amount) = Some total
                   /\ ((Dict.get_default sym 0%Z
                          (practice_holdings (session w'))
                        = Dict.get_default sym 0%Z h + amount)%Z
                       /\ Py.le total b = true
                       /\ Py.sub b total = Some b'
                       \/ (amount <= Dict.get_default sym 0%Z h)%Z
                          /\ (Dict.get_default sym 0%Z
                                (practice_holdings (session w'))
                              = Dict.get_default sym 0%Z h - amount)%Z
                          /\ Py.add b total = Some b').
Proof.
  intros req h b. do 2 eexists. split; [vm_compute; reflexivity|].
  refine (trade_game_trades_posted_symbol (fun _ => Some 1%Z) req
            (mkWorld (init false) (DB.mk [] [] [])
               (Session.mk None None (Some b) (Some h) []))
            _ _ b _ _).
  - vm_compute. reflexivity.
  - reflexivity.
Defined.

(** X11: a POST to [trade_game] raises [ValueError] when the amount is not
    an integer numeral; otherwise it raises [KeyError] when the form has no
    symbol or names a symbol outside the seven of the game, such as RELI,
    that the index and trade pages list. *)
Theorem trade_game_post_raises int_of_str req w :
  method req = "POST" ->
  let amount :=
    match Dict.get "amount" (form req) with
    | Some a => int_of_str a
    | None => Some 0%Z
    end in
  (amount = None -> trade_game int_of_str req w = Raises ValueError)
  /\ (amount <> None ->
      Dict.get "symbol" (form req) = None ->
      trade_game int_of_str req w = Raises KeyErrorNone)
  /\ (amount <> None ->
      forall sym,
        Dict.get "symbol" (form req) = Some sym ->
        ~ In sym ["AAPL"; "TSLA"; "INFY"; "TCS"; "BTC"; "ETH"; "DOGE"] ->
        trade_game int_of_str req w = Raises (Builtin (KeyError sym))).
Proof.
  intros Hm amount. destruct w as [m d s].
  set (stocks := ["AAPL"; "TSLA"; "INFY"; "TCS"; "BTC"; "ETH"; "DOGE"]).
  destruct (get_snapshot_loop_lookup stocks [] m wf_nil)
    as (snap & Es & _ & Look).
  change (get_snapshot_loop stocks [] m) with (get_snapshot stocks m) in Es.
  assert (Init : exists s1,
            match Session.fake_balance s with
            | None => set_fake (Some (Py.Int 100000)) (Some [])
            | Some _ => areturn tt
            end (mkWorld m d s) = Returns (tt, mkWorld m d s1)).
  { destruct (Session.fake_balance s); eexists; reflexivity. }
  destruct Init as [s1 Init].
  unfold trade_game.
  rewrite (abind_returns get_session _ (mkWorld m d s) s (mkWorld m d s)
             eq_refl).
  cbn [session]. rewrite (abind_returns _ _ _ _ _ Init).
  fold stocks. rewrite (abind_on_market _ _ _ _ _ _ _ Es).
  rewrite Hm. change (String.eqb "POST" "POST") with true. cbv iota.
  assert (A : amount = None
              /\ match Dict.get "amount" (form req) with
                 | Some a => orelse (int_of_str a) ValueError
                 | None => areturn 0%Z
                 end (mkWorld m d s1) = Raises ValueError
              \/ exists z,
                   amount = Some z
                   /\ match Dict.get "amount" (form req) with
                      | Some a => orelse (int_of_str a) ValueError
                      | None => areturn 0%Z
                      end (mkWorld m d s1) = Returns (z, mkWorld m d s1)).
  { unfold amount. destruct (Dict.get "amount" (form req)) as [a|].
    - destruct (int_of_str a) as [z|]; [right | left]; eauto.
    - right. eauto. }
  destruct A as [[An Ea] | (z & Az & Ea)].
  - split.
    + intros _. apply abind_raises. apply abind_raises. exact Ea.
    + split; intros C; congruence.
  - split; [congruence|]. split.
    + intros _ Sn. apply abind_raises.
      rewrite (abind_returns _ _ _ _ _ Ea). rewrite Sn. reflexivity.
    + intros _ sym Ss Out. apply abind_raises.
      rewrite (abind_returns _ _ _ _ _ Ea). rewrite Ss. cbn [orelse].
      rewrite (abind_returns _ _ _ _ _ eq_refl).
      apply abind_on_market_raise.
      unfold lift, getitem. rewrite Look.
      destruct (in_dec string_dec sym stocks); [contradiction|reflexivity].
Qed.

(** X11 at RELI. *)
Lemma trade_game_post_raises_witness :
  trade_game (fun _ => Some 1%Z)
    (mkRequest "POST"
       [("symbol", "RELI"); ("action", "buy"); ("amount", "1")])
    (mkWorld (init false) (DB.mk [] [] []) Session.empty)
  = Raises (Builtin (KeyError "RELI")).
Proof.
  apply (trade_game_post_raises (fun _ => Some 1%Z)
           (mkRequest "POST"
              [("symbol", "RELI"); ("action", "buy"); ("amount", "1")])
           (mkWorld (init false) (DB.mk [] [] []) Session.empty)).
  - reflexivity.
  - discriminate.
  - reflexivity.
  - simpl. intuition discriminate.
Defined.

(* ================================================================== *)
(** * Accounts *)
(* ================================================================== *)

Lemma next_id_above ids i : In i ids -> (i < DB.next_id ids)%Z.
Proof.
  unfold DB.next_id. induction ids as [|j ids IH]; [intros []|].
  cbn [fold_right]. intros [->|I]; [lia|]. specialize (IH I). lia.
Qed.

Lemma next_id_fresh ids : ~ In (DB.next_id ids) ids.
Proof. intros I. apply next_id_above in I. lia. Qed.

Lemma user_by_email_None email d :
  DB.user_by_email email d = None
  <-> ~ In email (map User.email (DB.users d)).
Proof.
  unfold DB.user_by_email. split.
  - intros F I. apply in_map_iff in I. destruct I as (u & E & I).
    apply (find_none _ _ F) in I. rewrite E, String.eqb_refl in I.
    discriminate.
  - intros N. destruct (find _ _) as [u|] eqn:F; trivial.
    apply find_some in F. destruct F as [I E].
    apply String.eqb_eq in E. exfalso. apply N.
    apply in_map_iff. now exists u.
Qed.

Lemma user_by_email_Some email d u :
  DB.user_by_email email d = Some u ->
  In u (DB.users d) /\ User.email u = email.
Proof.
  unfold DB.user_by_email. intros F. apply find_some in F.
  destruct F as [I E]. apply String.eqb_eq in E. now split.
Qed.

Lemma NoDup_snoc {A : Type} (l : list A) x :
  NoDup l -> ~ In x l -> NoDup (l ++ [x]).
Proof.
  intros N I. apply NoDup_app; trivial.
  - repeat constructor. intros [].
  - intros y Hy [<-|[]]. contradiction.
Qed.

(** X12: a POST to [register] always returns and leaves the market alone.
    When the lowered e-mail is already registered, nothing changes but for
    a warning, and the login stays as it was.  Otherwise one user is added
    at the end of the table, with the posted name, the lowered e-mail, the
    hash of the posted password, a fresh key and a balance of 100000.0, and
    is logged in.  Unique keys and e-mails stay unique. *)
Theorem register_post lower generate_password_hash req w :
  method req = "POST" ->
  db_wf (db w) ->
  let name := Dict.get_default "name" "" (form req) in
  let email := lower (Dict.get_default "email" "" (form req)) in
  let pw := Dict.get_default "password" "" (form req) in
  exists resp w',
    register lower generate_password_hash req w = Returns (resp, w')
    /\ market w' = market w
    /\ db_wf (db w')
    /\ DB.holdings (db w') = DB.holdings (db w)
    /\ DB.daily_records (db w') = DB.daily_records (db w)
    /\ ((In email (map User.email (DB.users (db w)))
         /\ resp = redirect "register"
         /\ db w' = db w
         /\ Session.user_id (session w') = Session.user_id (session w)
         /\ Session.flashes (session w')
            = Session.flashes (session w)
              ++ [("Email already registered", "warning")])
        \/ (~ In email (map User.email (DB.users (db w)))
            /\ resp = redirect "portfolio"
            /\ exists id,
                 ~ In id (map User.id (DB.users (db w)))
                 /\ DB.users (db w')
                    = DB.users (db w)
                      ++ [User.mk id name email (generate_password_hash pw)
                            (decimal 1000000 1)]
                 /\ Session.user_id (session w') = Some id)).
Proof.
  intros Hm (W1 & W2 & W3) name email pw. destruct w as [m d s].
  cbn [market db session] in *. unfold register. rewrite Hm.
  change (String.eqb "POST" "POST") with true. cbv iota.
  rewrite (abind_returns get_db _ (mkWorld m d s) d (mkWorld m d s) eq_refl).
  fold name email pw.
  destruct (DB.user_by_email email d) as [u|] eqn:F.
  - do 2 eexists. split; [reflexivity|]. cbn.
    split; [reflexivity|]. split; [now repeat split|].
    split; [reflexivity|]. split; [reflexivity|]. left.
    apply user_by_email_Some in F. destruct F as [I E].
    split; [apply in_map_iff; now exists u|]. now repeat split.
  - apply user_by_email_None in F.
    do 2 eexists. split; [reflexivity|]. cbn.
    split; [reflexivity|]. split.
    { unfold db_wf. cbn. rewrite !map_app. cbn [map User.id User.email].
      split; [apply NoDup_snoc; trivial; apply next_id_fresh|].
      split; [apply NoDup_snoc; trivial | exact W3]. }
    split; [reflexivity|]. split; [reflexivity|]. right.
    split; [exact F|]. split; [reflexivity|].
    exists (DB.next_id (map User.id (DB.users d))).
    split; [apply next_id_fresh|]. now split.
Qed.

(** X12 at a first registration on an empty database. *)
Lemma register_post_witness :
  let req := mkRequest "POST"
               [("name", "Asha"); ("email", "a@x.in"); ("password", "pw")] in
  let w := mkWorld (init false) (DB.mk [] [] []) Session.empty in
  let name := Dict.get_default "name" "" (form req) in
  let email := Dict.get_default "email" "" (form req) in
  let pw := Dict.get_default "password" "" (form req) in
  exists resp w',
    register (fun e => e) (fun p => p) req w = Returns (resp, w')
    /\ market w' = market w
    /\ db_wf (db w')
    /\ DB.holdings (db w') = DB.holdings (db w)
    /\ DB.daily_records (db w') = DB.daily_records (db w)
    /\ ((In email (map User.email (DB.users (db w)))
         /\ resp = redirect "register"
         /\ db w' = db w
         /\ Session.user_id (session w') = Session.user_id (session w)
         /\ Session.flashes (session w')
            = Session.flashes (session w)
              ++ [("Email already registered", "warning")])
        \/ (~ In email (map User.email (DB.users (db w)))
            /\ resp = redirect "portfolio"
            /\ exists id,
                 ~ In id (map User.id (DB.users (db w)))
                 /\ DB.users (db w')
                    = DB.users (db w)
                      ++ [User.mk id name email pw (decimal 1000000 1)]
                 /\ Session.user_id (session w') = Some id)).
Proof.
  intros req w name email pw.
  apply (register_post (fun e => e) (fun p => p) req w).
  - reflexivity.
  - repeat split; constructor.
Defined.

(** X13: a POST to [login] always returns and leaves market and database
    alone.  It answers with the portfolio only for a registered user whose
    e-mail is the lowered posted one and whose stored hash accepts the
    posted password, and then logs that user in; otherwise it answers with
    the login page, queues a [danger] message and keeps the login that the
    session had. *)
Theorem login_post lower check_password_hash req w :
  method req = "POST" ->
  let email := lower (Dict.get_default "email" "" (form req)) in
  let pw := Dict.get_default "password" "" (form req) in
  exists resp s',
    login lower check_password_hash req w
    = Returns (resp, mkWorld (market w) (db w) s')
    /\ Session.live s' = Session.live (session w)
    /\ Session.fake_balance s' = Session.fake_balance (session w)
    /\ Session.fake_holdings s' = Session.fake_holdings (session w)
    /\ ((resp = redirect "portfolio"
         /\ exists u,
              In u (DB.users (db w))
              /\ User.email u = email
              /\ check_password_hash (User.password_hash u) pw = true
              /\ Session.user_id s' = Some (User.id u)
              /\ Session.flashes s'
                 = Session.flashes (session w)
                   ++ [(("Welcome back, " ++ User.name u)%string,
                        "success")])
        \/ (resp = redirect "login"
            /\ Session.user_id s' = Session.user_id (session w)
            /\ Session.flashes s'
               = Session.flashes (session w)
                 ++ [("Invalid credentials", "danger")]
            /\ forall u,
                 DB.user_by_email email (db w) = Some u ->
                 check_password_hash (User.password_hash u) pw = false)).
Proof.
  intros Hm email pw. destruct w as [m d s].
  cbn [market db session]. unfold login. rewrite Hm.
  change (String.eqb "POST" "POST") with true. cbv iota.
  rewrite (abind_returns get_db _ (mkWorld m d s) d (mkWorld m d s) eq_refl).
  fold email pw.
  destruct (DB.user_by_email email d) as [u|] eqn:F.
  - destruct (check_password_hash (User.password_hash u) pw) eqn:C.
    + do 2 eexists. split; [reflexivity|]. cbn.
      repeat (split; [reflexivity|]). left. split; [reflexivity|].
      apply user_by_email_Some in F. destruct F as [I E].
      exists u. now repeat split.
    + do 2 eexists. split; [reflexivity|]. cbn.
      repeat (split; [reflexivity|]). right.
      repeat (split; [reflexivity|]). now intros u' [= <-].
  - do 2 eexists. split; [reflexivity|]. cbn.
    repeat (split; [reflexivity|]). right.
    repeat (split; [reflexivity|]). discriminate.
Qed.

(** X13 at a wrong password. *)
Lemma login_post_witness :
  let req := mkRequest "POST" [("email", "a@x.in"); ("password", "no")] in
  let w := mkWorld (init false)
             (DB.mk [User.mk 1 "Asha" "a@x.in" "pw" (decimal 1000000 1)]
                [] [])
             Session.empty in
  let email := Dict.get_default "email" "" (form req) in
  let pw := Dict.get_default "password" "" (form req) in
  exists resp s',
    login (fun e => e) String.eqb req w
    = Returns (resp, mkWorld (market w) (db w) s')
    /\ Session.live s' = Session.live (session w)
    /\ Session.fake_balance s' = Session.fake_balance (session w)
    /\ Session.fake_holdings s' = Session.fake_holdings (session w)
    /\ ((resp = redirect "portfolio"
         /\ exists u,
              In u (DB.users (db w))
              /\ User.email u = email
              /\ String.eqb (User.password_hash u) pw = true
              /\ Session.user_id s' = Some (User.id u)
              /\ Session.flashes s'
                 = Session.flashes (session w)
                   ++ [(("Welcome back, " ++ User.name u)%string,
                        "success")])
        \/ (resp = redirect "login"
            /\ Session.user_id s' = Session.user_id (session w)
            /\ Session.flashes s'
               = Session.flashes (session w)
                 ++ [("Invalid credentials", "danger")]
            /\ forall u,
                 DB.user_by_email email (db w) = Some u ->
                 String.eqb (User.password_hash u) pw = false)).
Proof.
  intros req w email pw.
  apply (login_post (fun e => e) String.eqb req w). reflexivity.
Defined.

Lemma find_app_fresh {A : Type} (f : A -> bool) l x :
  find f l = None -> f x = true -> find f (l ++ [x]) = Some x.
Proof.
  induction l as [|y l IH]; intros N T.
  - cbn. now rewrite T.
  - cbn in *. destruct (f y); [discriminate | auto].
Qed.

(** X14: registering and then logging in with the same form.  When the
    lowered e-mail is new, lowering is idempotent on it and the hash made
    from the posted password accepts that password, the login that follows
    the registration (whatever happened to the session in between) answers
    with the portfolio and logs in the user that the registration made. *)
Theorem register_then_login lower generate_password_hash check_password_hash
    req w resp w1 s2 :
  method req = "POST" ->
  let email := lower (Dict.get_default "email" "" (form req)) in
  let pw := Dict.get_default "password" "" (form req) in
  ~ In email (map User.email (DB.users (db w))) ->
  lower email = email ->
  check_password_hash (generate_password_hash pw) pw = true ->
  register lower generate_password_hash req w = Returns (resp, w1) ->
  exists id s3,
    Session.user_id (session w1) = Some id
    /\ login lower check_password_hash
         (mkRequest "POST" [("email", email); ("password", pw)])
         (mkWorld (market w1) (db w1) s2)
       = Returns (redirect "portfolio", mkWorld (market w1) (db w1) s3)
    /\ Session.user_id s3 = Some id.
Proof.
  intros Hm email pw New Idem Check R. destruct w as [m d s].
  cbn [market db session] in *. unfold register in R. rewrite Hm in R.
  change (String.eqb "POST" "POST") with true in R. cbv iota in R.
  rewrite (abind_returns get_db _ (mkWorld m d s) d (mkWorld m d s) eq_refl)
    in R.
  fold email pw in R. apply user_by_email_None in New. rewrite New in R.
  cbn in R. injection R as <- <-. cbn [market db session Session.user_id].
  set (u := User.mk (DB.next_id (map User.id (DB.users d)))
              (Dict.get_default "name" "" (form req)) email
              (generate_password_hash pw) (decimal 1000000 1)).
  exists (User.id u). eexists. split; [reflexivity|].
  unfold login. cbn [method form].
  change (String.eqb "POST" "POST") with true. cbv iota.
  rewrite (abind_returns get_db _ _ _ _ eq_refl). cbn [db].
  change (Dict.get_default "email" "" [("email", email); ("password", pw)])
    with email.
  change (Dict.get_default "password" ""
            [("email", email); ("password", pw)]) with pw.
  rewrite Idem.
  assert (F : DB.user_by_email email
                (DB.mk (DB.users d ++ [u]) (DB.holdings d)
                   (DB.daily_records d)) = Some u).
  { unfold DB.user_by_email. cbn [DB.users].
    apply find_app_fresh; [exact New|]. cbn. apply String.eqb_refl. }
  rewrite F. cbn [User.password_hash u]. rewrite Check.
  split; reflexivity.
Qed.

(** X14 with the identity for lowering and for hashing. *)
Lemma register_then_login_witness :
  let req := mkRequest "POST"
               [("name", "Asha"); ("email", "a@x.in"); ("password", "pw")] in
  let w := mkWorld (init false) (DB.mk [] [] []) Session.empty in
  exists resp w1,
    register (fun e => e) (fun p => p) req w = Returns (resp, w1)
    /\ exists id s3,
         Session.user_id (session w1) = Some id
         /\ login (fun e => e) String.eqb
              (mkRequest "POST" [("email", "a@x.in"); ("password", "pw")])
              (mkWorld (market w1) (db w1) Session.empty)
            = Returns (redirect "portfolio", mkWorld (market w1) (db w1) s3)
         /\ Session.user_id s3 = Some id.
Proof.
  intros req w. do 2 eexists. split; [vm_compute; reflexivity|].
  refine (register_then_login (fun e => e) (fun p => p) String.eqb
            req w _ _ Session.empty _ _ _ _ _).
  - reflexivity.
  - intros [].
  - reflexivity.
  - reflexivity.
  - vm_compute. reflexivity.
Defined.

(** X15: [logout] always returns and leaves market and database alone; it
    empties the session, practice game included, but for its own message.
    Right afterwards the portfolio sends to the login page, and the practice
    game starts again from 100000 and no holdings. *)
Theorem logout_forgets int_of_str w :
  exists w1,
    logout w = Returns (redirect "index", w1)
    /\ market w1 = market w
    /\ db w1 = db w
    /\ session w1 = Session.mk None None None None [("Logged out", "info")]
    /\ (exists w2, portfolio w1 = Returns (redirect "login", w2))
    /\ exists snapshot w2,
         trade_game int_of_str (mkRequest "GET" []) w1
         = Returns (render_template "trade_game.html"
                      (TradeGameView.mk
                         ["AAPL"; "TSLA"; "INFY"; "TCS"; "BTC"; "ETH"; "DOGE"]
                         snapshot [] (Py.Int 100000) None), w2).
Proof.
  destruct w as [m d s].
  exists (mkWorld m d
            (Session.mk None None None None [("Logged out", "info")])).
  split; [reflexivity|]. cbn [market db session].
  repeat (split; [reflexivity|]). split.
  - eexists. reflexivity.
  - destruct (get_snapshot_pure
                ["AAPL"; "TSLA"; "INFY"; "TCS"; "BTC"; "ETH"; "DOGE"] m)
      as [snap E].
    exists snap. eexists. unfold trade_game.
    rewrite (abind_returns get_session _ _ _ _ eq_refl).
    cbn [session Session.fake_balance].
    rewrite (abind_returns (set_fake _ _) _ _ _ _ eq_refl).
    cbn [market db session Session.user_id Session.live Session.flashes].
    rewrite (abind_on_market _ _ _ _ _ _ _ E). reflexivity.
Qed.

(* ================================================================== *)
(** * The portfolio and the index page *)
(* ================================================================== *)




Lemma get_snapshot_loop_keys symbols :
  forall snapshot self snapshot' self',
    NoDup symbols ->
    (forall s, In s symbols -> Dict.get s snapshot = None) ->
    get_snapshot_loop symbols snapshot self = Ok (snapshot', self') ->
    Dict.keys snapshot' = Dict.keys snapshot ++ symbols.
Proof.
  induction symbols as [|symbol rest IH];
    intros snapshot self snapshot' self' N Fresh E.
  - cbn in E. injection E as <- _. now rewrite app_nil_r.
  - cbn [get_snapshot_loop] in E. unfold bind, prices_get in E.
    inversion N as [|? ? Nin N']; subst.
    apply IH in E; trivial.
    + rewrite E, keys_set_absent by (apply Fresh; now left).
      now rewrite <- app_assoc.
    + intros s I. rewrite get_set_other by (intros ->; contradiction).
      apply Fresh. now right.
Qed.

(** X17: [index] always returns and changes nothing; its snapshot has
    exactly the eight listed symbols, in the listed order, each with the
    stored price, or the fallback, rounded to 2 decimals. *)
Theorem index_snapshot USE_YFINANCE w :
  exists snapshot,
    index USE_YFINANCE w
    = Returns (render_template "index.html"
                 (IndexView.mk snapshot (session_live (session w))
                    USE_YFINANCE), w)
    /\ Dict.keys snapshot = listed_symbols
    /\ forall s,
         In s listed_symbols ->
         Dict.get s snapshot
         = Some (quote (Float64.round
                          (Dict.get_default s fallback (prices (market w)))
                          2)).
Proof.
  destruct w as [m d s]. cbn [market db session].
  destruct (get_snapshot_loop_lookup listed_symbols [] m wf_nil)
    as (snap & E & _ & Look).
  exists snap. split.
  - unfold index.
    change (get_snapshot listed_symbols) with
      (get_snapshot_loop listed_symbols []).
    rewrite (abind_on_market _ _ _ _ _ _ _ E).
    now rewrite (abind_returns get_session _ _ _ _ eq_refl).
  - split.
    + assert (N : NoDup listed_symbols).
      { unfold listed_symbols.
        repeat (constructor; [simpl; intuition discriminate|]).
        constructor. }
      apply (get_snapshot_loop_keys listed_symbols [] m snap m N
               (fun _ _ => eq_refl) E).
    + intros x I. rewrite Look.
      destruct (in_dec string_dec x listed_symbols); [reflexivity|].
      contradiction.
Qed.

(* ================================================================== *)
(** * Trading *)
(* ================================================================== *)

Lemma trade_buy_run repr_float u symbol amount a price w x w' :
  trade_buy repr_float u symbol amount a price w = Returns (x, w') ->
  exists usr message category d',
    u = Some usr
    /\ w' = mkWorld (market w) d'
              (Session.mk (Session.user_id (session w))
                 (Session.live (session w))
                 (Session.fake_balance (session w))
                 (Session.fake_holdings (session w))
                 (Session.flashes (session w) ++ [(message, category)]))
    /\ ((category = "danger" /\ d' = db w
         /\ Py.le (Py.Flt (Float64.mul price a))
              (Py.Flt (User.balance usr)) = false)
        \/ (category = "success"
            /\ Py.le (Py.Flt (Float64.mul price a))
                 (Py.Flt (User.balance usr)) = true
            /\ let d1 :=
                 DB.update_user
                   (User.mk (User.id usr) (User.name usr) (User.email usr)
                      (User.password_hash usr)
                      (Float64.sub (User.balance usr)
                         (Float64.mul price a)))
                   (db w) in
               match DB.holding_of (User.id usr) symbol d1 with
               | Some holding =>
                   exists avg,
                     Py.truediv
                       (Float64.add
                          (Float64.mul (Holding.avg_price holding)
                             (Holding.shares holding))
                          (Float64.mul price a))
                       (Float64.add (Holding.shares holding) a) = Some avg
                     /\ d' = DB.update_holding
                               (Holding.mk (Holding.id holding)
                                  (Holding.symbol holding)
                                  (Float64.add (Holding.shares holding) a)
                                  avg (Holding.user_id holding))
                               d1
               | None => d' = DB.add_holding symbol a price (User.id usr) d1
               end)).
Proof.
  intros H. unfold trade_buy in H.
  bind_inv H as usr w0 Eu. app_inv. exists usr.
  destruct (Py.le _ _) eqn:L.
  - bind_inv H as d w1 Ed. bind_inv H as d2 w2 Ed2.
    bind_inv H as t w3 Ep. app_inv.
    assert (F : exists message,
              w' = mkWorld (market w) d2
                     (Session.mk (Session.user_id (session w))
                        (Session.live (session w))
                        (Session.fake_balance (session w))
                        (Session.fake_holdings (session w))
                        (Session.flashes (session w)
                         ++ [(message, "success")]))
              /\ w2 = w).
    { destruct (DB.holding_of _ _ _) in Ed2.
      - bind_inv Ed2 as avg w4 Ea. app_inv.
        destruct amount; app_inv; eauto.
      - app_inv. destruct amount; app_inv; eauto. }
    destruct F as (message & -> & ->).
    exists message, "success", d2. split; [reflexivity|].
    split; [reflexivity|]. right. split; [reflexivity|].
    split; [reflexivity|]. cbv zeta.
    destruct (DB.holding_of _ _ _).
    + bind_inv Ed2 as avg w4 Ea. app_inv. eauto.
    + now app_inv.
  - app_inv. do 3 eexists. split; [reflexivity|].
    split; [reflexivity|]. left. now repeat split.
Qed.

Lemma trade_sell_run repr_float u symbol amount a price w x w' :
  trade_sell repr_float u symbol amount a price w = Returns (x, w') ->
  exists usr message category d',
    u = Some usr
    /\ w' = mkWorld (market w) d'
              (Session.mk (Session.user_id (session w))
                 (Session.live (session w))
                 (Session.fake_balance (session w))
                 (Session.fake_holdings (session w))
                 (Session.flashes (session w) ++ [(message, category)]))
    /\ ((category = "danger" /\ d' = db w
         /\ forall holding,
              DB.holding_of (User.id usr) symbol (db w) = Some holding ->
              Py.le amount (Py.Flt (Holding.shares holding)) = false)
        \/ (category = "success"
            /\ exists holding,
                 DB.holding_of (User.id usr) symbol (db w) = Some holding
                 /\ Py.le amount (Py.Flt (Holding.shares holding)) = true
                 /\ let holding' :=
                      Holding.mk (Holding.id holding)
                        (Holding.symbol holding)
                        (Float64.sub (Holding.shares holding) a)
                        (Holding.avg_price holding)
                        (Holding.user_id holding) in
                    let d1 :=
                      DB.update_holding holding'
                        (DB.update_user
                           (User.mk (User.id usr) (User.name usr)
                              (User.email usr) (User.password_hash usr)
                              (Float64.add (User.balance usr)
                                 (Float64.mul price a)))
                           (db w)) in
                    d' = if Py.eq (Py.Flt (Holding.shares holding'))
                              (Py.Int 0)
                         then DB.delete_holding holding' d1
                         else d1)).
Proof.
  intros H. unfold trade_sell in H.
  bind_inv H as usr w0 Eu. bind_inv H as d w1 Ed. app_inv. exists usr.
  destruct (DB.holding_of (User.id usr) symbol (db w)) as [holding|] eqn:F.
  - destruct (Py.le amount (Py.Flt (Holding.shares holding))) eqn:L.
    + bind_inv H as t w2 Ep. app_inv.
      assert (G : exists message,
                w' = mkWorld (market w)
                       (if Py.eq
                             (Py.Flt (Float64.sub (Holding.shares holding) a))
                             (Py.Int 0)
                        then DB.delete_holding
                               (Holding.mk (Holding.id holding)
                                  (Holding.symbol holding)
                                  (Float64.sub (Holding.shares holding) a)
                                  (Holding.avg_price holding)
                                  (Holding.user_id holding))
                               (DB.update_holding
                                  (Holding.mk (Holding.id holding)
                                     (Holding.symbol holding)
                                     (Float64.sub (Holding.shares holding) a)
                                     (Holding.avg_price holding)
                                     (Holding.user_id holding))
                                  (DB.update_user
                                     (User.mk (User.id usr) (User.name usr)
                                        (User.email usr)
                                        (User.password_hash usr)
                                        (Float64.add (User.balance usr)
                                           (Float64.mul price a)))
                                     (db w)))
                        else DB.update_holding
                               (Holding.mk (Holding.id holding)
                                  (Holding.symbol holding)
                                  (Float64.sub (Holding.shares holding) a)
                                  (Holding.avg_price holding)
                                  (Holding.user_id holding))
                               (DB.update_user
                                  (User.mk (User.id usr) (User.name usr)
                                     (User.email usr)
                                     (User.password_hash usr)
                                     (Float64.add (User.balance usr)
                                        (Float64.mul price a)))
                                  (db w)))
                       (Session.mk (Session.user_id (session w))
                          (Session.live (session w))
                          (Session.fake_balance (session w))
                          (Session.fake_holdings (session w))
                          (Session.flashes (session w)
                           ++ [(message, "success")]))).
      { destruct amount; app_inv; eauto. }
      destruct G as (message & ->).
      do 3 eexists. split; [reflexivity|]. split; [reflexivity|].
      right. split; [reflexivity|]. exists holding.
      split; [reflexivity|]. split; [exact L | reflexivity].
    + app_inv. do 3 eexists. split; [reflexivity|].
      split; [reflexivity|]. left. split; [reflexivity|].
      split; [reflexivity|]. now intros h [= <-].
  - app_inv. do 3 eexists. split; [reflexivity|].
    split; [reflexivity|]. left. split; [reflexivity|].
    split; [reflexivity|]. discriminate.
Qed.

Lemma opt_eqb_true o s : Py.opt_eqb o s = true -> o = Some s.
Proof.
  destruct o as [t|]; cbn; [|discriminate].
  intros E. apply String.eqb_eq in E. now subst.
Qed.

Lemma positive_amount_is_float amount a :
  amount = Py.Int 0 \/ (exists f, amount = Py.Flt f) ->
  Py.lt (Py.Int 0) amount = true ->
  Py.to_float amount = Some a -> amount = Py.Flt a.
Proof.
  intros [-> | [f ->]]; [discriminate|].
  cbn [Py.to_float]. now intros _ [= <-].
Qed.

(** What a returning POST of a logged-in user does: the trade, which ends
    in the world [t], then the movement of the posted symbol. *)
Lemma trade_page_post_run float_of_str repr_float r req w resp w' uid symbol :
  trade_page float_of_str repr_float r req w = Returns (resp, w') ->
  method req = "POST" ->
  Session.user_id (session w) = Some uid ->
  Dict.get "asset" (form req) = Some symbol ->
  let amount :=
    match Dict.get "quantity" (form req) with
    | Some q =>
        match float_of_str q with
        | Some f => Py.Flt f
        | None => Py.Int 0
        end
    | None => Py.Flt (S754_zero false)
    end in
  let price := Dict.get_default symbol fallback (prices (market w)) in
  let action := Dict.get "action" (form req) in
  exists pm t,
    resp = redirect "portfolio"
    /\ simulate_movement r symbol (market w) = Ok (pm, market w')
    /\ db w' = db t
    /\ session w' = session t
    /\ ((exists a,
           action = Some "buy" /\ Py.lt (Py.Int 0) amount = true
           /\ amount = Py.Flt a
           /\ trade_buy repr_float (DB.get_user uid (db w)) symbol
                amount a price w = Returns (tt, t))
        \/ (exists a,
              action = Some "sell" /\ Py.lt (Py.Int 0) amount = true
              /\ amount = Py.Flt a
              /\ trade_sell repr_float (DB.get_user uid (db w)) symbol
                   amount a price w = Returns (tt, t))
        \/ (flash "Invalid trade" "danger" w = Returns (tt, t)
            /\ (action = Some "buy" \/ action = Some "sell" ->
                Py.lt (Py.Int 0) amount = false))).
Proof.
  intros H Hm U A amount price action. destruct w as [m d s].
  cbn [market db session] in *. unfold trade_page in H.
  bind_inv H as s0 w0 Es. leaf_inv. rewrite U in H.
  bind_inv H as snapshot w1 Esnap. leaf_inv.
  apply get_snapshot_same_market in Esnap. subst.
  bind_inv H as d0 w2 Ed. leaf_inv. rewrite Hm in H.
  change (String.eqb "POST" "POST") with true in H. cbv iota in H.
  rewrite A in H. bind_inv H as sym w3 Esym. leaf_inv.
  injection Esym as <-.
  bind_inv H as p w4 Ep. leaf_inv. rewrite get_price_run in Ep.
  injection Ep as <- <-. fold price amount action in H.
  bind_inv H as t w5 Et. bind_inv H as pm w6 Em. leaf_inv.
  destruct t. exists pm, w5. split; [reflexivity|].
  assert (Am : amount = Py.Int 0 \/ (exists f, amount = Py.Flt f)).
  { unfold amount. destruct (Dict.get "quantity" (form req)) as [q|].
    - destruct (float_of_str q); eauto.
    - eauto. }
  assert (Mt : market w5 = m).
  { destruct (Py.opt_eqb action "buy" && Py.lt (Py.Int 0) amount).
    - bind_inv Et as a w7 Ea. leaf_inv.
      apply trade_buy_run in Et.
      destruct Et as (? & ? & ? & ? & _ & -> & _). reflexivity.
    - destruct (Py.opt_eqb action "sell" && Py.lt (Py.Int 0) amount).
      + bind_inv Et as a w7 Ea. leaf_inv.
        apply trade_sell_run in Et.
        destruct Et as (? & ? & ? & ? & _ & -> & _). reflexivity.
      + leaf_inv. reflexivity. }
  rewrite Mt in Em. split; [exact Em|].
  split; [reflexivity|]. split; [reflexivity|].
  destruct (Py.opt_eqb action "buy" && Py.lt (Py.Int 0) amount) eqn:B.
  - apply andb_true_iff in B. destruct B as [B1 B2].
    apply opt_eqb_true in B1.
    bind_inv Et as a w7 Ea. leaf_inv.
    left. exists a. split; [exact B1|]. split; [exact B2|].
    split; [now apply positive_amount_is_float | exact Et].
  - destruct (Py.opt_eqb action "sell" && Py.lt (Py.Int 0) amount) eqn:S.
    + apply andb_true_iff in S. destruct S as [S1 S2].
      apply opt_eqb_true in S1.
      bind_inv Et as a w7 Ea. leaf_inv.
      right. left. exists a. split; [exact S1|]. split; [exact S2|].
      split; [now apply positive_amount_is_float | exact Et].
    + right. right. split; [exact Et|].
      intros [E|E]; rewrite E in *; cbn [Py.opt_eqb] in *;
        rewrite ?String.eqb_refl in *; cbn [andb] in *; assumption.
Qed.

Lemma only_touches_refl uid d : db_wf d -> only_touches uid d d.
Proof.
  intros W. unfold only_touches. split; [exact W|]. now repeat split.
Qed.

Lemma only_touches_trans uid d1 d2 d3 :
  only_touches uid d1 d2 -> only_touches uid d2 d3 -> only_touches uid d1 d3.
Proof.
  intros (_ & A2 & A3 & A4 & A5 & A6 & A7 & A8)
         (B1 & B2 & B3 & B4 & B5 & B6 & B7 & B8).
  unfold only_touches. split; [exact B1|].
  repeat split; try congruence.
  - intros id N. now rewrite B7, A7.
  - intros id N. now rewrite B8, A8.
Qed.

Lemma NoDup_map_eq {A B : Type} (f : A -> B) l a b :
  NoDup (map f l) -> In a l -> In b l -> f a = f b -> a = b.
Proof.
  induction l as [|x l IH]; cbn [map]; intros N Ia Ib E; [destruct Ia|].
  inversion N as [|? ? Nx N']; subst.
  destruct Ia as [->|Ia], Ib as [->|Ib]; trivial.
  - exfalso. apply Nx. rewrite E. now apply in_map.
  - exfalso. apply Nx. rewrite <- E. now apply in_map.
  - auto.
Qed.

Lemma NoDup_map_filter {A B : Type} (f : A -> B) (p : A -> bool) l :
  NoDup (map f l) -> NoDup (map f (filter p l)).
Proof.
  induction l as [|x l IH]; cbn [map filter]; intros N; [constructor|].
  inversion N as [|? ? Nx N']; subst.
  destruct (p x); cbn [map]; auto.
  constructor; auto. intros I. apply Nx.
  apply in_map_iff in I. destruct I as (y & E & I).
  apply filter_In in I. apply in_map_iff. exists y. tauto.
Qed.

Lemma map_map_same {A B : Type} (f : A -> B) (g : A -> A) l :
  (forall x, In x l -> f (g x) = f x) -> map f (map g l) = map f l.
Proof.
  intros H. rewrite map_map. apply map_ext_in. exact H.
Qed.

Lemma filter_map_same {A : Type} (p : A -> bool) (g : A -> A) l :
  (forall x, In x l -> p (g x) = p x /\ (p x = true -> g x = x)) ->
  filter p (map g l) = filter p l.
Proof.
  induction l as [|x l IH]; intros H; [reflexivity|]. cbn [map filter].
  destruct (H x (or_introl eq_refl)) as [E G].
  rewrite E, IH by (intros y I; apply H; now right).
  destruct (p x); [now rewrite G | reflexivity].
Qed.

Lemma filter_filter_same {A : Type} (p q : A -> bool) l :
  (forall x, In x l -> p x = true -> q x = true) ->
  filter p (filter q l) = filter p l.
Proof.
  induction l as [|x l IH]; intros H; [reflexivity|]. cbn [filter].
  rewrite <- IH by (intros y I; apply H; now right).
  destruct (q x) eqn:Q; cbn [filter].
  - reflexivity.
  - destruct (p x) eqn:P; [|reflexivity].
    rewrite (H x (or_introl eq_refl) P) in Q. discriminate.
Qed.

Lemma find_map_same {A : Type} (p : A -> bool) (g : A -> A) l :
  (forall x, In x l -> p (g x) = p x /\ (p x = true -> g x = x)) ->
  find p (map g l) = find p l.
Proof.
  induction l as [|x l IH]; intros H; [reflexivity|]. cbn [map find].
  destruct (H x (or_introl eq_refl)) as [E G].
  rewrite E, IH by (intros y I; apply H; now right).
  destruct (p x); [now rewrite G | reflexivity].
Qed.

Lemma get_user_Some uid d u :
  DB.get_user uid d = Some u -> In u (DB.users d) /\ User.id u = uid.
Proof.
  unfold DB.get_user. intros F. apply find_some in F.
  destruct F as [I E]. apply Z.eqb_eq in E. now split.
Qed.

Lemma holding_of_Some uid symbol d h :
  DB.holding_of uid symbol d = Some h ->
  In h (DB.holdings d) /\ Holding.user_id h = uid
  /\ Holding.symbol h = symbol.
Proof.
  unfold DB.holding_of. intros F. apply find_some in F.
  destruct F as [I E]. apply andb_true_iff in E. destruct E as [E1 E2].
  apply Z.eqb_eq in E1. apply String.eqb_eq in E2. now repeat split.
Qed.

(** Writing back the row of a user with a new balance. *)
Lemma update_user_only_touches uid d u balance :
  db_wf d ->
  DB.get_user uid d = Some u ->
  only_touches uid d
    (DB.update_user
       (User.mk (User.id u) (User.name u) (User.email u)
          (User.password_hash u) balance) d).
Proof.
  intros (W1 & W2 & W3) G. apply get_user_Some in G. destruct G as [I E].
  set (u' := User.mk _ _ _ _ _).
  assert (Same : forall v, In v (DB.users d) ->
                 Z.eqb (User.id v) (User.id u') = true -> v = u).
  { intros v Iv Ev. apply Z.eqb_eq in Ev.
    apply (NoDup_map_eq User.id (DB.users d)); trivial. }
  assert (Mid : map User.id (DB.users (DB.update_user u' d))
                = map User.id (DB.users d)).
  { cbn [DB.update_user DB.users]. apply map_map_same. intros v Iv.
    destruct (Z.eqb (User.id v) (User.id u')) eqn:Ev; trivial.
    now rewrite (Same v Iv Ev). }
  assert (Mem : map User.email (DB.users (DB.update_user u' d))
                = map User.email (DB.users d)).
  { cbn [DB.update_user DB.users]. apply map_map_same. intros v Iv.
    destruct (Z.eqb (User.id v) (User.id u')) eqn:Ev; trivial.
    now rewrite (Same v Iv Ev). }
  unfold only_touches. split.
  { unfold db_wf. rewrite Mid, Mem. now repeat split. }
  split; [reflexivity|]. split; [exact Mid|]. split.
  { cbn [DB.update_user DB.users]. apply map_map_same. intros v Iv.
    destruct (Z.eqb (User.id v) (User.id u')) eqn:Ev; trivial.
    now rewrite (Same v Iv Ev). }
  split; [exact Mem|]. split.
  { cbn [DB.update_user DB.users]. apply map_map_same. intros v Iv.
    destruct (Z.eqb (User.id v) (User.id u')) eqn:Ev; trivial.
    now rewrite (Same v Iv Ev). }
  split; [|reflexivity].
  intros id N. unfold DB.get_user. cbn [DB.update_user DB.users].
  apply find_map_same. intros v Iv.
  destruct (Z.eqb (User.id v) (User.id u')) eqn:Ev.
  - rewrite (Same v Iv Ev). cbn [User.id u'].
    split; [reflexivity|]. intros T. apply Z.eqb_eq in T. congruence.
  - split; [reflexivity | trivial].
Qed.

(** Writing back a holding of the user. *)
Lemma update_holding_only_touches uid d h shares avg_price :
  db_wf d ->
  In h (DB.holdings d) ->
  Holding.user_id h = uid ->
  only_touches uid d
    (DB.update_holding
       (Holding.mk (Holding.id h) (Holding.symbol h) shares avg_price
          (Holding.user_id h)) d).
Proof.
  intros (W1 & W2 & W3) I U. set (h' := Holding.mk _ _ _ _ _).
  assert (Same : forall g, In g (DB.holdings d) ->
                 Z.eqb (Holding.id g) (Holding.id h') = true -> g = h).
  { intros g Ig Eg. apply Z.eqb_eq in Eg.
    apply (NoDup_map_eq Holding.id (DB.holdings d)); trivial. }
  unfold only_touches. split.
  { unfold db_wf. cbn [DB.update_holding DB.users DB.holdings].
    split; [exact W1|]. split; [exact W2|].
    rewrite map_map_same; trivial. intros g Ig.
    destruct (Z.eqb (Holding.id g) (Holding.id h')) eqn:Eg; trivial.
    now rewrite (Same g Ig Eg). }
  repeat (split; [reflexivity|]).
  intros id N. unfold DB.holdings_of.
  cbn [DB.update_holding DB.holdings]. apply filter_map_same.
  intros g Ig. destruct (Z.eqb (Holding.id g) (Holding.id h')) eqn:Eg.
  - rewrite (Same g Ig Eg). cbn [Holding.user_id h'].
    split; [reflexivity|]. intros T. apply Z.eqb_eq in T. congruence.
  - split; [reflexivity | trivial].
Qed.

(** A new holding of the user. *)
Lemma add_holding_only_touches uid d symbol shares avg_price :
  db_wf d ->
  only_touches uid d (DB.add_holding symbol shares avg_price uid d).
Proof.
  intros (W1 & W2 & W3). unfold only_touches. split.
  { unfold db_wf. cbn [DB.add_holding DB.users DB.holdings].
    split; [exact W1|]. split; [exact W2|].
    rewrite map_app. cbn [map Holding.id].
    apply NoDup_snoc; trivial. apply next_id_fresh. }
  repeat (split; [reflexivity|]).
  intros id N. unfold DB.holdings_of. cbn [DB.add_holding DB.holdings].
  rewrite filter_app. cbn [filter Holding.user_id].
  destruct (Z.eqb_spec uid id); [congruence|]. apply app_nil_r.
Qed.

(** Deleting a holding of the user. *)
Lemma delete_holding_only_touches uid d h :
  db_wf d ->
  (forall g, In g (DB.holdings d) -> Holding.id g = Holding.id h ->
             Holding.user_id g = uid) ->
  only_touches uid d (DB.delete_holding h d).
Proof.
  intros (W1 & W2 & W3) Own. unfold only_touches. split.
  { unfold db_wf. cbn [DB.delete_holding DB.users DB.holdings].
    split; [exact W1|]. split; [exact W2|]. now apply NoDup_map_filter. }
  repeat (split; [reflexivity|]).
  intros id N. unfold DB.holdings_of. cbn [DB.delete_holding DB.holdings].
  apply filter_filter_same. intros g Ig T. apply Z.eqb_eq in T.
  apply negb_true_iff. apply Z.eqb_neq. intros E.
  apply Own in E; trivial. congruence.
Qed.

Lemma trade_buy_only_touches repr_float uid symbol amount a price w t :
  db_wf (db w) ->
  trade_buy repr_float (DB.get_user uid (db w)) symbol amount a price w
  = Returns (tt, t) ->
  only_touches uid (db w) (db t)
  /\ market t = market w
  /\ exists message category,
       session t
       = Session.mk (Session.user_id (session w)) (Session.live (session w))
           (Session.fake_balance (session w))
           (Session.fake_holdings (session w))
           (Session.flashes (session w) ++ [(message, category)])
       /\ (category = "success" \/ category = "danger")
       /\ (category = "danger" -> db t = db w).
Proof.
  intros W H. apply trade_buy_run in H.
  destruct H as (usr & message & category & d' & G & -> & C).
  cbn [market db session]. split.
  - destruct C as [(_ & -> & _) | (_ & _ & C)];
      [now apply only_touches_refl|].
    cbv zeta in C.
    pose proof (update_user_only_touches uid (db w) usr
                  (Float64.sub (User.balance usr) (Float64.mul price a))
                  W G) as T1.
    apply get_user_Some in G. destruct G as [_ Eid]. subst uid.
    destruct (DB.holding_of _ _ _) as [holding|] eqn:F.
    + destruct C as (avg & _ & ->).
      apply holding_of_Some in F. destruct F as (I & U & _).
      eapply only_touches_trans; [exact T1|].
      apply update_holding_only_touches; [apply T1 | exact I | congruence].
    + subst d'. eapply only_touches_trans; [exact T1|].
      apply add_holding_only_touches. apply T1.
  - split; [reflexivity|]. exists message, category.
    split; [reflexivity|].
    destruct C as [(-> & -> & _) | (-> & _)].
    + split; [now right | reflexivity].
    + split; [now left | discriminate].
Qed.

Lemma trade_sell_only_touches repr_float uid symbol amount a price w t :
  db_wf (db w) ->
  trade_sell repr_float (DB.get_user uid (db w)) symbol amount a price w
  = Returns (tt, t) ->
  only_touches uid (db w) (db t)
  /\ market t = market w
  /\ exists message category,
       session t
       = Session.mk (Session.user_id (session w)) (Session.live (session w))
           (Session.fake_balance (session w))
           (Session.fake_holdings (session w))
           (Session.flashes (session w) ++ [(message, category)])
       /\ (category = "success" \/ category = "danger")
       /\ (category = "danger" -> db t = db w).
Proof.
  intros W H. apply trade_sell_run in H.
  destruct H as (usr & message & category & d' & G & -> & C).
  cbn [market db session]. split.
  - destruct C as [(_ & -> & _) | (_ & holding & F & _ & C)];
      [now apply only_touches_refl|].
    cbv zeta in C.
    pose proof (update_user_only_touches uid (db w) usr
                  (Float64.add (User.balance usr) (Float64.mul price a))
                  W G) as T1.
    apply get_user_Some in G. destruct G as [_ Eid]. subst uid.
    apply holding_of_Some in F. destruct F as (I & U & _).
    set (d0 := DB.update_user _ (db w)) in *.
    set (holding' := Holding.mk _ _ _ _ _) in *.
    assert (T2 : only_touches (User.id usr) (db w)
                   (DB.update_holding holding' d0)).
    { eapply only_touches_trans; [exact T1|].
      apply update_holding_only_touches; [apply T1 | exact I | congruence]. }
    destruct (Py.eq _ _); subst d'; [|exact T2].
    eapply only_touches_trans; [exact T2|].
    apply delete_holding_only_touches; [apply T2|].
    intros g Ig Eg. cbn [DB.update_holding DB.holdings] in Ig.
    apply in_map_iff in Ig. destruct Ig as (x & <- & Ix).
    destruct (Z.eqb_spec (Holding.id x) (Holding.id holding')) as [E|N].
    + cbn [holding' Holding.user_id]. congruence.
    + contradiction.
  - split; [reflexivity|]. exists message, category.
    split; [reflexivity|].
    destruct C as [(-> & -> & _) | (-> & _)].
    + split; [now right | reflexivity].
    + split; [now left | discriminate].
Qed.

(** X19: a POST to [trade_page] of a logged-in user that returns answers
    with a redirect to the portfolio and moves the price of the posted
    asset by one [simulate_movement], whether the trade was accepted or
    not.  It queues exactly one message, of category [success] or
    [danger], and changes nothing else in the session; after a [danger]
    message the database is as before.  In a database with unique keys, it
    touches at most the balance and the holdings of the logged-in user: the
    keys stay unique, nobody is added or removed, no name, e-mail or
    password hash changes, and the rows of every other user are as they
    were. *)
Theorem trade_page_post float_of_str repr_float r req w resp w' uid symbol :
  trade_page float_of_str repr_float r req w = Returns (resp, w') ->
  method req = "POST" ->
  Session.user_id (session w) = Some uid ->
  Dict.get "asset" (form req) = Some symbol ->
  db_wf (db w) ->
  resp = redirect "portfolio"
  /\ (exists pm, simulate_movement r symbol (market w) = Ok (pm, market w'))
  /\ only_touches uid (db w) (db w')
  /\ exists message category,
       session w'
       = Session.mk (Session.user_id (session w)) (Session.live (session w))
           (Session.fake_balance (session w))
           (Session.fake_holdings (session w))
           (Session.flashes (session w) ++ [(message, category)])
       /\ (category = "success" \/ category = "danger")
       /\ (category = "danger" -> db w' = db w).
Proof.
  intros H Hm U A W.
  destruct (trade_page_post_run _ _ _ _ _ _ _ _ _ H Hm U A)
    as (pm & t & -> & Em & Ed & Es & C).
  split; [reflexivity|]. split; [now exists pm|]. rewrite Ed, Es.
  destruct C as [(a & _ & _ & _ & B) | [(a & _ & _ & _ & S) | (F & _)]].
  - apply trade_buy_only_touches in B; trivial.
    destruct B as (T & _ & M). now split.
  - apply trade_sell_only_touches in S; trivial.
    destruct S as (T & _ & M). now split.
  - apply flash_inv in F. subst t. cbn [market db session].
    split; [now apply only_touches_refl|].
    do 2 eexists. split; [reflexivity|]. split; [now right | reflexivity].
Qed.

(** X19 at a purchase of ten shares of AAPL. *)
Lemma trade_page_post_witness :
  let req := mkRequest "POST"
               [("asset", "AAPL"); ("action", "buy"); ("quantity", "10")] in
  let w := mkWorld (init false)
             (DB.mk [User.mk 1 "Asha" "a@x.in" "pw" (decimal 1000000 1)]
                [] [])
             (Session.mk (Some 1%Z) None None None []) in
  exists resp w',
    trade_page (fun _ => Some (Float64.of_Z 10)) (fun _ => "10.0") 1 req w
    = Returns (resp, w')
    /\ resp = redirect "portfolio"
    /\ (exists pm, simulate_movement 1 "AAPL" (market w) = Ok (pm, market w'))
    /\ only_touches 1 (db w) (db w')
    /\ exists message category,
         session w'
         = Session.mk (Session.user_id (session w))
             (Session.live (session w))
             (Session.fake_balance (session w))
             (Session.fake_holdings (session w))
             (Session.flashes (session w) ++ [(message, category)])
         /\ (category = "success" \/ category = "danger")
         /\ (category = "danger" -> db w' = db w).
Proof.
  intros req w. do 2 eexists. split; [vm_compute; reflexivity|].
  refine (trade_page_post (fun _ => Some (Float64.of_Z 10))
            (fun _ => "10.0") 1 req w _ _ 1%Z "AAPL" _ _ _ _ _).
  - vm_compute. reflexivity.
  - reflexivity.
  - reflexivity.
  - reflexivity.
  - unfold db_wf. cbn.
    repeat split; repeat constructor; intros [].
Defined.

(** X18: a visitor who is not logged in is sent to the login page by
    [trade_page], whatever the method and the form, and by [portfolio]:
    no trade is made, the market does not move, and the session only gains
    the message. *)
Theorem anonymous_is_sent_to_login float_of_str repr_float r req w :
  Session.user_id (session w) = None ->
  let s message :=
    Session.mk None (Session.live (session w))
      (Session.fake_balance (session w)) (Session.fake_holdings (session w))
      (Session.flashes (session w) ++ [(message, "info")]) in
  trade_page float_of_str repr_float r req w
  = Returns (redirect "login",
             mkWorld (market w) (db w) (s "Login to trade"))
  /\ portfolio w
     = Returns (redirect "login",
                mkWorld (market w) (db w) (s "Login to view portfolio")).
Proof.
  intros U s. destruct w as [m d s0]. cbn [market db session] in *.
  unfold trade_page, portfolio, s.
  rewrite !(abind_returns get_session _ _ _ _ eq_refl).
  cbn [session]. rewrite U.
  unfold abind, flash, areturn. cbn [market db session]. rewrite U.
  split; reflexivity.
Qed.

(** X18 at a POST that would be a purchase. *)
Lemma anonymous_is_sent_to_login_witness :
  let req := mkRequest "POST"
               [("asset", "AAPL"); ("action", "buy"); ("quantity", "10")] in
  let w := mkWorld (init false) (DB.mk [] [] []) Session.empty in
  trade_page (fun _ => Some (Float64.of_Z 10)) (fun _ => "10.0") 1 req w
  = Returns (redirect "login",
             mkWorld (init false) (DB.mk [] [] [])
               (Session.mk None None None None
                  [("Login to trade", "info")]))
  /\ portfolio w
     = Returns (redirect "login",
                mkWorld (init false) (DB.mk [] [] [])
                  (Session.mk None None None None
                     [("Login to view portfolio", "info")])).
Proof.
  intros req w.
  apply (anonymous_is_sent_to_login (fun _ => Some (Float64.of_Z 10))
           (fun _ => "10.0") 1 req w).
  reflexivity.
Defined.

(** A POST of a logged-in user whose trade ends in [t]. *)
Lemma trade_page_post_returns float_of_str repr_float r req w uid symbol t :
  method req = "POST" ->
  Session.user_id (session w) = Some uid ->
  Dict.get "asset" (form req) = Some symbol ->
  let amount :=
    match Dict.get "quantity" (form req) with
    | Some q =>
        match float_of_str q with
        | Some f => Py.Flt f
        | None => Py.Int 0
        end
    | None => Py.Flt (S754_zero false)
    end in
  let price := Dict.get_default symbol fallback (prices (market w)) in
  let action := Dict.get "action" (form req) in
  (if Py.opt_eqb action "buy" && Py.lt (Py.Int 0) amount then
     abind (orelse (Py.to_float amount) OverflowError)
       (fun a => trade_buy repr_float (DB.get_user uid (db w)) symbol
                   amount a price)
   else if Py.opt_eqb action "sell" && Py.lt (Py.Int 0) amount then
     abind (orelse (Py.to_float amount) OverflowError)
       (fun a => trade_sell repr_float (DB.get_user uid (db w)) symbol
                   amount a price)
   else flash "Invalid trade" "danger") w
  = Returns (tt, t) ->
  market t = market w ->
  exists pm m',
    simulate_movement r symbol (market w) = Ok (pm, m')
    /\ trade_page float_of_str repr_float r req w
       = Returns (redirect "portfolio", mkWorld m' (db t) (session t)).
Proof.
  intros Hm U A amount price action T Mt. destruct w as [m d s].
  cbn [market db session] in *.
  destruct (simulate_movement_run r symbol m) as (movement & _ & E).
  cbv zeta in E. do 2 eexists. split; [exact E|].
  destruct (get_snapshot_pure listed_symbols m) as [snap Es].
  unfold trade_page.
  rewrite (abind_returns get_session _ _ _ _ eq_refl). cbn [session].
  rewrite U. rewrite (abind_on_market _ _ _ _ _ _ _ Es).
  rewrite (abind_returns get_db _ _ _ _ eq_refl). cbn [db].
  rewrite Hm. change (String.eqb "POST" "POST") with true. cbv iota.
  rewrite A. cbn [orelse]. rewrite (abind_returns _ _ _ _ _ eq_refl).
  rewrite (abind_on_market _ _ _ _ _ _ _ (get_price_run _ m)).
  fold amount price action.
  rewrite (abind_returns _ _ _ _ _ T).
  destruct t as [mt dt st]. cbn [market db session] in *. subst mt.
  rewrite (abind_on_market _ _ _ _ _ _ _ E). reflexivity.
Qed.








(** X22: any request to [trade_page] of a logged-in session that is not a
    POST returns the trade page and changes nothing, also when the session
    names a user that the table does not have; the snapshot has exactly the
    eight listed symbols, in the listed order, each with the stored price,
    or the fallback, rounded to 2 decimals. *)
Theorem trade_page_get float_of_str repr_float r req w uid :
  Session.user_id (session w) = Some uid ->
  String.eqb (method req) "POST" = false ->
  exists snapshot,
    trade_page float_of_str repr_float r req w
    = Returns (render_template "trade.html"
                 (TradeView.mk snapshot (session_live (session w))), w)
    /\ Dict.keys snapshot = listed_symbols
    /\ forall s,
         In s listed_symbols ->
         Dict.get s snapshot
         = Some (quote (Float64.round
                          (Dict.get_default s fallback (prices (market w)))
                          2)).
Proof.
  intros U Hm. destruct w as [m d s]. cbn [market db session] in *.
  destruct (get_snapshot_loop_lookup listed_symbols [] m wf_nil)
    as (snap & E & _ & Look).
  exists snap. split.
  - unfold trade_page.
    rewrite (abind_returns get_session _ _ _ _ eq_refl). cbn [session].
    rewrite U.
    change (get_snapshot listed_symbols) with
      (get_snapshot_loop listed_symbols []).
    rewrite (abind_on_market _ _ _ _ _ _ _ E).
    rewrite (abind_returns get_db _ _ _ _ eq_refl). rewrite Hm.
    now rewrite (abind_returns get_session _ _ _ _ eq_refl).
  - split.
    + assert (N : NoDup listed_symbols).
      { unfold listed_symbols.
        repeat (constructor; [simpl; intuition discriminate|]).
        constructor. }
      apply (get_snapshot_loop_keys listed_symbols [] m snap m N
               (fun _ _ => eq_refl) E).
    + intros x I. rewrite Look.
      destruct (in_dec string_dec x listed_symbols); [reflexivity|].
      contradiction.
Qed.

(** X22 at a GET of a session whose user is not in the table. *)
Lemma trade_page_get_witness :
  let w := mkWorld (init false) (DB.mk [] [] [])
             (Session.mk (Some 5%Z) None None None []) in
  exists snapshot,
    trade_page (fun _ => None) (fun _ => "") 0 (mkRequest "GET" []) w
    = Returns (render_template "trade.html"
                 (TradeView.mk snapshot (session_live (session w))), w)
    /\ Dict.keys snapshot = listed_symbols
    /\ forall s,
         In s listed_symbols ->
         Dict.get s snapshot
         = Some (quote (Float64.round
                          (Dict.get_default s fallback (prices (market w)))
                          2)).
Proof.
  intros w.
  apply (trade_page_get (fun _ => None) (fun _ => "") 0
           (mkRequest "GET" []) w 5%Z); reflexivity.
Defined.

(** X23: a POST to [trade_page] of a logged-in session that names an asset
    but whose action is neither [buy] nor [sell], or whose quantity is
    missing, not a number, zero, negative or NaN, always returns, also
    when the session names a user that the table does not have: the
    database is unchanged, the message [Invalid trade] is queued with
    category [danger], and the price of the asset moves all the same. *)
Theorem trade_page_invalid_trade float_of_str repr_float r req w uid symbol :
  method req = "POST" ->
  Session.user_id (session w) = Some uid ->
  Dict.get "asset" (form req) = Some symbol ->
  let amount :=
    match Dict.get "quantity" (form req) with
    | Some q =>
        match float_of_str q with
        | Some f => Py.Flt f
        | None => Py.Int 0
        end
    | None => Py.Flt (S754_zero false)
    end in
  let action := Dict.get "action" (form req) in
  (action <> Some "buy" /\ action <> Some "sell")
  \/ Py.lt (Py.Int 0) amount = false ->
  exists pm m',
    simulate_movement r symbol (market w) = Ok (pm, m')
    /\ trade_page float_of_str repr_float r req w
       = Returns (redirect "portfolio",
                  mkWorld m' (db w)
                    (Session.mk (Session.user_id (session w))
                       (Session.live (session w))
                       (Session.fake_balance (session w))
                       (Session.fake_holdings (session w))
                       (Session.flashes (session w)
                        ++ [("Invalid trade", "danger")]))).
Proof.
  intros Hm U A amount action Bad.
  set (t := mkWorld (market w) (db w)
              (Session.mk (Session.user_id (session w))
                 (Session.live (session w))
                 (Session.fake_balance (session w))
                 (Session.fake_holdings (session w))
                 (Session.flashes (session w)
                  ++ [("Invalid trade", "danger")]))).
  apply (trade_page_post_returns float_of_str repr_float r req w uid
           symbol t Hm U A); [|reflexivity].
  fold amount action.
  assert (B : Py.opt_eqb action "buy" && Py.lt (Py.Int 0) amount = false).
  { destruct Bad as [[Nb _] | L]; [|rewrite L; apply andb_false_r].
    destruct (Py.opt_eqb action "buy") eqn:E; [|reflexivity].
    apply opt_eqb_true in E. contradiction. }
  assert (S : Py.opt_eqb action "sell" && Py.lt (Py.Int 0) amount = false).
  { destruct Bad as [[_ Ns] | L]; [|rewrite L; apply andb_false_r].
    destruct (Py.opt_eqb action "sell") eqn:E; [|reflexivity].
    apply opt_eqb_true in E. contradiction. }
  rewrite B, S. reflexivity.
Qed.

(** X23 at a quantity that is not a number. *)
Lemma trade_page_invalid_trade_witness :
  let req := mkRequest "POST"
               [("asset", "TCS"); ("action", "buy"); ("quantity", "ten")] in
  let w := mkWorld (init false) (DB.mk [] [] [])
             (Session.mk (Some 5%Z) None None None []) in
  exists pm m',
    simulate_movement 1 "TCS" (market w) = Ok (pm, m')
    /\ trade_page (fun _ => None) (fun _ => "") 1 req w
       = Returns (redirect "portfolio",
                  mkWorld m' (db w)
                    (Session.mk (Some 5%Z) None None None
                       [("Invalid trade", "danger")])).
Proof.
  intros req w.
  apply (trade_page_invalid_trade (fun _ => None) (fun _ => "") 1 req w
           5%Z "TCS"); try reflexivity.
  right. reflexivity.
Defined.

(* ================================================================== *)
(** * The demo data, and what holds in every state *)
(* ================================================================== *)

Lemma NoDup_by_nodup {A : Type} (dec : forall x y : A, {x = y} + {x <> y})
    (l : list A) :
  nodup dec l = l -> NoDup l.
Proof. intros E. rewrite <- E. apply NoDup_nodup. Qed.

(** The loop over [range(1, 101)], for any hashes and balances. *)
Lemma demo_loop_users (hash : nat -> string) (bal : nat -> Float64.float)
    hs rs :
  let d' :=
    fold_left
      (fun d i =>
         snd (DB.add_user ("Demo" ++ format_03d i)
                ("demo" ++ format_03d i ++ "@example.com")
                (hash i) (bal i) d))
      (seq 1 100) (DB.mk [] hs rs) in
  NoDup (map User.id (DB.users d'))
  /\ NoDup (map User.email (DB.users d'))
  /\ map User.id (DB.users d') = map Z.of_nat (seq 1 100)
  /\ map User.name (DB.users d')
     = map (fun i => ("Demo" ++ format_03d i)%string) (seq 1 100)
  /\ map User.email (DB.users d')
     = map (fun i => ("demo" ++ format_03d i ++ "@example.com")%string)
         (seq 1 100)
  /\ map User.password_hash (DB.users d') = map hash (seq 1 100)
  /\ map User.balance (DB.users d') = map bal (seq 1 100)
  /\ DB.holdings d' = hs
  /\ DB.daily_records d' = rs.
Proof.
  cbv zeta.
  split.
  { apply (NoDup_by_nodup Z.eq_dec). vm_compute. reflexivity. }
  split.
  { apply (NoDup_by_nodup string_dec). vm_compute. reflexivity. }
  repeat split; vm_compute; reflexivity.
Qed.


(** X24: on a database without users the code that runs at start adds
    exactly the users Demo001 ... Demo100, in this order, with the keys 1
    ... 100, the e-mails demo001@example.com ... demo100@example.com, the
    hashes that the calls of [set_password] made and the balances
    [round(50000 + random() * 200000, 2)] of the draws; keys and e-mails
    are unique, and holdings and daily records stay as they were. *)
Theorem demo_data_users generate_password_hash random d :
  DB.users d = [] ->
  NoDup (map Holding.id (DB.holdings d)) ->
  let d' := demo_data generate_password_hash random d in
  db_wf d'
  /\ map User.id (DB.users d') = map Z.of_nat (seq 1 100)
  /\ map User.name (DB.users d')
     = map (fun i => ("Demo" ++ format_03d i)%string) (seq 1 100)
  /\ map User.email (DB.users d')
     = map (fun i => ("demo" ++ format_03d i ++ "@example.com")%string)
         (seq 1 100)
  /\ map User.password_hash (DB.users d')
     = map generate_password_hash (seq 1 100)
  /\ map User.balance (DB.users d')
     = map (fun i => demo_balance (random i)) (seq 1 100)
  /\ DB.holdings d' = DB.holdings d
  /\ DB.daily_records d' = DB.daily_records d.
Proof.
  intros U N. destruct d as [us hs rs].
  cbn [DB.users DB.holdings DB.daily_records] in *. subst us.
  unfold demo_data. cbn [DB.users List.length Nat.eqb].
  destruct (demo_loop_users generate_password_hash
              (fun i => demo_balance (random i)) hs rs)
    as (N1 & N2 & Ids & Names & Emails & Hashes & Balances & Hs & Rs).
  cbv zeta in *. unfold db_wf. rewrite Hs.
  repeat split; assumption.
Qed.

(** X24 on the empty database. *)
Lemma demo_data_users_witness :
  let d' := demo_data (fun _ => "h") (fun _ => decimal 5 1)
              (DB.mk [] [] []) in
  db_wf d'
  /\ map User.id (DB.users d') = map Z.of_nat (seq 1 100)
  /\ map User.name (DB.users d')
     = map (fun i => ("Demo" ++ format_03d i)%string) (seq 1 100)
  /\ map User.email (DB.users d')
     = map (fun i => ("demo" ++ format_03d i ++ "@example.com")%string)
         (seq 1 100)
  /\ map User.password_hash (DB.users d') = map (fun _ => "h") (seq 1 100)
  /\ map User.balance (DB.users d')
     = map (fun i => demo_balance (decimal 5 1)) (seq 1 100)
  /\ DB.holdings d' = []
  /\ DB.daily_records d' = [].
Proof.
  apply (demo_data_users (fun _ => "h") (fun _ => decimal 5 1)
           (DB.mk [] [] [])).
  - reflexivity.
  - constructor.
Defined.

















